(** * Reader-writer locks of [rw_lock/locks.py] and [rw_lock/lock.py]

    A shallow embedding of the three lock classes
    ([ReaderPriorityRWLock], [WriterPriorityRWLock], [FairRWLock]) and of
    the stand-alone [WriterPriorityRWLock] of [rw_lock/lock.py].

    Layers:
    - [Py]: the Python constructs the classes are built from
      (exceptions, [try/finally], [threading.Lock], the [with] statement);
    - one module per class, holding the instance state as a record and
      each method as a function translated line by line;
    - [Threads]: the interleaving semantics of several threads calling the
      methods of a monitor based lock, and [ReaderPriorityThreads] for the
      class that blocks on its second lock while holding the monitor.

    Python integers are unbounded, so counters are [Z]. *)

From Stdlib Require Import ZArith Bool Lia.
From stdpp Require Import base list.

Local Open Scope Z_scope.

(* ================================================================= *)
(** ** Python constructs *)

Module Py.

(** Exceptions that can travel through the lock code: the
    [RuntimeError] of [threading.Lock.release] on an unlocked lock and
    whatever the caller's critical section raises. *)
Inductive exn : Type :=
| RuntimeError
| CallerError (code : Z).

(** How a call ends for the thread that makes it.  [Hangs] is a call
    that blocks and is never resumed by anybody else. *)
Inductive outcome (A : Type) : Type :=
| Returned (a : A)
| Raised (e : exn)
| Hangs.
Arguments Returned {A} a.
Arguments Raised {A} e.
Arguments Hangs {A}.

(** A statement run by one thread on the instance state [S]. *)
Definition M (S A : Type) : Type := S -> outcome A * S.

Definition ret {S A} (a : A) : M S A := fun s => (Returned a, s).

Definition bind {S A B} (m : M S A) (k : A -> M S B) : M S B :=
  fun s =>
    match m s with
    | (Returned a, s1) => k a s1
    | (Raised e, s1) => (Raised e, s1)
    | (Hangs, s1) => (Hangs, s1)
    end.

Definition get {S} : M S S := fun s => (Returned s, s).

Definition modify {S} (f : S -> S) : M S unit := fun s => (Returned tt, f s).

(** [try: body finally: fin].  The [finally] clause runs whether the
    body returned or raised; the body's outcome is kept unless the
    clause itself raises or blocks.  A body that never comes back never
    reaches the clause. *)
Definition try_finally {S A} (body : M S A) (fin : M S unit) : M S A :=
  fun s =>
    match body s with
    | (Hangs, s1) => (Hangs, s1)
    | (r, s1) =>
        match fin s1 with
        | (Returned _, s2) => (r, s2)
        | (Raised e, s2) => (Raised e, s2)
        | (Hangs, s2) => (Hangs, s2)
        end
    end.

(** [threading.Lock]: the state is whether it is locked. *)
Definition Lock : Type := bool.

(** [Lock.acquire()] blocks while the lock is locked. *)
Definition acquire : M Lock unit :=
  fun locked => if locked then (Hangs, locked) else (Returned tt, true).

(** [Lock.release()] unlocks, from any thread; releasing an unlocked
    lock raises [RuntimeError]. *)
Definition release : M Lock unit :=
  fun locked =>
    if locked then (Returned tt, false) else (Raised RuntimeError, locked).

(** Run a statement on one attribute of the instance. *)
Definition on_attr {S F A} (rd : S -> F) (wr : F -> S -> S) (m : M F A)
  : M S A :=
  fun s => let '(r, f) := m (rd s) in (r, wr f s).

(** [with lock: body] for a [threading.Lock] attribute. *)
Definition with_lock {S A} (rd : S -> Lock) (wr : Lock -> S -> S)
    (body : M S A) : M S A :=
  bind (on_attr rd wr acquire)
       (fun _ => try_finally body (on_attr rd wr release)).

(** [with cm: body] for a [@contextmanager] generator of the shape
    [enter(); try: yield; finally: leave()]. *)
Definition with_context {S A} (enter leave : M S unit) (body : M S A)
  : M S A :=
  bind enter (fun _ => try_finally body leave).

End Py.

Notation "x <- m ;; k" := (Py.bind m (fun x => k))
  (at level 100, m at next level, right associativity).
Notation "m ;;; k" := (Py.bind m (fun _ => k))
  (at level 100, right associativity).

(* ================================================================= *)
(** ** Monitor sections with a wait loop *)

(** What a release does to a condition variable when it leaves. *)
Inductive wake (Cv : Type) : Type :=
| NoWake
| Notify (c : Cv)
| NotifyAll (c : Cv).
Arguments NoWake {Cv}.
Arguments Notify {Cv} c.
Arguments NotifyAll {Cv} c.

(** The shape shared by the acquire methods of the monitor based
    classes:
<<
    with self._monitor:
        before
        while waits:
            on.wait()
        after
>>
    [Condition.wait] gives the monitor up while the thread sleeps, so the
    monitor is free between any two pieces of this code. *)
Record wait_loop (St Cv : Type) : Type := WaitLoop {
  before : St -> St;
  waits : St -> bool;
  on : Cv;
  after : St -> St
}.
Arguments WaitLoop {St Cv}.
Arguments before {St Cv}.
Arguments waits {St Cv}.
Arguments on {St Cv}.
Arguments after {St Cv}.

(** A wait loop run by a thread that nobody will ever notify. *)
Definition run_alone {St Cv} (a : wait_loop St Cv) : Py.M St unit :=
  fun s =>
    let s1 := before a s in
    if waits a s1 then (Py.Hangs, s1) else (Py.Returned tt, after a s1).

(** A release run as a statement: the notification is lost on a thread
    that is alone. *)
Definition run_release {St Cv} (r : St -> St * wake Cv) : Py.M St unit :=
  fun s => (Py.Returned tt, fst (r s)).

(** The interface the three classes share, for those built on a monitor
    and condition variables only. *)
Class MonitorRWLock (St Cv : Type) : Type := {
  new : St;
  read_acquire : wait_loop St Cv;
  read_release : St -> St * wake Cv;
  write_acquire : wait_loop St Cv;
  write_release : St -> St * wake Cv
}.

(* ================================================================= *)
(** ** [rw_lock/locks.py]: WriterPriorityRWLock *)

Module WriterPriorityRWLock.

Record state : Type := State {
  _reader_count : Z;
  _writer_active : bool;
  _writer_waiting_count : Z
}.

Inductive condition : Type := _readers_ok | _writers_ok.

#[global] Instance condition_eq_dec : EqDecision condition.
Proof. solve_decision. Defined.

Definition __init__ : state :=
  {| _reader_count := 0;
     _writer_active := false;
     _writer_waiting_count := 0 |}.

Definition _read_acquire : wait_loop state condition :=
  {| before := fun self => self;
     waits := fun self =>
       _writer_active self || (0 <? _writer_waiting_count self);
     on := _readers_ok;
     after := fun self =>
       {| _reader_count := _reader_count self + 1;
          _writer_active := _writer_active self;
          _writer_waiting_count := _writer_waiting_count self |} |}.

Definition _read_release (self : state) : state * wake condition :=
  let self :=
    {| _reader_count := _reader_count self - 1;
       _writer_active := _writer_active self;
       _writer_waiting_count := _writer_waiting_count self |} in
  if (_reader_count self =? 0) && (0 <? _writer_waiting_count self)
  then (self, Notify _writers_ok)
  else (self, NoWake).

Definition _write_acquire : wait_loop state condition :=
  {| before := fun self =>
       {| _reader_count := _reader_count self;
          _writer_active := _writer_active self;
          _writer_waiting_count := _writer_waiting_count self + 1 |};
     waits := fun self =>
       (0 <? _reader_count self) || _writer_active self;
     on := _writers_ok;
     after := fun self =>
       {| _reader_count := _reader_count self;
          _writer_active := true;
          _writer_waiting_count := _writer_waiting_count self - 1 |} |}.

Definition _write_release (self : state) : state * wake condition :=
  let self :=
    {| _reader_count := _reader_count self;
       _writer_active := false;
       _writer_waiting_count := _writer_waiting_count self |} in
  if 0 <? _writer_waiting_count self
  then (self, Notify _writers_ok)
  else (self, NotifyAll _readers_ok).

Definition read {A} (body : Py.M state A) : Py.M state A :=
  Py.with_context (run_alone _read_acquire) (run_release _read_release) body.

Definition write {A} (body : Py.M state A) : Py.M state A :=
  Py.with_context (run_alone _write_acquire) (run_release _write_release)
    body.

#[global] Instance monitor : MonitorRWLock state condition :=
  {| new := __init__;
     read_acquire := _read_acquire;
     read_release := _read_release;
     write_acquire := _write_acquire;
     write_release := _write_release |}.

End WriterPriorityRWLock.


(* ================================================================= *)
(** ** [rw_lock/locks.py]: FairRWLock *)

Module FairRWLock.

Record state : Type := State {
  _readers_active : Z;
  _writer_active : bool;
  _waiting_count : Z
}.

Inductive condition : Type := _queue.

#[global] Instance condition_eq_dec : EqDecision condition.
Proof. solve_decision. Defined.

Definition __init__ : state :=
  {| _readers_active := 0;
     _writer_active := false;
     _waiting_count := 0 |}.

Definition _read_acquire : wait_loop state condition :=
  {| before := fun self =>
       {| _readers_active := _readers_active self;
          _writer_active := _writer_active self;
          _waiting_count := _waiting_count self + 1 |};
     waits := fun self => _writer_active self;
     on := _queue;
     after := fun self =>
       {| _readers_active := _readers_active self + 1;
          _writer_active := _writer_active self;
          _waiting_count := _waiting_count self - 1 |} |}.

Definition _read_release (self : state) : state * wake condition :=
  let self :=
    {| _readers_active := _readers_active self - 1;
       _writer_active := _writer_active self;
       _waiting_count := _waiting_count self |} in
  if (_readers_active self =? 0) && (0 <? _waiting_count self)
  then (self, NotifyAll _queue)
  else (self, NoWake).

Definition _write_acquire : wait_loop state condition :=
  {| before := fun self =>
       {| _readers_active := _readers_active self;
          _writer_active := _writer_active self;
          _waiting_count := _waiting_count self + 1 |};
     waits := fun self =>
       (0 <? _readers_active self) || _writer_active self;
     on := _queue;
     after := fun self =>
       {| _readers_active := _readers_active self;
          _writer_active := true;
          _waiting_count := _waiting_count self - 1 |} |}.

Definition _write_release (self : state) : state * wake condition :=
  let self :=
    {| _readers_active := _readers_active self;
       _writer_active := false;
       _waiting_count := _waiting_count self |} in
  if 0 <? _waiting_count self
  then (self, NotifyAll _queue)
  else (self, NoWake).

Definition read {A} (body : Py.M state A) : Py.M state A :=
  Py.with_context (run_alone _read_acquire) (run_release _read_release) body.

Definition write {A} (body : Py.M state A) : Py.M state A :=
  Py.with_context (run_alone _write_acquire) (run_release _write_release)
    body.

#[global] Instance monitor : MonitorRWLock state condition :=
  {| new := __init__;
     read_acquire := _read_acquire;
     read_release := _read_release;
     write_acquire := _write_acquire;
     write_release := _write_release |}.

End FairRWLock.

(* ================================================================= *)
(** ** [rw_lock/lock.py]: the stand-alone WriterPriorityRWLock *)

Module lock_py.
Module WriterPriorityRWLock.

Record state : Type := State {
  _reader_count : Z;
  _writer_active : bool;
  _writer_waiting_count : Z
}.

Inductive condition : Type := _readers_ok | _writers_ok.

#[global] Instance condition_eq_dec : EqDecision condition.
Proof. solve_decision. Defined.

Definition __init__ : state :=
  {| _reader_count := 0;
     _writer_active := false;
     _writer_waiting_count := 0 |}.

Definition _read_acquire : wait_loop state condition :=
  {| before := fun self => self;
     waits := fun self =>
       _writer_active self || (0 <? _writer_waiting_count self);
     on := _readers_ok;
     after := fun self =>
       {| _reader_count := _reader_count self + 1;
          _writer_active := _writer_active self;
          _writer_waiting_count := _writer_waiting_count self |} |}.

Definition _read_release (self : state) : state * wake condition :=
  let self :=
    {| _reader_count := _reader_count self - 1;
       _writer_active := _writer_active self;
       _writer_waiting_count := _writer_waiting_count self |} in
  if (_reader_count self =? 0) && (0 <? _writer_waiting_count self)
  then (self, Notify _writers_ok)
  else (self, NoWake).

Definition _write_acquire : wait_loop state condition :=
  {| before := fun self =>
       {| _reader_count := _reader_count self;
          _writer_active := _writer_active self;
          _writer_waiting_count := _writer_waiting_count self + 1 |};
     waits := fun self =>
       (0 <? _reader_count self) || _writer_active self;
     on := _writers_ok;
     after := fun self =>
       {| _reader_count := _reader_count self;
          _writer_active := true;
          _writer_waiting_count := _writer_waiting_count self - 1 |} |}.

Definition _write_release (self : state) : state * wake condition :=
  let self :=
    {| _reader_count := _reader_count self;
       _writer_active := false;
       _writer_waiting_count := _writer_waiting_count self |} in
  if 0 <? _writer_waiting_count self
  then (self, Notify _writers_ok)
  else (self, NotifyAll _readers_ok).

Definition read {A} (body : Py.M state A) : Py.M state A :=
  Py.with_context (run_alone _read_acquire) (run_release _read_release) body.

Definition write {A} (body : Py.M state A) : Py.M state A :=
  Py.with_context (run_alone _write_acquire) (run_release _write_release)
    body.

#[global] Instance monitor : MonitorRWLock state condition :=
  {| new := __init__;
     read_acquire := _read_acquire;
     read_release := _read_release;
     write_acquire := _write_acquire;
     write_release := _write_release |}.

End WriterPriorityRWLock.
End lock_py.

(* ================================================================= *)
(** ** [rw_lock/locks.py]: ReaderPriorityRWLock *)

Module ReaderPriorityRWLock.

(** [_writer_ok], a condition created by [__init__], is used by no
    method and carries no state of its own. *)
Record state : Type := State {
  _monitor : Py.Lock;
  _reader_count : Z;
  _writer_lock : Py.Lock
}.

Definition set_monitor (l : Py.Lock) (self : state) : state :=
  {| _monitor := l;
     _reader_count := _reader_count self;
     _writer_lock := _writer_lock self |}.

Definition set_reader_count (n : Z) (self : state) : state :=
  {| _monitor := _monitor self;
     _reader_count := n;
     _writer_lock := _writer_lock self |}.

Definition set_writer_lock (l : Py.Lock) (self : state) : state :=
  {| _monitor := _monitor self;
     _reader_count := _reader_count self;
     _writer_lock := l |}.

Definition __init__ : state :=
  {| _monitor := false; _reader_count := 0; _writer_lock := false |}.

Definition _read_acquire : Py.M state unit :=
  Py.with_lock _monitor set_monitor
    (Py.modify (fun self => set_reader_count (_reader_count self + 1) self) ;;;
     self <- Py.get ;;
     if _reader_count self =? 1
     then Py.on_attr _writer_lock set_writer_lock Py.acquire
     else Py.ret tt).

Definition _read_release : Py.M state unit :=
  Py.with_lock _monitor set_monitor
    (Py.modify (fun self => set_reader_count (_reader_count self - 1) self) ;;;
     self <- Py.get ;;
     if _reader_count self =? 0
     then Py.on_attr _writer_lock set_writer_lock Py.release
     else Py.ret tt).

Definition _write_acquire : Py.M state unit :=
  Py.on_attr _writer_lock set_writer_lock Py.acquire.

Definition _write_release : Py.M state unit :=
  Py.on_attr _writer_lock set_writer_lock Py.release.

Definition read {A} (body : Py.M state A) : Py.M state A :=
  Py.with_context _read_acquire _read_release body.

Definition write {A} (body : Py.M state A) : Py.M state A :=
  Py.with_context _write_acquire _write_release body.

(** What is left of [_read_acquire] for a thread that sleeps in
    [self._writer_lock.acquire()] with the monitor in its hands: take the
    writer lock, then leave the [with self._monitor] block. *)
Definition _read_acquire_resume : Py.M state unit :=
  Py.try_finally
    (Py.on_attr _writer_lock set_writer_lock Py.acquire)
    (Py.on_attr _monitor set_monitor Py.release).

End ReaderPriorityRWLock.

(* ================================================================= *)
(** ** Threads calling a monitor based lock *)

Module Threads.

Inductive kind : Type := Rd | Wr.

(** The calls a thread makes on the lock, in program order. *)
Inductive op : Type :=
| Acquire (k : kind)
| Release (k : kind).

(** Where a thread stands: between two calls, asleep in the [wait()] of
    an acquire, or notified and about to take the monitor again to test
    the loop condition.  As in CPython's [threading.Condition], a
    [wait()] without timeout ends only when the thread is notified. *)
Inductive pc : Type :=
| Running
| Waiting (k : kind)
| Woken (k : kind).

Record thread : Type := Thread {
  th_pc : pc;
  th_todo : list op
}.

(** What a step of a thread did. *)
Inductive event : Type :=
| Acquired (k : kind)
| Blocked (k : kind)
| Released (k : kind).

#[global] Instance kind_eq_dec : EqDecision kind.
Proof. solve_decision. Defined.

#[global] Instance op_eq_dec : EqDecision op.
Proof. solve_decision. Defined.

#[global] Instance pc_eq_dec : EqDecision pc.
Proof. solve_decision. Defined.

#[global] Instance event_eq_dec : EqDecision event.
Proof. solve_decision. Defined.

(** The calls of a thread that only uses the lock through
    [with lock.read():] and [with lock.write():] blocks, one block after
    the other. *)
Fixpoint blocks (ks : list kind) : list op :=
  match ks with
  | [] => []
  | k :: ks => Acquire k :: Release k :: blocks ks
  end.

(** A thread that is inside or in front of well bracketed calls. *)
Definition bracketed (th : thread) : Prop :=
  match th_pc th with
  | Running =>
      (exists ks, th_todo th = blocks ks) \/
      (exists k ks, th_todo th = Release k :: blocks ks)
  | Waiting k | Woken k => exists ks, th_todo th = Release k :: blocks ks
  end.

(** The thread is inside a critical section of kind [k]. *)
Definition holds (k : kind) (th : thread) : bool :=
  match th_pc th, th_todo th with
  | Running, Release k' :: _ => bool_decide (k' = k)
  | _, _ => false
  end.

(** The thread is inside an acquire of kind [k] that has not returned. *)
Definition pending (k : kind) (th : thread) : bool :=
  match th_pc th with
  | Running => false
  | Waiting k' | Woken k' => bool_decide (k' = k)
  end.

Definition finished (th : thread) : bool :=
  match th_pc th, th_todo th with
  | Running, [] => true
  | _, _ => false
  end.

(** Number of threads of a pool that satisfy a test. *)
Fixpoint tally {T : Type} (f : T -> bool) (pool : list T) : Z :=
  match pool with
  | [] => 0
  | th :: pool => (if f th then 1 else 0) + tally f pool
  end.

Definition flag (b : bool) : Z := if b then 1 else 0.

Section System.

Context {St Cv : Type} `{EqDecision Cv} (L : MonitorRWLock St Cv).

Definition acquire_of (k : kind) : wait_loop St Cv :=
  match k with
  | Rd => read_acquire
  | Wr => write_acquire
  end.

Definition release_of (k : kind) : St -> St * wake Cv :=
  match k with
  | Rd => read_release
  | Wr => write_release
  end.

(** The thread sleeps in [c.wait()]. *)
Definition waits_on (c : Cv) (th : thread) : bool :=
  match th_pc th with
  | Waiting k => bool_decide (on (acquire_of k) = c)
  | _ => false
  end.

Definition wake_up (th : thread) : thread :=
  match th_pc th with
  | Waiting k => {| th_pc := Woken k; th_todo := th_todo th |}
  | _ => th
  end.

(** [c.notify()]: one of the sleepers of [c] is woken, [pick] says which
    one; with no sleeper the call does nothing. *)
Definition notify (c : Cv) (pick : nat) (pool : list thread)
  : option (list thread) :=
  if existsb (waits_on c) pool then
    match pool !! pick with
    | Some th =>
        if waits_on c th then Some (<[pick := wake_up th]> pool) else None
    | None => None
    end
  else Some pool.

(** [c.notify_all()]: every sleeper of [c] is woken. *)
Definition notify_all (c : Cv) (pool : list thread) : list thread :=
  map (fun th => if waits_on c th then wake_up th else th) pool.

Definition deliver (w : wake Cv) (pick : nat) (pool : list thread)
  : option (list thread) :=
  match w with
  | NoWake => Some pool
  | Notify c => notify c pick pool
  | NotifyAll c => Some (notify_all c pool)
  end.

Record config : Type := Config {
  lock : St;
  pool : list thread
}.

(** The loop test and what follows it, run with the monitor held by
    thread [i]: either the thread goes (back) to sleep or it leaves the
    method. *)
Definition test_loop (k : kind) (i : nat) (rest : list op) (s : St)
    (p : list thread) : event * config :=
  if waits (acquire_of k) s
  then (Blocked k,
        {| lock := s;
           pool := <[i := {| th_pc := Waiting k; th_todo := rest |}]> p |})
  else (Acquired k,
        {| lock := after (acquire_of k) s;
           pool := <[i := {| th_pc := Running; th_todo := rest |}]> p |}).

(** One monitor section of thread [i].  [None]: the thread cannot run
    (it does not exist, has nothing left to do or is asleep), or [pick]
    names no sleeper although there is one to notify. *)
Definition step (i pick : nat) (c : config) : option (event * config) :=
  match pool c !! i with
  | None => None
  | Some th =>
      match th_pc th, th_todo th with
      | Running, [] => None
      | Running, Acquire k :: rest =>
          Some (test_loop k i rest (before (acquire_of k) (lock c)) (pool c))
      | Running, Release k :: rest =>
          let '(s, w) := release_of k (lock c) in
          match
            deliver w pick
              (<[i := {| th_pc := Running; th_todo := rest |}]> (pool c))
          with
          | Some p => Some (Released k, {| lock := s; pool := p |})
          | None => None
          end
      | Waiting _, _ => None
      | Woken k, rest => Some (test_loop k i rest (lock c) (pool c))
      end
  end.

(** A schedule says which thread runs next and whom a [notify] wakes. *)
Fixpoint run (sched : list (nat * nat)) (c : config) : option config :=
  match sched with
  | [] => Some c
  | (i, pick) :: sched =>
      match step i pick c with
      | Some (_, c') => run sched c'
      | None => None
      end
  end.

(** A fresh lock and one thread for each program. *)
Definition start (progs : list (list op)) : config :=
  {| lock := new;
     pool := map (fun todo => {| th_pc := Running; th_todo := todo |}) progs |}.

Definition reachable (progs : list (list op)) (c : config) : Prop :=
  exists sched, run sched (start progs) = Some c.

(** No thread can take a step. *)
Definition stuck (c : config) : Prop :=
  forall i pick, step i pick c = None.

(** The same steps as a relation, one rule for each way through [step]. *)
Inductive transition (i pick : nat) (c : config) : event -> config -> Prop :=
| enter_at_once k rest :
    pool c !! i = Some {| th_pc := Running; th_todo := Acquire k :: rest |} ->
    waits (acquire_of k) (before (acquire_of k) (lock c)) = false ->
    transition i pick c (Acquired k)
      {| lock := after (acquire_of k) (before (acquire_of k) (lock c));
         pool := <[i := {| th_pc := Running; th_todo := rest |}]> (pool c) |}
| fall_asleep k rest :
    pool c !! i = Some {| th_pc := Running; th_todo := Acquire k :: rest |} ->
    waits (acquire_of k) (before (acquire_of k) (lock c)) = true ->
    transition i pick c (Blocked k)
      {| lock := before (acquire_of k) (lock c);
         pool := <[i := {| th_pc := Waiting k; th_todo := rest |}]> (pool c) |}
| enter_after_wait k rest :
    pool c !! i = Some {| th_pc := Woken k; th_todo := rest |} ->
    waits (acquire_of k) (lock c) = false ->
    transition i pick c (Acquired k)
      {| lock := after (acquire_of k) (lock c);
         pool := <[i := {| th_pc := Running; th_todo := rest |}]> (pool c) |}
| sleep_again k rest :
    pool c !! i = Some {| th_pc := Woken k; th_todo := rest |} ->
    waits (acquire_of k) (lock c) = true ->
    transition i pick c (Blocked k)
      {| lock := lock c;
         pool := <[i := {| th_pc := Waiting k; th_todo := rest |}]> (pool c) |}
| leave k rest s w p :
    pool c !! i = Some {| th_pc := Running; th_todo := Release k :: rest |} ->
    release_of k (lock c) = (s, w) ->
    deliver w pick
      (<[i := {| th_pc := Running; th_todo := rest |}]> (pool c)) = Some p ->
    transition i pick c (Released k) {| lock := s; pool := p |}.

End System.

(** Waking threads does not change a test that ignores the difference
    between asleep and woken. *)
Definition wake_blind (f : thread -> bool) : Prop :=
  forall th, f (wake_up th) = f th.

(** Readers that sleep are woken, everybody else is left alone. *)
Definition wake_readers (th : thread) : thread :=
  match th_pc th with
  | Waiting Rd => {| th_pc := Woken Rd; th_todo := th_todo th |}
  | _ => th
  end.

(** Potential of a pool: a bound on the steps it can still take.  A
    release may wake every other thread, hence its weight. *)
Definition op_weight (n : nat) (o : op) : nat :=
  match o with
  | Acquire _ => 2
  | Release _ => S n
  end.

Definition pc_weight (p : pc) : nat :=
  match p with
  | Running => 0
  | Waiting _ => 1
  | Woken _ => 2
  end.

Fixpoint todo_weight (n : nat) (todo : list op) : nat :=
  match todo with
  | [] => 0
  | o :: todo => (op_weight n o + todo_weight n todo)%nat
  end.

Definition thread_weight (n : nat) (th : thread) : nat :=
  (pc_weight (th_pc th) + todo_weight n (th_todo th))%nat.

Fixpoint pool_weight (n : nat) (p : list thread) : nat :=
  match p with
  | [] => 0
  | th :: p => (thread_weight n th + pool_weight n p)%nat
  end.

Definition potential (p : list thread) : nat := pool_weight (length p) p.

End Threads.

(* ================================================================= *)
(** ** Threads calling a ReaderPriorityRWLock *)

Module ReaderPriorityThreads.

Import ReaderPriorityRWLock.

(** A thread is between two calls or asleep in
    [self._writer_lock.acquire()] inside [_read_acquire], with the
    monitor in its hands. *)
Inductive pc : Type :=
| Running
| AtWriterLock.

Record thread : Type := Thread {
  th_pc : pc;
  th_todo : list Threads.op
}.

Inductive event : Type :=
| Acquired (k : Threads.kind)
| Parked
| Released (k : Threads.kind)
| Crashed (e : Py.exn).

Record config : Type := Config {
  lock : state;
  pool : list thread
}.

Definition method (o : Threads.op) : Py.M state unit :=
  match o with
  | Threads.Acquire Threads.Rd => _read_acquire
  | Threads.Release Threads.Rd => _read_release
  | Threads.Acquire Threads.Wr => _write_acquire
  | Threads.Release Threads.Wr => _write_release
  end.

Definition returned (o : Threads.op) : event :=
  match o with
  | Threads.Acquire k => Acquired k
  | Threads.Release k => Released k
  end.

(** One call of thread [i], or the rest of a call that slept.  A call
    that blocks before it changed anything is no step; a reader that
    blocks on the writer lock has taken the monitor and keeps it while it
    sleeps.  An exception nobody catches ends the thread. *)
Definition step (i : nat) (c : config) : option (event * config) :=
  match pool c !! i with
  | None => None
  | Some th =>
      match th_pc th, th_todo th with
      | Running, [] => None
      | Running, o :: rest =>
          match method o (lock c) with
          | (Py.Returned _, s) =>
              Some (returned o,
                    {| lock := s;
                       pool := <[i := {| th_pc := Running; th_todo := rest |}]>
                                 (pool c) |})
          | (Py.Raised e, s) =>
              Some (Crashed e,
                    {| lock := s;
                       pool := <[i := {| th_pc := Running; th_todo := [] |}]>
                                 (pool c) |})
          | (Py.Hangs, s) =>
              if _monitor s && negb (_monitor (lock c))
              then Some (Parked,
                         {| lock := s;
                            pool := <[i := {| th_pc := AtWriterLock;
                                              th_todo := rest |}]> (pool c) |})
              else None
          end
      | AtWriterLock, rest =>
          match _read_acquire_resume (lock c) with
          | (Py.Returned _, s) =>
              Some (Acquired Threads.Rd,
                    {| lock := s;
                       pool := <[i := {| th_pc := Running; th_todo := rest |}]>
                                 (pool c) |})
          | (Py.Raised e, s) =>
              Some (Crashed e,
                    {| lock := s;
                       pool := <[i := {| th_pc := Running; th_todo := [] |}]>
                                 (pool c) |})
          | (Py.Hangs, _) => None
          end
      end
  end.

Fixpoint run (sched : list nat) (c : config) : option config :=
  match sched with
  | [] => Some c
  | i :: sched =>
      match step i c with
      | Some (_, c') => run sched c'
      | None => None
      end
  end.

Definition start (progs : list (list Threads.op)) : config :=
  {| lock := __init__;
     pool := map (fun todo => {| th_pc := Running; th_todo := todo |}) progs |}.

Definition reachable (progs : list (list Threads.op)) (c : config) : Prop :=
  exists sched, run sched (start progs) = Some c.

(** The thread is inside a critical section of kind [k]. *)
Definition holds (k : Threads.kind) (th : thread) : bool :=
  match th_pc th, th_todo th with
  | Running, Threads.Release k' :: _ => bool_decide (k' = k)
  | _, _ => false
  end.

Definition parked (th : thread) : bool :=
  match th_pc th with
  | Running => false
  | AtWriterLock => true
  end.

Definition bracketed (th : thread) : Prop :=
  match th_pc th with
  | Running =>
      (exists ks, th_todo th = Threads.blocks ks) \/
      (exists k ks, th_todo th = Threads.Release k :: Threads.blocks ks)
  | AtWriterLock =>
      exists ks, th_todo th = Threads.Release Threads.Rd :: Threads.blocks ks
  end.

End ReaderPriorityThreads.

(* ================================================================= *)
(** ** Invariants of the configurations *)

Module Exclusive.

Import Threads.

(** A writer inside its section leaves no reader inside one. *)
Definition wp_safe (c : config (St := WriterPriorityRWLock.state)) : Prop :=
  WriterPriorityRWLock._writer_active (lock c) = true ->
  WriterPriorityRWLock._reader_count (lock c) <= 0.

Definition fair_safe (c : config (St := FairRWLock.state)) : Prop :=
  FairRWLock._writer_active (lock c) = true ->
  FairRWLock._readers_active (lock c) <= 0.

End Exclusive.

Module WriterPriorityInvariant.

Import Threads.
Import WriterPriorityRWLock.

(** [_writer_waiting_count] is the number of threads inside
    [_write_acquire], whatever the threads call. *)
Definition writers_counted (c : config (St := state)) : Prop :=
  _writer_waiting_count (lock c) = tally (pending Wr) (pool c).

(** With bracketed calls [_reader_count] is the number of threads inside
    a read section. *)
Definition readers_counted (c : config (St := state)) : Prop :=
  Forall bracketed (pool c) /\
  _reader_count (lock c) = tally (holds Rd) (pool c).

(** The same for the class of [rw_lock/lock.py]. *)
Definition writers_counted_py
    (c : config (St := lock_py.WriterPriorityRWLock.state)) : Prop :=
  lock_py.WriterPriorityRWLock._writer_waiting_count (lock c) =
  tally (pending Wr) (pool c).

End WriterPriorityInvariant.

Module FairInvariant.

Import Threads.
Import FairRWLock.

(** [_waiting_count] is the number of threads inside an acquire, and a
    thread sleeps only while the condition of its loop holds: no
    notification is ever missed. *)
Record counted (c : config (St := state)) : Prop := Counted {
  counted_brackets : Forall bracketed (pool c);
  counted_readers : _readers_active (lock c) = tally (holds Rd) (pool c);
  counted_writer : flag (_writer_active (lock c)) = tally (holds Wr) (pool c);
  counted_waiting :
    _waiting_count (lock c) =
    tally (pending Rd) (pool c) + tally (pending Wr) (pool c);
  counted_sleepers :
    forall j k todo,
      pool c !! j = Some {| th_pc := Waiting k; th_todo := todo |} ->
      waits (acquire_of monitor k) (lock c) = true
}.

End FairInvariant.

Module ReaderPriorityInvariant.

Import ReaderPriorityRWLock ReaderPriorityThreads.

(** [_reader_count] counts the readers inside a section and the one
    that sleeps at the writer lock; the monitor is kept exactly while a
    reader sleeps there; the writer lock is locked exactly while a writer
    or at least one reader is inside a section. *)
Record counted (c : config) : Prop := Counted {
  counted_brackets : Forall bracketed (pool c);
  counted_readers :
    _reader_count (lock c) =
    Threads.tally (holds Threads.Rd) (pool c) + Threads.tally parked (pool c);
  counted_monitor :
    Threads.flag (_monitor (lock c)) = Threads.tally parked (pool c);
  counted_gate :
    Threads.flag (_writer_lock (lock c)) =
    Threads.tally (holds Threads.Wr) (pool c) +
    (if 0 <? Threads.tally (holds Threads.Rd) (pool c) then 1 else 0)
}.

End ReaderPriorityInvariant.

(* ================================================================= *)
(** ** The class of [lock.py] seen as the class of [locks.py] *)

Module Correspondence.

Import Threads.

Module A := lock_py.WriterPriorityRWLock.
Module B := WriterPriorityRWLock.

(** An instance of the class of [lock.py] seen as one of [locks.py]:
    attribute by attribute, condition by condition. *)
Definition to_locks (self : A.state) : B.state :=
  {| B._reader_count := A._reader_count self;
     B._writer_active := A._writer_active self;
     B._writer_waiting_count := A._writer_waiting_count self |}.

Definition of_locks (self : B.state) : A.state :=
  {| A._reader_count := B._reader_count self;
     A._writer_active := B._writer_active self;
     A._writer_waiting_count := B._writer_waiting_count self |}.

Definition to_locks_condition (c : A.condition) : B.condition :=
  match c with
  | A._readers_ok => B._readers_ok
  | A._writers_ok => B._writers_ok
  end.

Definition to_locks_wake (w : wake A.condition) : wake B.condition :=
  match w with
  | NoWake => NoWake
  | Notify c => Notify (to_locks_condition c)
  | NotifyAll c => NotifyAll (to_locks_condition c)
  end.

(** The same critical section, run on the other class. *)
Definition to_locks_body {R} (body : Py.M A.state R) : Py.M B.state R :=
  fun self => let '(r, self') := body (of_locks self) in (r, to_locks self').

Definition to_locks_result {R} (r : Py.outcome R * A.state)
  : Py.outcome R * B.state :=
  (fst r, to_locks (snd r)).

Definition to_locks_config (c : config (St := A.state))
  : config (St := B.state) :=
  {| lock := to_locks (lock c); pool := pool c |}.

(** Two wait loops that do the same. *)
Definition same_loop (a : wait_loop A.state A.condition)
    (b : wait_loop B.state B.condition) : Prop :=
  (forall self, before b (to_locks self) = to_locks (before a self)) /\
  (forall self, waits b (to_locks self) = waits a self) /\
  on b = to_locks_condition (on a) /\
  (forall self, after b (to_locks self) = to_locks (after a self)).

Definition same_release (a : A.state -> A.state * wake A.condition)
    (b : B.state -> B.state * wake B.condition) : Prop :=
  forall self,
    b (to_locks self) = (to_locks (fst (a self)), to_locks_wake (snd (a self))).

End Correspondence.

(* ================================================================= *)
(** ** What a checked release would do *)

Module Contract.

(** The behaviour asked of a release method [m] on an instance whose
    reader counter [count] is 0: it raises, and the counter is not left
    below zero. *)
Definition fails_fast {S} (m : Py.M S unit) (count : S -> Z) : Prop :=
  forall self,
    count self = 0 ->
    (exists e, fst (m self) = Py.Raised e) /\ 0 <= count (snd (m self)).

End Contract.

(* ================================================================= *)
(** ** A block that leaves no trace *)

Module Blocks.

(** A [with] block, entered by [enter], gives the lock back as it found
    it: whenever the acquire returns and the critical section comes
    back, by return or by exception, without having touched the lock,
    the block ends with the outcome of the section and the state the
    lock had before the block. *)
Definition gives_back {S} (block : forall R, Py.M S R -> Py.M S R)
    (enter : Py.M S unit) : Prop :=
  forall R (body : Py.M S R) self s1 r,
    enter self = (Py.Returned tt, s1) ->
    body s1 = (r, s1) -> r <> Py.Hangs ->
    block R body self = (r, self).

End Blocks.

(* ================================================================= *)
(** ** Histories of a run *)

Module Histories.

Import Threads.

Section System.

Context {St Cv : Type} `{EqDecision Cv} (L : MonitorRWLock St Cv).

(** The configurations a schedule passes through, one after each step,
    as far as the schedule can be followed. *)
Fixpoint trail (sched : list (nat * nat)) (c : config) : list config :=
  match sched with
  | [] => []
  | (i, pick) :: sched =>
      match step L i pick c with
      | Some (_, c') => c' :: trail sched c'
      | None => []
      end
  end.

(** Which thread did what, step by step. *)
Fixpoint events (sched : list (nat * nat)) (c : config)
  : list (nat * event) :=
  match sched with
  | [] => []
  | (i, pick) :: sched =>
      match step L i pick c with
      | Some (ev, c') => (i, ev) :: events sched c'
      | None => []
      end
  end.

End System.

(** How often a thing happened. *)
Fixpoint occurrences (ev : event) (evs : list (nat * event)) : nat :=
  match evs with
  | [] => 0
  | (_, ev') :: evs =>
      ((if bool_decide (ev' = ev) then 1 else 0) + occurrences ev evs)%nat
  end.

(** The same schedule [n] times over. *)
Fixpoint rounds {T} (n : nat) (round : list T) : list T :=
  match n with
  | O => []
  | S n => round ++ rounds n round
  end.

End Histories.

Module ReaderPriorityHistories.

Import ReaderPriorityThreads.

Fixpoint trail (sched : list nat) (c : config) : list config :=
  match sched with
  | [] => []
  | i :: sched =>
      match step i c with
      | Some (_, c') => c' :: trail sched c'
      | None => []
      end
  end.

Fixpoint events (sched : list nat) (c : config) : list (nat * event) :=
  match sched with
  | [] => []
  | i :: sched =>
      match step i c with
      | Some (ev, c') => (i, ev) :: events sched c'
      | None => []
      end
  end.

Definition is_released (k : Threads.kind) (ev : event) : bool :=
  match ev with
  | Released k' => bool_decide (k' = k)
  | _ => false
  end.

Fixpoint releases (k : Threads.kind) (evs : list (nat * event)) : nat :=
  match evs with
  | [] => 0
  | (_, ev) :: evs =>
      ((if is_released k ev then 1 else 0) + releases k evs)%nat
  end.

Definition finished (th : thread) : bool :=
  match th_pc th, th_todo th with
  | Running, [] => true
  | _, _ => false
  end.

(** A bound on the steps a pool can still take: two for each call that
    is left, one more for a reader that has to wake up at the writer
    lock. *)
Definition thread_weight (th : thread) : nat :=
  ((if parked th then 1 else 0) + 2 * length (th_todo th))%nat.

Fixpoint pool_weight (p : list thread) : nat :=
  match p with
  | [] => 0
  | th :: p => (thread_weight th + pool_weight p)%nat
  end.

End ReaderPriorityHistories.

(* ================================================================= *)
(** ** More invariants *)

Module Streams.

Import Threads Histories.


(** A writer and two readers with [n] and [n + 1] blocks to go. *)
Definition readers_stream (n : nat) : list (list op) :=
  [blocks [Wr]; blocks (List.repeat Rd (S n)); blocks (List.repeat Rd n)].



(** WriterPriorityRWLock: a reader and two writers with [n] and [n + 1]
    blocks to go. *)
Definition writers_stream (n : nat) : list (list op) :=
  [blocks [Rd]; blocks (List.repeat Wr (S n)); blocks (List.repeat Wr n)].

(** Thread 2 arrives and sleeps, thread 1 leaves and wakes it, thread 2
    enters; then the same with the parts swapped. *)
Definition handover : list (nat * nat) :=
  [(2, 0); (1, 2); (2, 0); (1, 0); (2, 1); (1, 0)]%nat.

Definition wp_reader_asleep (n : nat)
  : config (St := WriterPriorityRWLock.state) :=
  {| lock := {| WriterPriorityRWLock._reader_count := 0;
                WriterPriorityRWLock._writer_active := true;
                WriterPriorityRWLock._writer_waiting_count := 0 |};
     pool := [ {| th_pc := Waiting Rd; th_todo := [Release Rd] |};
               {| th_pc := Running;
                  th_todo := Release Wr :: blocks (List.repeat Wr n) |};
               {| th_pc := Running;
                  th_todo := blocks (List.repeat Wr n) |} ] |}.

Definition py_reader_asleep (n : nat)
  : config (St := lock_py.WriterPriorityRWLock.state) :=
  {| lock := {| lock_py.WriterPriorityRWLock._reader_count := 0;
                lock_py.WriterPriorityRWLock._writer_active := true;
                lock_py.WriterPriorityRWLock._writer_waiting_count := 0 |};
     pool := [ {| th_pc := Waiting Rd; th_todo := [Release Rd] |};
               {| th_pc := Running;
                  th_todo := Release Wr :: blocks (List.repeat Wr n) |};
               {| th_pc := Running;
                  th_todo := blocks (List.repeat Wr n) |} ] |}.

Definition reader_sleeps {St} (c : config (St := St)) : Prop :=
  pool c !! 0%nat = Some {| th_pc := Waiting Rd; th_todo := [Release Rd] |}.

(** ReaderPriorityRWLock: the first reader is inside, the writer has not
    got in. *)
Definition rp_overlap : list nat := [2; 1; 1; 2]%nat.

Definition rp_writer_outside (n : nat) : ReaderPriorityThreads.config :=
  {| ReaderPriorityThreads.lock :=
       {| ReaderPriorityRWLock._monitor := false;
          ReaderPriorityRWLock._reader_count := 1;
          ReaderPriorityRWLock._writer_lock := true |};
     ReaderPriorityThreads.pool :=
       [ {| ReaderPriorityThreads.th_pc := ReaderPriorityThreads.Running;
            ReaderPriorityThreads.th_todo := blocks [Wr] |};
         {| ReaderPriorityThreads.th_pc := ReaderPriorityThreads.Running;
            ReaderPriorityThreads.th_todo :=
              Release Rd :: blocks (List.repeat Rd n) |};
         {| ReaderPriorityThreads.th_pc := ReaderPriorityThreads.Running;
            ReaderPriorityThreads.th_todo := blocks (List.repeat Rd n) |} ] |}.

(** The writer, thread 0, has made no call yet and cannot make one. *)
Definition writer_shut_out (c : ReaderPriorityThreads.config) : Prop :=
  ReaderPriorityThreads.pool c !! 0%nat =
    Some {| ReaderPriorityThreads.th_pc := ReaderPriorityThreads.Running;
            ReaderPriorityThreads.th_todo := blocks [Wr] |} /\
  ReaderPriorityThreads.step 0 c = None.

(** [n] threads that each want to read once, entering one after the
    other in the order of their numbers. *)
Definition reader_crowd (n : nat) : list (list op) :=
  List.repeat (blocks [Rd]) n.

Definition one_by_one (first n : nat) : list (nat * nat) :=
  map (fun i => (i, 0%nat)) (seq first n).

Definition inside_read : thread :=
  {| th_pc := Running; th_todo := [Release Rd] |}.

Definition waiting_to_read : thread :=
  {| th_pc := Running; th_todo := blocks [Rd] |}.

Definition rp_waiting_to_read : ReaderPriorityThreads.thread :=
  {| ReaderPriorityThreads.th_pc := ReaderPriorityThreads.Running;
     ReaderPriorityThreads.th_todo := blocks [Rd] |}.

Definition rp_inside_read : ReaderPriorityThreads.thread :=
  {| ReaderPriorityThreads.th_pc := ReaderPriorityThreads.Running;
     ReaderPriorityThreads.th_todo := [Release Rd] |}.

End Streams.

Module WriterPriorityExact.

Import Threads.
Import WriterPriorityRWLock.

(** The thread has been notified and has not yet tested its loop. *)
Definition woken (k : kind) (th : thread) : bool :=
  match th_pc th with
  | Woken k' => bool_decide (k' = k)
  | _ => false
  end.

(** Every attribute says what the threads are doing, a reader sleeps
    only while a writer is inside or on its way in, and a writer sleeps
    only while somebody is inside or a notified writer is about to go
    in. *)
Record exact (c : config (St := state)) : Prop := Exact {
  exact_brackets : Forall bracketed (pool c);
  exact_readers : _reader_count (lock c) = tally (holds Rd) (pool c);
  exact_writer : flag (_writer_active (lock c)) = tally (holds Wr) (pool c);
  exact_waiting :
    _writer_waiting_count (lock c) = tally (pending Wr) (pool c);
  exact_sleeping_readers :
    forall j todo,
      pool c !! j = Some {| th_pc := Waiting Rd; th_todo := todo |} ->
      _writer_active (lock c) = true \/
      0 < _writer_waiting_count (lock c);
  exact_sleeping_writers :
    forall j todo,
      pool c !! j = Some {| th_pc := Waiting Wr; th_todo := todo |} ->
      0 < _reader_count (lock c) \/ _writer_active (lock c) = true \/
      0 < tally (woken Wr) (pool c)
}.

End WriterPriorityExact.

Module ReaderPriorityExact.

Import ReaderPriorityRWLock ReaderPriorityThreads.

(** While a reader sleeps at the writer lock no reader is inside. *)
Definition exact (c : config) : Prop :=
  ReaderPriorityInvariant.counted c /\
  (0 < Threads.tally parked (pool c) ->
   Threads.tally (holds Threads.Rd) (pool c) = 0).

End ReaderPriorityExact.

(* ================================================================= *)
(** * Facts about the thread system, for any monitor based lock *)

Module ThreadFacts.

Import Threads.

Lemma tally_nonneg {T} (f : T -> bool) p : 0 <= tally f p.
Proof. induction p as [|th p IH]; simpl; [lia|]. destruct (f th); lia. Qed.

Lemma tally_insert {T} (f : T -> bool) (p : list T) i th th' :
  p !! i = Some th ->
  tally f (<[i := th']> p) =
  tally f p - (if f th then 1 else 0) + (if f th' then 1 else 0).
Proof.
  revert i. induction p as [|x p IH]; intros [|i] Hi; simpl in *; try discriminate.
  - injection Hi as ->. lia.
  - rewrite (IH _ Hi). lia.
Qed.

Lemma tally_map {T} (f : T -> bool) g (p : list T) :
  (forall th, f (g th) = f th) -> tally f (map g p) = tally f p.
Proof.
  intros Hfg. induction p as [|x p IH]; simpl; [reflexivity|].
  now rewrite Hfg, IH.
Qed.

Lemma tally_pos_witness {T} (f : T -> bool) (p : list T) :
  0 < tally f p -> exists i th, p !! i = Some th /\ f th = true.
Proof.
  induction p as [|x p IH]; simpl; [lia|].
  destruct (f x) eqn:Hx.
  - intros _. exists 0%nat, x. auto.
  - intros Hp. destruct IH as (i & th & Hi & Hth); [lia|].
    exists (S i), th. auto.
Qed.

Lemma tally_zero_none {T} (f : T -> bool) (p : list T) i th :
  tally f p <= 0 -> p !! i = Some th -> f th = false.
Proof.
  revert i. induction p as [|x p IH]; intros [|i] Hz Hi; simpl in *;
    try discriminate.
  - injection Hi as ->. pose proof (tally_nonneg f p).
    destruct (f th); [lia|reflexivity].
  - pose proof (tally_nonneg f p). apply (IH i); [|assumption].
    destruct (f x); lia.
Qed.

Lemma tally_member {T} (f : T -> bool) (p : list T) j th :
  p !! j = Some th -> f th = true -> 1 <= tally f p.
Proof.
  intros Hj Hth.
  destruct (Z_lt_le_dec 0 (tally f p)) as [|Hle]; [lia|].
  rewrite (tally_zero_none _ _ _ _ Hle Hj) in Hth. discriminate.
Qed.

Section Facts.

Context {St Cv : Type} `{EqDecision Cv} (L : MonitorRWLock St Cv).

Lemma step_transition i pick c ev c' :
  step L i pick c = Some (ev, c') <-> transition L i pick c ev c'.
Proof.
  unfold step, test_loop. split.
  - destruct (pool c !! i) as [[p todo]|] eqn:Hi; [|discriminate]. simpl.
    destruct p as [|k|k].
    + destruct todo as [|[k|k] rest]; [discriminate| |].
      * destruct (waits _ _) eqn:Hw; intros [= <- <-];
          [eapply fall_asleep|eapply enter_at_once]; eassumption.
      * destruct (release_of L k (lock c)) as [s w] eqn:Hr.
        destruct (deliver _ _ _ _) as [q|] eqn:Hd; [|discriminate].
        intros [= <- <-]. eapply leave; eassumption.
    + discriminate.
    + destruct (waits _ _) eqn:Hw; intros [= <- <-];
        [eapply sleep_again|eapply enter_after_wait]; eassumption.
  - intros [k rest Hi Hw|k rest Hi Hw|k rest Hi Hw|k rest Hi Hw
           |k rest s w p Hi Hr Hd]; rewrite Hi; simpl;
      rewrite ?Hw, ?Hr, ?Hd; reflexivity.
Qed.

Lemma tally_notify_all f c p :
  wake_blind f -> tally f (notify_all L c p) = tally f p.
Proof.
  intros Hf. unfold notify_all. apply tally_map.
  intros th. destruct (waits_on L c th); [apply Hf|reflexivity].
Qed.

Lemma tally_notify f c pick p q :
  wake_blind f -> notify L c pick p = Some q -> tally f q = tally f p.
Proof.
  intros Hf. unfold notify.
  destruct (existsb _ _); [|now intros [= <-]].
  destruct (p !! pick) as [th|] eqn:Hp; [|discriminate].
  destruct (waits_on L c th); [|discriminate].
  intros [= <-]. rewrite (tally_insert _ _ _ _ _ Hp), Hf.
  destruct (f th); lia.
Qed.

Lemma tally_deliver f w pick p q :
  wake_blind f -> deliver L w pick p = Some q -> tally f q = tally f p.
Proof.
  intros Hf. destruct w as [|c|c]; simpl.
  - now intros [= <-].
  - now apply tally_notify.
  - intros [= <-]. now apply tally_notify_all.
Qed.

Lemma holds_wake_blind k : wake_blind (holds k).
Proof. intros [[|k'|k'] todo]; reflexivity. Qed.

Lemma pending_wake_blind k : wake_blind (pending k).
Proof. intros [[|k'|k'] todo]; reflexivity. Qed.

(** An invariant of the steps holds wherever a schedule leads. *)
Lemma run_invariant (P : config -> Prop) :
  (forall i pick c ev c', P c -> transition L i pick c ev c' -> P c') ->
  forall sched c c', P c -> run L sched c = Some c' -> P c'.
Proof.
  intros Hstep. induction sched as [|[i pick] sched IH]; simpl; intros c c' Hc.
  - now intros [= <-].
  - destruct (step L i pick c) as [[ev c1]|] eqn:Hs; [|discriminate].
    apply IH. eapply Hstep; [exact Hc|]. apply step_transition, Hs.
Qed.

Lemma reachable_invariant (P : config -> Prop) progs :
  P (start L progs) ->
  (forall i pick c ev c', P c -> transition L i pick c ev c' -> P c') ->
  forall c, reachable L progs c -> P c.
Proof.
  intros H0 Hstep c [sched Hrun]. eapply run_invariant; eassumption.
Qed.

End Facts.

End ThreadFacts.

(* ================================================================= *)
(** * Tactics shared by the proofs below *)

(** Turn boolean tests of the source into propositions. *)
Ltac tests :=
  repeat match goal with
  | H : _ || _ = false |- _ => apply orb_false_elim in H; destruct H
  | H : _ || _ = true |- _ => apply orb_prop in H
  | H : _ && _ = true |- _ => apply andb_prop in H; destruct H
  | H : _ && _ = false |- _ => apply andb_false_iff in H
  | H : (_ <? _) = true |- _ => apply Z.ltb_lt in H
  | H : (_ <? _) = false |- _ => apply Z.ltb_ge in H
  | H : (_ =? _) = true |- _ => apply Z.eqb_eq in H
  | H : (_ =? _) = false |- _ => apply Z.eqb_neq in H
  end.

(** Split a release into the branches of its [if]. *)
Ltac branches H :=
  match type of H with
  | (if ?b then _ else _) = _ =>
      let Hb := fresh "Hb" in
      destruct b eqn:Hb; injection H as <- <-
  end.

(* ================================================================= *)
(** * Reader and writer never overlap *)

Module Exclusion.

Import Threads ThreadFacts Exclusive.

Lemma wp_safe_step i pick c ev c' :
  wp_safe c -> transition WriterPriorityRWLock.monitor i pick c ev c' ->
  wp_safe c'.
Proof.
  unfold wp_safe.
  intros Hc [k rest Hi Hw|k rest Hi Hw|k rest Hi Hw|k rest Hi Hw
            |k rest s w p Hi Hr Hd]; destruct k; simpl in *;
    unfold WriterPriorityRWLock._read_release,
      WriterPriorityRWLock._write_release in *; simpl in *;
    try branches Hr; simpl; tests; intros; try congruence; try lia.
  all: try (specialize (Hc ltac:(assumption)); lia).
Qed.

Lemma fair_safe_step i pick c ev c' :
  fair_safe c -> transition FairRWLock.monitor i pick c ev c' ->
  fair_safe c'.
Proof.
  unfold fair_safe.
  intros Hc [k rest Hi Hw|k rest Hi Hw|k rest Hi Hw|k rest Hi Hw
            |k rest s w p Hi Hr Hd]; destruct k; simpl in *;
    unfold FairRWLock._read_release, FairRWLock._write_release in *;
    simpl in *;
    try branches Hr; simpl; tests; intros; try congruence; try lia.
  all: try (specialize (Hc ltac:(assumption)); lia).
Qed.

(** C1. In every configuration that threads calling a
    [WriterPriorityRWLock] or a [FairRWLock] can reach from a fresh lock,
    whatever calls they make and however they are scheduled,
    [_writer_active] is never true while the reader counter is positive. *)
Theorem C1_writer_excludes_readers :
  (forall progs c,
     reachable WriterPriorityRWLock.monitor progs c ->
     ~ (WriterPriorityRWLock._writer_active (lock c) = true /\
        0 < WriterPriorityRWLock._reader_count (lock c))) /\
  (forall progs c,
     reachable FairRWLock.monitor progs c ->
     ~ (FairRWLock._writer_active (lock c) = true /\
        0 < FairRWLock._readers_active (lock c))).
Proof.
  split; intros progs c Hc [Ha Hr].
  - assert (wp_safe c) as Hs.
    { clear Ha Hr. revert c Hc. apply reachable_invariant.
      - intros H. discriminate H.
      - apply wp_safe_step. }
    specialize (Hs Ha). lia.
  - assert (fair_safe c) as Hs.
    { clear Ha Hr. revert c Hc. apply reachable_invariant.
      - intros H. discriminate H.
      - apply fair_safe_step. }
    specialize (Hs Ha). lia.
Qed.

(** A writer inside its section while a reader sleeps in [acquire]. *)
Lemma C1_witness :
  let progs := [[Acquire Wr; Release Wr]; [Acquire Rd; Release Rd]] in
  let c :=
    {| lock := {| WriterPriorityRWLock._reader_count := 0;
                  WriterPriorityRWLock._writer_active := true;
                  WriterPriorityRWLock._writer_waiting_count := 0 |};
       pool := [ {| th_pc := Running; th_todo := [Release Wr] |};
                 {| th_pc := Waiting Rd; th_todo := [Release Rd] |} ] |} in
  reachable WriterPriorityRWLock.monitor progs c /\
  ~ (WriterPriorityRWLock._writer_active (lock c) = true /\
     0 < WriterPriorityRWLock._reader_count (lock c)).
Proof.
  intros progs c.
  assert (reachable WriterPriorityRWLock.monitor progs c) as Hc.
  { exists [(0, 0); (1, 0)]%nat. reflexivity. }
  split; [exact Hc|].
  exact (proj1 C1_writer_excludes_readers progs c Hc).
Defined.

End Exclusion.

(* ================================================================= *)
(** * Threads that use the lock through [with] blocks only *)

Module Brackets.

Import Threads ThreadFacts.

Lemma bracketed_acquire k rest :
  bracketed {| th_pc := Running; th_todo := Acquire k :: rest |} ->
  exists ks, rest = Release k :: blocks ks.
Proof.
  intros [[[|k' ks] Hks]|(k' & ks & Hks)]; simpl in Hks; try discriminate.
  injection Hks as -> ->. now exists ks.
Qed.

Lemma bracketed_release k rest :
  bracketed {| th_pc := Running; th_todo := Release k :: rest |} ->
  exists ks, rest = blocks ks.
Proof.
  intros [[[|k' ks] Hks]|(k' & ks & Hks)]; simpl in Hks; try discriminate.
  injection Hks as -> ->. now exists ks.
Qed.

Lemma holds_blocks k ks :
  holds k {| th_pc := Running; th_todo := blocks ks |} = false.
Proof. destruct ks; reflexivity. Qed.

Lemma no_thread_pending k progs :
  tally (pending k)
    (map (fun todo => {| th_pc := Running; th_todo := todo |}) progs) = 0.
Proof. induction progs as [|todo progs IH]; simpl; [reflexivity|exact IH]. Qed.

Lemma no_thread_holds k kss :
  tally (holds k)
    (map (fun todo => {| th_pc := Running; th_todo := todo |})
         (map blocks kss)) = 0.
Proof.
  induction kss as [|ks kss IH]; simpl; [reflexivity|].
  rewrite IH. change (holds k _) with
    (holds k {| th_pc := Running; th_todo := blocks ks |}).
  now rewrite holds_blocks.
Qed.

(** Follow a counter through a step of thread [i]. *)
Ltac recount Hi :=
  repeat match goal with
  | Hd : deliver _ _ _ _ = Some ?p |- context [tally (pending ?k) ?p] =>
      rewrite (tally_deliver _ (pending k) _ _ _ _ (pending_wake_blind k) Hd)
  | Hd : deliver _ _ _ _ = Some ?p |- context [tally (holds ?k) ?p] =>
      rewrite (tally_deliver _ (holds k) _ _ _ _ (holds_wake_blind k) Hd)
  end;
  rewrite ?(tally_insert _ _ _ _ _ Hi); simpl.

(** The shape of the thread that steps, for bracketed threads. *)
Ltac shape Hth :=
  first
    [ apply bracketed_acquire in Hth; destruct Hth as [? ->]
    | apply bracketed_release in Hth; destruct Hth as [? ->]
    | let Hks := fresh "Hks" in
      destruct Hth as [? Hks]; simpl in Hks; subst ].

Lemma bracketed_wake_up th : bracketed th -> bracketed (wake_up th).
Proof. destruct th as [[|k|k] todo]; simpl; auto. Qed.

Section Facts.

Context {St Cv : Type} `{EqDecision Cv} (L : MonitorRWLock St Cv).

Lemma bracketed_deliver w pick p q :
  Forall bracketed p -> deliver L w pick p = Some q -> Forall bracketed q.
Proof.
  intros Hp. destruct w as [|c|c]; simpl.
  - now intros [= <-].
  - unfold notify. destruct (existsb _ _); [|now intros [= <-]].
    destruct (p !! pick) as [th|] eqn:Hpick; [|discriminate].
    destruct (waits_on L c th); [|discriminate]. intros [= <-].
    apply Forall_insert; [assumption|].
    apply bracketed_wake_up. eapply Forall_lookup_1; eassumption.
  - intros [= <-]. unfold notify_all. apply List.Forall_map.
    eapply Forall_impl; [exact Hp|]. intros th Hth. simpl.
    destruct (waits_on L c th); [now apply bracketed_wake_up|assumption].
Qed.

Lemma bracketed_step i pick c ev c' :
  Forall bracketed (pool c) -> transition L i pick c ev c' ->
  Forall bracketed (pool c').
Proof.
  intros Hc [k rest Hi Hw|k rest Hi Hw|k rest Hi Hw|k rest Hi Hw
            |k rest s w p Hi Hr Hd]; simpl;
    pose proof (Forall_lookup_1 _ _ _ _ Hc Hi) as Hth.
  - apply Forall_insert; [assumption|].
    destruct (bracketed_acquire _ _ Hth) as [ks ->]. right. eauto.
  - apply Forall_insert; [assumption|].
    destruct (bracketed_acquire _ _ Hth) as [ks ->]. red; simpl. eauto.
  - apply Forall_insert; [assumption|]. right. destruct Hth as [ks Hks].
    simpl in *. eauto.
  - apply Forall_insert; [assumption|]. exact Hth.
  - eapply bracketed_deliver; [|exact Hd].
    apply Forall_insert; [assumption|].
    destruct (bracketed_release _ _ Hth) as [ks ->]. left. eauto.
Qed.

Lemma bracketed_start kss :
  Forall bracketed (pool (start L (map blocks kss))).
Proof.
  simpl. induction kss as [|ks kss IH]; simpl; constructor; [|exact IH].
  left. now exists ks.
Qed.

End Facts.

End Brackets.

(* ================================================================= *)
(** * The counters of WriterPriorityRWLock count threads *)

Module WriterPriorityFacts.

Import Threads ThreadFacts Brackets.
Import WriterPriorityRWLock WriterPriorityInvariant.

Ltac counted_step :=
  intros Hc [k rest Hi Hw|k rest Hi Hw|k rest Hi Hw|k rest Hi Hw
            |k rest s w p Hi Hr Hd]; destruct k; simpl in *;
    cbv [_read_release _write_release
         lock_py.WriterPriorityRWLock._read_release
         lock_py.WriterPriorityRWLock._write_release] in *; simpl in *;
    try branches Hr; recount Hi; lia.

Lemma writers_counted_step i pick c ev c' :
  writers_counted c -> transition monitor i pick c ev c' ->
  writers_counted c'.
Proof. unfold writers_counted. counted_step. Qed.

Lemma writers_counted_py_step i pick c ev c' :
  writers_counted_py c ->
  transition lock_py.WriterPriorityRWLock.monitor i pick c ev c' ->
  writers_counted_py c'.
Proof. unfold writers_counted_py. counted_step. Qed.

Lemma writers_counted_reachable progs c :
  reachable monitor progs c -> writers_counted c.
Proof.
  revert c. apply reachable_invariant; [|apply writers_counted_step].
  unfold writers_counted. simpl. now rewrite no_thread_pending.
Qed.

Lemma writers_counted_py_reachable progs c :
  reachable lock_py.WriterPriorityRWLock.monitor progs c ->
  writers_counted_py c.
Proof.
  revert c. apply reachable_invariant; [|apply writers_counted_py_step].
  unfold writers_counted_py. simpl. now rewrite no_thread_pending.
Qed.

Lemma readers_counted_step i pick c ev c' :
  readers_counted c -> transition monitor i pick c ev c' ->
  readers_counted c'.
Proof.
  intros [Hb Hc] Ht. split; [eapply bracketed_step; eassumption|].
  destruct Ht as [k rest Hi Hw|k rest Hi Hw|k rest Hi Hw|k rest Hi Hw
                 |k rest s w p Hi Hr Hd];
    pose proof (Forall_lookup_1 _ _ _ _ Hb Hi) as Hth; shape Hth;
    destruct k; simpl in *;
    cbv [_read_release _write_release] in *; simpl in *;
    try branches Hr; recount Hi; rewrite ?holds_blocks; lia.
Qed.

Lemma readers_counted_reachable kss c :
  reachable monitor (map blocks kss) c -> readers_counted c.
Proof.
  revert c. apply reachable_invariant; [|apply readers_counted_step].
  split; [apply bracketed_start|]. simpl. now rewrite no_thread_holds.
Qed.

(** C4. A [_read_acquire] of [WriterPriorityRWLock] (both in
    [rw_lock/locks.py] and in [rw_lock/lock.py]) never returns from a
    state where [_writer_active] is set or [_writer_waiting_count] is
    positive; and in a reachable configuration, as long as some thread
    has incremented [_writer_waiting_count] in [_write_acquire] and has
    not yet left that method, no step of any thread is a completed read
    acquire. *)
Theorem C4_waiting_writer_blocks_readers :
  (forall c i pick c',
     step monitor i pick c = Some (Acquired Rd, c') ->
     _writer_active (lock c) = false /\
     _writer_waiting_count (lock c) <= 0) /\
  (forall progs c j th i pick ev c',
     reachable monitor progs c ->
     pool c !! j = Some th -> pending Wr th = true ->
     step monitor i pick c = Some (ev, c') ->
     0 < _writer_waiting_count (lock c) /\ ev <> Acquired Rd) /\
  (forall progs c j th i pick ev c',
     reachable lock_py.WriterPriorityRWLock.monitor progs c ->
     pool c !! j = Some th -> pending Wr th = true ->
     step lock_py.WriterPriorityRWLock.monitor i pick c = Some (ev, c') ->
     0 < lock_py.WriterPriorityRWLock._writer_waiting_count (lock c) /\
     ev <> Acquired Rd).
Proof.
  split; [|split].
  - intros c i pick c' Hs. apply step_transition in Hs.
    inversion Hs; subst; simpl in *; tests; split; assumption.
  - intros progs c j th i pick ev c' Hc Hj Hth Hs.
    pose proof (writers_counted_reachable _ _ Hc) as Hn. red in Hn.
    assert (0 < _writer_waiting_count (lock c)) as Hpos.
    { destruct (Z_lt_le_dec 0 (_writer_waiting_count (lock c))) as [|Hle];
        [assumption|].
      rewrite Hn in Hle. rewrite (tally_zero_none _ _ _ _ Hle Hj) in Hth.
      discriminate. }
    split; [exact Hpos|]. intros ->. apply step_transition in Hs.
    inversion Hs; subst; simpl in *; tests; lia.
  - intros progs c j th i pick ev c' Hc Hj Hth Hs.
    pose proof (writers_counted_py_reachable _ _ Hc) as Hn. red in Hn.
    assert (0 < lock_py.WriterPriorityRWLock._writer_waiting_count (lock c))
      as Hpos.
    { destruct (Z_lt_le_dec 0
                  (lock_py.WriterPriorityRWLock._writer_waiting_count (lock c)))
        as [|Hle]; [assumption|].
      rewrite Hn in Hle. rewrite (tally_zero_none _ _ _ _ Hle Hj) in Hth.
      discriminate. }
    split; [exact Hpos|]. intros ->. apply step_transition in Hs.
    inversion Hs; subst; simpl in *; tests; lia.
Qed.

(** A reader holds the lock, a writer sleeps in [_write_acquire], and a
    second reader that calls [_read_acquire] is put to sleep. *)
Lemma C4_witness :
  let progs := [blocks [Rd]; blocks [Wr]; blocks [Rd]] in
  let s := {| _reader_count := 1;
              _writer_active := false;
              _writer_waiting_count := 1 |} in
  let th := {| th_pc := Waiting Wr; th_todo := [Release Wr] |} in
  let c :=
    {| lock := s;
       pool := [ {| th_pc := Running; th_todo := [Release Rd] |}; th;
                 {| th_pc := Running; th_todo := blocks [Rd] |} ] |} in
  let c' :=
    {| lock := s;
       pool := [ {| th_pc := Running; th_todo := [Release Rd] |}; th;
                 {| th_pc := Waiting Rd; th_todo := [Release Rd] |} ] |} in
  reachable monitor progs c /\
  pool c !! 1%nat = Some th /\
  pending Wr th = true /\
  step monitor 2 0 c = Some (Blocked Rd, c') /\
  0 < _writer_waiting_count (lock c) /\
  Blocked Rd <> Acquired Rd.
Proof.
  intros progs s th c c'.
  assert (reachable monitor progs c) as Hc.
  { exists [(0, 0); (1, 0)]%nat. reflexivity. }
  assert (pool c !! 1%nat = Some th) as Hj by reflexivity.
  assert (pending Wr th = true) as Hth by reflexivity.
  assert (step monitor 2 0 c = Some (Blocked Rd, c')) as Hs by reflexivity.
  repeat (split; [assumption|]).
  exact (proj1 (proj2 C4_waiting_writer_blocks_readers)
           progs c 1%nat th 2%nat 0%nat (Blocked Rd) c' Hc Hj Hth Hs).
Defined.

End WriterPriorityFacts.

(* ================================================================= *)
(** * The counters of FairRWLock count threads *)

Module FairFacts.

Import Threads ThreadFacts Brackets.
Import FairRWLock FairInvariant.

Lemma lookup_map {A B} (f : A -> B) (l : list A) (i : nat) :
  map f l !! i = option_map f (l !! i).
Proof.
  revert i. induction l as [|x l IH]; intros [|i]; simpl; auto.
Qed.

(** After [_queue.notify_all()] nobody sleeps. *)
Lemma notify_all_awake p j k todo :
  notify_all monitor _queue p !! j <>
  Some {| th_pc := Waiting k; th_todo := todo |}.
Proof.
  unfold notify_all. rewrite lookup_map.
  destruct (p !! j) as [[[|k'|k'] todo']|]; simpl; try discriminate.
  destruct k'; simpl; discriminate.
Qed.

Lemma sleeper_counted (p : list thread) j k todo :
  p !! j = Some {| th_pc := Waiting k; th_todo := todo |} ->
  1 <= tally (pending Rd) p + tally (pending Wr) p.
Proof.
  intros Hj. pose proof (tally_nonneg (pending Rd) p).
  pose proof (tally_nonneg (pending Wr) p).
  destruct k.
  - pose proof (tally_member (pending Rd) _ _ _ Hj eq_refl). lia.
  - pose proof (tally_member (pending Wr) _ _ _ Hj eq_refl). lia.
Qed.

Lemma counts_step i pick c ev c' :
  counted c -> transition monitor i pick c ev c' ->
  _readers_active (lock c') = tally (holds Rd) (pool c') /\
  flag (_writer_active (lock c')) = tally (holds Wr) (pool c') /\
  _waiting_count (lock c') =
    tally (pending Rd) (pool c') + tally (pending Wr) (pool c').
Proof.
  intros [Hb Hr Hw Hn _] Ht.
  pose proof (tally_nonneg (holds Wr) (pool c')) as Hpos.
  revert Hpos.
  destruct Ht as [k rest Hi Hg|k rest Hi Hg|k rest Hi Hg|k rest Hi Hg
                 |k rest s w p Hi Hrel Hd];
    pose proof (Forall_lookup_1 _ _ _ _ Hb Hi) as Hth; shape Hth;
    destruct k; simpl in *;
    cbv [_read_release _write_release] in *; simpl in *;
    try branches Hrel; simpl; recount Hi; rewrite ?holds_blocks;
    tests; unfold flag in *;
    repeat match goal with
    | H : _writer_active _ = _ |- _ => rewrite H in *
    end;
    try destruct (_writer_active (lock c)); lia.
Qed.

Lemma lookup_insert_cases (p : list thread) i j th x y :
  p !! i = Some x -> <[i := y]> p !! j = Some th ->
  (j = i /\ th = y) \/ (j <> i /\ p !! j = Some th).
Proof.
  intros Hi Hj. destruct (decide (j = i)) as [->|Hne].
  - left. split; [reflexivity|].
    rewrite list_lookup_insert_eq in Hj by (eapply lookup_lt_Some; eassumption).
    congruence.
  - right. split; [assumption|].
    now rewrite list_lookup_insert_ne in Hj by congruence.
Qed.

Ltac loop_test :=
  simpl in *; tests;
  repeat match goal with
  | H : _writer_active _ = _ |- _ => rewrite H in *; simpl in *
  | H : _ \/ _ |- _ => destruct H
  end;
  tests; rewrite ?orb_true_r; try reflexivity; try discriminate;
  try (apply orb_true_intro; left); try (apply Z.ltb_lt); try lia.

Lemma sleepers_step i pick c ev c' :
  counted c -> transition monitor i pick c ev c' ->
  forall j k todo,
    pool c' !! j = Some {| th_pc := Waiting k; th_todo := todo |} ->
    waits (acquire_of monitor k) (lock c') = true.
Proof.
  intros [Hb Hr Hw Hn Hsl] Ht j k0 todo Hj.
  destruct Ht as [k rest Hi Hg|k rest Hi Hg|k rest Hi Hg|k rest Hi Hg
                 |k rest s w p Hi Hrel Hd]; simpl in *.
  - destruct (lookup_insert_cases _ _ _ _ _ _ Hi Hj) as [[_ [=]]|[_ Hj']].
    specialize (Hsl _ _ _ Hj'). destruct k, k0; loop_test.
  - destruct (lookup_insert_cases _ _ _ _ _ _ Hi Hj) as [[_ [= -> _]]|[_ Hj']].
    + exact Hg.
    + specialize (Hsl _ _ _ Hj'). destruct k, k0; loop_test.
  - destruct (lookup_insert_cases _ _ _ _ _ _ Hi Hj) as [[_ [=]]|[_ Hj']].
    specialize (Hsl _ _ _ Hj'). destruct k, k0; loop_test.
  - destruct (lookup_insert_cases _ _ _ _ _ _ Hi Hj) as [[_ [= -> _]]|[_ Hj']].
    + exact Hg.
    + exact (Hsl _ _ _ Hj').
  - destruct k; simpl in *; cbv [_read_release _write_release] in *;
      simpl in *; branches Hrel; simpl in *;
      injection Hd as <-;
      try (exfalso; exact (notify_all_awake _ _ _ _ Hj));
      destruct (lookup_insert_cases _ _ _ _ _ _ Hi Hj) as [[_ [=]]|[_ Hj']];
      pose proof (sleeper_counted _ _ _ _ Hj') as Hone;
      specialize (Hsl _ _ _ Hj'); destruct k0; loop_test.
Qed.

Lemma counted_step i pick c ev c' :
  counted c -> transition monitor i pick c ev c' -> counted c'.
Proof.
  intros Hc Ht.
  destruct (counts_step _ _ _ _ _ Hc Ht) as (Hr & Hw & Hn).
  constructor; try assumption.
  - eapply bracketed_step; [apply Hc|exact Ht].
  - eapply sleepers_step; eassumption.
Qed.

End FairFacts.

(* ================================================================= *)
(** * Every step uses up potential *)

Module Potential.

Import Threads ThreadFacts.

Local Open Scope nat_scope.

Lemma pool_weight_insert n (p : list thread) i th th' :
  p !! i = Some th ->
  pool_weight n (<[i := th']> p) + thread_weight n th =
  pool_weight n p + thread_weight n th'.
Proof.
  revert i. induction p as [|x p IH]; intros [|i] Hi; simpl in *;
    try discriminate.
  - injection Hi as ->. lia.
  - specialize (IH _ Hi). lia.
Qed.

Lemma thread_weight_wake_up n th :
  thread_weight n (wake_up th) <= thread_weight n th + 1.
Proof. destruct th as [[|k|k] todo]; unfold thread_weight; simpl; lia. Qed.

Section Facts.

Context {St Cv : Type} `{EqDecision Cv} (L : MonitorRWLock St Cv).

Lemma notify_all_length c p : length (notify_all L c p) = length p.
Proof. unfold notify_all. apply List.length_map. Qed.

Lemma notify_all_weight n c p :
  pool_weight n (notify_all L c p) <= pool_weight n p + length p.
Proof.
  induction p as [|th p IH]; simpl; [lia|].
  pose proof (thread_weight_wake_up n th).
  destruct (waits_on L c th); lia.
Qed.

Lemma deliver_length w pick p q :
  deliver L w pick p = Some q -> length q = length p.
Proof.
  destruct w as [|c|c]; simpl.
  - now intros [= <-].
  - unfold notify. destruct (existsb _ _); [|now intros [= <-]].
    destruct (p !! pick) as [th|]; [|discriminate].
    destruct (waits_on L c th); [|discriminate].
    intros [= <-]. apply length_insert.
  - intros [= <-]. apply notify_all_length.
Qed.

Lemma deliver_weight n w pick p q :
  deliver L w pick p = Some q ->
  pool_weight n q <= pool_weight n p + length p.
Proof.
  destruct w as [|c|c]; simpl.
  - intros [= <-]. lia.
  - unfold notify. destruct (existsb _ _); [|intros [= <-]; lia].
    destruct (p !! pick) as [th|] eqn:Hp; [|discriminate].
    destruct (waits_on L c th); [|discriminate].
    intros [= <-]. pose proof (pool_weight_insert n _ _ _ (wake_up th) Hp).
    pose proof (thread_weight_wake_up n th).
    pose proof (lookup_lt_Some _ _ _ Hp). lia.
  - intros [= <-]. apply notify_all_weight.
Qed.

Lemma step_length i pick c ev c' :
  transition L i pick c ev c' -> length (pool c') = length (pool c).
Proof.
  intros [k rest Hi Hw|k rest Hi Hw|k rest Hi Hw|k rest Hi Hw
         |k rest s w p Hi Hr Hd]; simpl; rewrite ?length_insert; try reflexivity.
  rewrite (deliver_length _ _ _ _ Hd). apply length_insert.
Qed.

Lemma step_potential i pick c ev c' :
  transition L i pick c ev c' ->
  S (potential (pool c')) <= potential (pool c).
Proof.
  intros Ht. unfold potential. rewrite (step_length _ _ _ _ _ Ht).
  set (n := length (pool c)).
  destruct Ht as [k rest Hi Hw|k rest Hi Hw|k rest Hi Hw|k rest Hi Hw
                 |k rest s w p Hi Hr Hd]; simpl.
  1-4: match goal with
       | |- context [<[_ := ?th']> _] =>
           pose proof (pool_weight_insert n _ _ _ th' Hi) as Hins
       end; unfold thread_weight in Hins; simpl in Hins; lia.
  pose proof (deliver_weight n _ _ _ _ Hd) as Hq.
  rewrite length_insert in Hq. fold n in Hq.
  pose proof (pool_weight_insert n _ _ _
                {| th_pc := Running; th_todo := rest |} Hi) as Hins.
  unfold thread_weight in Hins; simpl in Hins. lia.
Qed.

(** A schedule is no longer than the potential it uses up. *)
Lemma run_potential sched c c' :
  run L sched c = Some c' ->
  length sched + potential (pool c') <= potential (pool c).
Proof.
  revert c. induction sched as [|[i pick] sched IH]; simpl; intros c.
  - intros [= <-]. lia.
  - destruct (step L i pick c) as [[ev c1]|] eqn:Hs; [|discriminate].
    intros Hrun. specialize (IH _ Hrun).
    apply step_transition in Hs. apply step_potential in Hs. lia.
Qed.

End Facts.

Lemma todo_weight_blocks n ks :
  todo_weight n (blocks ks) = (n + 3) * length ks.
Proof. induction ks as [|k ks IH]; simpl; [lia|]. rewrite IH. lia. Qed.

Lemma pool_weight_blocks n kss :
  pool_weight n
    (map (fun todo => {| th_pc := Running; th_todo := todo |})
         (map blocks kss)) = (n + 3) * length (concat kss).
Proof.
  induction kss as [|ks kss IH]; simpl; [lia|].
  rewrite IH, length_app. unfold thread_weight. simpl.
  rewrite todo_weight_blocks. lia.
Qed.

End Potential.

(* ================================================================= *)
(** * FairRWLock: nobody waits for ever *)

Module FairLiveness.

Import Threads ThreadFacts Brackets FairFacts Potential.
Import FairRWLock FairInvariant.

Lemma counted_reachable kss c :
  reachable monitor (map blocks kss) c -> counted c.
Proof.
  revert c. apply reachable_invariant; [|apply counted_step].
  constructor.
  - apply bracketed_start.
  - simpl. now rewrite no_thread_holds.
  - simpl. now rewrite no_thread_holds.
  - simpl. now rewrite !no_thread_pending.
  - intros j k todo. simpl. rewrite lookup_map.
    destruct (map blocks kss !! j); discriminate.
Qed.

(** A thread inside a section can always leave it: the release of this
    class never asks [notify] to choose a sleeper. *)
Lemma release_enabled i pick c k rest :
  pool c !! i = Some {| th_pc := Running; th_todo := Release k :: rest |} ->
  step monitor i pick c <> None.
Proof.
  intros Hi. unfold step. rewrite Hi. simpl.
  destruct k; simpl; cbv [_read_release _write_release]; simpl;
    match goal with |- context [if ?b then _ else _] => destruct b end;
    discriminate.
Qed.

Lemma holder_shape k th :
  holds k th = true -> exists rest,
    th = {| th_pc := Running; th_todo := Release k :: rest |}.
Proof.
  destruct th as [[|k'|k'] [|[k''|k''] rest]]; simpl; try discriminate.
  intros Hk. apply bool_decide_eq_true in Hk. subst. eauto.
Qed.

Lemma enabled_step i pick c :
  step monitor i pick c <> None ->
  exists i pick ev c', step monitor i pick c = Some (ev, c').
Proof.
  destruct (step monitor i pick c) as [[ev c']|] eqn:Hs; [|congruence].
  intros _. exists i, pick, ev, c'. exact Hs.
Qed.

(** As long as a thread is not through its program, some thread can
    step: a sleeper is only left asleep while a thread holds the lock,
    and that thread can release it. *)
Lemma progress c :
  counted c ->
  forall j th,
    pool c !! j = Some th -> finished th = false ->
    exists i pick ev c', step monitor i pick c = Some (ev, c').
Proof.
  intros Hc j [[|k|k] todo] Hj Hth.
  - destruct todo as [|[k|k] rest]; [discriminate| |].
    + apply (enabled_step j 0%nat). unfold step. rewrite Hj. discriminate.
    + apply (enabled_step j 0%nat). eapply release_enabled, Hj.
  - pose proof (counted_sleepers _ Hc _ _ _ Hj) as Hw.
    assert (0 < tally (holds Rd) (pool c) \/ 0 < tally (holds Wr) (pool c))
      as Hsome.
    { rewrite <- (counted_readers _ Hc), <- (counted_writer _ Hc).
      unfold flag. destruct k; simpl in Hw; tests.
      - rewrite Hw. right. lia.
      - destruct Hw as [Hw|Hw]; tests; [left; lia|rewrite Hw; right; lia]. }
    destruct Hsome as [Hsome|Hsome];
      apply tally_pos_witness in Hsome;
      destruct Hsome as (i & th & Hi & Hholds);
      apply holder_shape in Hholds; destruct Hholds as [rest ->];
      apply (enabled_step i 0%nat); eapply release_enabled, Hi.
  - apply (enabled_step j 0%nat). unfold step. rewrite Hj. discriminate.
Qed.

(** If no thread can step, every thread is through its program. *)
Lemma stuck_finished c :
  counted c -> stuck monitor c ->
  forall j th, pool c !! j = Some th -> finished th = true.
Proof.
  intros Hc Hstuck j th Hj.
  destruct (finished th) eqn:Hth; [reflexivity|].
  destruct (progress c Hc j th Hj Hth) as (i & pick & ev & c' & Hs).
  rewrite (Hstuck i pick) in Hs. discriminate.
Qed.

(** C9. Threads that use a [FairRWLock] through a bounded number of
    [with lock.read()] and [with lock.write()] blocks: every schedule is
    bounded in length by the size of the workload, and the threads can
    only come to a halt when each of them is through its program.  So a
    pending acquire returns after a bounded number of steps of the other
    threads, whatever the order in which sleepers are let through. *)
Theorem C9_fair_no_starvation :
  forall kss sched c,
    run monitor sched (start monitor (map blocks kss)) = Some c ->
    (length sched <= (length kss + 3) * length (concat kss))%nat /\
    (stuck monitor c ->
     forall j th, pool c !! j = Some th -> finished th = true) /\
    (forall j th,
       pool c !! j = Some th -> finished th = false ->
       exists i pick ev c', step monitor i pick c = Some (ev, c')).
Proof.
  intros kss sched c Hrun.
  assert (counted c) as Hc by (apply (counted_reachable kss); now exists sched).
  split; [|split].
  - pose proof (run_potential _ _ _ _ Hrun) as Hp.
    unfold potential in Hp at 2. simpl in Hp.
    rewrite pool_weight_blocks, !List.length_map in Hp. lia.
  - now apply stuck_finished.
  - now apply progress.
Qed.

(** A writer and a reader, after the writer has entered and the reader
    has gone to sleep. *)
Lemma C9_witness :
  let kss := [[Wr]; [Rd]] in
  let sched := [(0, 0); (1, 0)]%nat in
  let c :=
    {| lock := {| _readers_active := 0;
                  _writer_active := true;
                  _waiting_count := 1 |};
       pool := [ {| th_pc := Running; th_todo := [Release Wr] |};
                 {| th_pc := Waiting Rd; th_todo := [Release Rd] |} ] |} in
  run monitor sched (start monitor (map blocks kss)) = Some c /\
  (length sched <= (length kss + 3) * length (concat kss))%nat /\
  (stuck monitor c ->
   forall j th, pool c !! j = Some th -> finished th = true) /\
  (forall j th,
     pool c !! j = Some th -> finished th = false ->
     exists i pick ev c', step monitor i pick c = Some (ev, c')).
Proof.
  intros kss sched c.
  assert (run monitor sched (start monitor (map blocks kss)) = Some c)
    as Hrun by reflexivity.
  split; [exact Hrun|].
  exact (C9_fair_no_starvation kss sched c Hrun).
Defined.

End FairLiveness.

(* ================================================================= *)
(** * The counter of ReaderPriorityRWLock counts threads *)

Module ReaderPriorityFacts.

Import ThreadFacts.
Import ReaderPriorityRWLock ReaderPriorityThreads ReaderPriorityInvariant.

(** The methods, with the [with] blocks and the binds worked out. *)
Lemma _read_acquire_eq self :
  _read_acquire self =
  if _monitor self then (Py.Hangs, self)
  else if _reader_count self + 1 =? 1 then
    if _writer_lock self
    then (Py.Hangs,
          {| _monitor := true;
             _reader_count := _reader_count self + 1;
             _writer_lock := true |})
    else (Py.Returned tt,
          {| _monitor := false;
             _reader_count := _reader_count self + 1;
             _writer_lock := true |})
  else (Py.Returned tt,
        {| _monitor := false;
           _reader_count := _reader_count self + 1;
           _writer_lock := _writer_lock self |}).
Proof.
  destruct self as [m n g].
  unfold _read_acquire, Py.with_lock, Py.bind, Py.try_finally, Py.on_attr,
    Py.modify, Py.get, Py.acquire, Py.release, Py.ret. simpl.
  destruct m; [reflexivity|]. simpl.
  destruct (n + 1 =? 1); [|reflexivity]. destruct g; reflexivity.
Qed.

Lemma _read_release_eq self :
  _read_release self =
  if _monitor self then (Py.Hangs, self)
  else if _reader_count self - 1 =? 0 then
    if _writer_lock self
    then (Py.Returned tt,
          {| _monitor := false;
             _reader_count := _reader_count self - 1;
             _writer_lock := false |})
    else (Py.Raised Py.RuntimeError,
          {| _monitor := false;
             _reader_count := _reader_count self - 1;
             _writer_lock := false |})
  else (Py.Returned tt,
        {| _monitor := false;
           _reader_count := _reader_count self - 1;
           _writer_lock := _writer_lock self |}).
Proof.
  destruct self as [m n g].
  unfold _read_release, Py.with_lock, Py.bind, Py.try_finally, Py.on_attr,
    Py.modify, Py.get, Py.acquire, Py.release, Py.ret. simpl.
  destruct m; [reflexivity|]. simpl.
  destruct (n - 1 =? 0); [|reflexivity]. destruct g; reflexivity.
Qed.

Lemma _write_acquire_eq self :
  _write_acquire self =
  if _writer_lock self then (Py.Hangs, self)
  else (Py.Returned tt,
        {| _monitor := _monitor self;
           _reader_count := _reader_count self;
           _writer_lock := true |}).
Proof. destruct self as [m n []]; reflexivity. Qed.

Lemma _write_release_eq self :
  _write_release self =
  if _writer_lock self
  then (Py.Returned tt,
        {| _monitor := _monitor self;
           _reader_count := _reader_count self;
           _writer_lock := false |})
  else (Py.Raised Py.RuntimeError, self).
Proof. destruct self as [m n []]; reflexivity. Qed.

Lemma _read_acquire_resume_eq self :
  _read_acquire_resume self =
  if _writer_lock self then (Py.Hangs, self)
  else if _monitor self
  then (Py.Returned tt,
        {| _monitor := false;
           _reader_count := _reader_count self;
           _writer_lock := true |})
  else (Py.Raised Py.RuntimeError,
        {| _monitor := false;
           _reader_count := _reader_count self;
           _writer_lock := true |}).
Proof. destruct self as [[] n []]; reflexivity. Qed.

Lemma rp_bracketed_acquire k rest :
  bracketed {| th_pc := Running; th_todo := Threads.Acquire k :: rest |} ->
  exists ks, rest = Threads.Release k :: Threads.blocks ks.
Proof.
  intros [[[|k' ks] Hks]|(k' & ks & Hks)]; simpl in Hks; try discriminate.
  injection Hks as -> ->. now exists ks.
Qed.

Lemma rp_bracketed_release k rest :
  bracketed {| th_pc := Running; th_todo := Threads.Release k :: rest |} ->
  exists ks, rest = Threads.blocks ks.
Proof.
  intros [[[|k' ks] Hks]|(k' & ks & Hks)]; simpl in Hks; try discriminate.
  injection Hks as -> ->. now exists ks.
Qed.

Lemma rp_bracketed_blocks ks :
  bracketed {| th_pc := Running; th_todo := Threads.blocks ks |}.
Proof. left. now exists ks. Qed.

Lemma rp_holds_blocks k ks :
  holds k {| th_pc := Running; th_todo := Threads.blocks ks |} = false.
Proof. destruct ks; reflexivity. Qed.

(** Arithmetic on the counters, with the tests on them split. *)
Ltac counters :=
  unfold Threads.flag in *; tests;
  repeat match goal with
  | H : context [0 <? ?x] |- _ => destruct (Z.ltb_spec 0 x)
  | |- context [0 <? ?x] => destruct (Z.ltb_spec 0 x)
  end; lia.

(** A step keeps the counters right and is never an exception: with
    bracketed calls no release finds the writer lock unlocked. *)
Lemma rp_counted_step i c ev c' :
  counted c -> step i c = Some (ev, c') ->
  counted c' /\ forall e, ev <> Crashed e.
Proof.
  intros [Hb Hn Hm Hg]. unfold step.
  destruct (pool c !! i) as [[p todo]|] eqn:Hi; [|discriminate].
  pose proof (Forall_lookup_1 _ _ _ _ Hb Hi) as Hth.
  pose proof (tally_nonneg parked (pool c)).
  pose proof (tally_nonneg (holds Threads.Rd) (pool c)).
  pose proof (tally_nonneg (holds Threads.Wr) (pool c)).
  simpl. destruct p.
  - destruct todo as [|[[|]|[|]] rest]; [discriminate|..]; simpl;
      rewrite ?_read_acquire_eq, ?_read_release_eq, ?_write_acquire_eq,
        ?_write_release_eq;
      [apply rp_bracketed_acquire in Hth|apply rp_bracketed_acquire in Hth
      |apply rp_bracketed_release in Hth|apply rp_bracketed_release in Hth];
      destruct Hth as [ks ->];
      destruct (lock c) as [[] n []]; simpl in *;
      repeat match goal with
      | |- context [if ?b then _ else _] => destruct b eqn:?; simpl
      end;
      try discriminate; intros [= <- <-];
      try pose proof (tally_member (holds Threads.Rd) _ _ _ Hi eq_refl);
      try pose proof (tally_member (holds Threads.Wr) _ _ _ Hi eq_refl);
      first
        [ exfalso; counters
        | split; [|intros e; discriminate];
          constructor; simpl;
          rewrite ?(tally_insert _ _ _ _ _ Hi); simpl;
          rewrite ?rp_holds_blocks;
          first
            [ counters
            | apply Forall_insert;
              [assumption
              |first [apply rp_bracketed_blocks | right; eauto
                     | red; simpl; eauto ]] ] ].
  - rewrite _read_acquire_resume_eq. destruct Hth as [ks Hks].
    simpl in Hks. subst.
    pose proof (tally_member parked _ _ _ Hi eq_refl).
    destruct (lock c) as [[] n []]; simpl in *; try discriminate;
      [|exfalso; counters].
    intros [= <- <-]. split; [|intros e; discriminate].
    constructor; simpl; rewrite ?(tally_insert _ _ _ _ _ Hi); simpl.
    + apply Forall_insert; [assumption|]. right. eauto.
    + counters.
    + counters.
    + counters.
Qed.

Lemma rp_counted_run sched c c' :
  counted c -> run sched c = Some c' -> counted c'.
Proof.
  revert c. induction sched as [|i sched IH]; simpl; intros c Hc.
  - now intros [= <-].
  - destruct (step i c) as [[ev c1]|] eqn:Hs; [|discriminate].
    apply IH. exact (proj1 (rp_counted_step _ _ _ _ Hc Hs)).
Qed.

Lemma rp_nobody_inside (f : thread -> bool) kss :
  (forall ks, f {| th_pc := Running; th_todo := Threads.blocks ks |} = false) ->
  Threads.tally f
    (map (fun todo => {| th_pc := Running; th_todo := todo |})
         (map Threads.blocks kss)) = 0.
Proof.
  intros Hf. induction kss as [|ks kss IH]; simpl; [reflexivity|].
  now rewrite Hf, IH.
Qed.

Lemma rp_counted_start kss : counted (start (map Threads.blocks kss)).
Proof.
  constructor; simpl.
  - induction kss as [|ks kss IH]; simpl; constructor; [|exact IH].
    apply rp_bracketed_blocks.
  - rewrite !rp_nobody_inside; [reflexivity|reflexivity|].
    apply rp_holds_blocks.
  - now rewrite rp_nobody_inside.
  - rewrite !rp_nobody_inside; [reflexivity|apply rp_holds_blocks..].
Qed.

Lemma rp_run_never_raises sched c c' i ev c'' :
  counted c -> run sched c = Some c' -> step i c' = Some (ev, c'') ->
  forall e, ev <> Crashed e.
Proof.
  intros Hc Hrun Hs.
  exact (proj2 (rp_counted_step _ _ _ _ (rp_counted_run _ _ _ Hc Hrun) Hs)).
Qed.

Lemma rp_counted_reachable kss c :
  reachable (map Threads.blocks kss) c -> counted c.
Proof. intros [sched Hrun]. eapply rp_counted_run; [apply rp_counted_start|exact Hrun]. Qed.

End ReaderPriorityFacts.

(* ================================================================= *)
(** * Counters never go below zero *)

Module Counters.

Import ThreadFacts.

(** C5. When every thread uses the lock through [with] blocks, so that
    each release comes after its own acquire has returned, the reader
    counter of each of the three classes and the waiting counters of
    [WriterPriorityRWLock] and [FairRWLock] are at least zero in every
    configuration the threads can reach. *)
Theorem C5_counters_nonnegative :
  (forall kss c,
     Threads.reachable WriterPriorityRWLock.monitor
       (map Threads.blocks kss) c ->
     0 <= WriterPriorityRWLock._reader_count (Threads.lock c) /\
     0 <= WriterPriorityRWLock._writer_waiting_count (Threads.lock c)) /\
  (forall kss c,
     Threads.reachable FairRWLock.monitor (map Threads.blocks kss) c ->
     0 <= FairRWLock._readers_active (Threads.lock c) /\
     0 <= FairRWLock._waiting_count (Threads.lock c)) /\
  (forall kss c,
     ReaderPriorityThreads.reachable (map Threads.blocks kss) c ->
     0 <= ReaderPriorityRWLock._reader_count
            (ReaderPriorityThreads.lock c)).
Proof.
  split; [|split]; intros kss c Hc.
  - destruct (WriterPriorityFacts.readers_counted_reachable _ _ Hc) as [_ ->].
    rewrite (WriterPriorityFacts.writers_counted_reachable _ _ Hc).
    split; apply tally_nonneg.
  - pose proof (FairLiveness.counted_reachable _ _ Hc) as Hn.
    rewrite (FairInvariant.counted_readers _ Hn), (FairInvariant.counted_waiting _ Hn).
    pose proof (tally_nonneg (Threads.holds Threads.Rd) (Threads.pool c)).
    pose proof (tally_nonneg (Threads.pending Threads.Rd) (Threads.pool c)).
    pose proof (tally_nonneg (Threads.pending Threads.Wr) (Threads.pool c)).
    lia.
  - pose proof (ReaderPriorityFacts.rp_counted_reachable _ _ Hc) as Hn.
    rewrite (ReaderPriorityInvariant.counted_readers _ Hn).
    pose proof (tally_nonneg (ReaderPriorityThreads.holds Threads.Rd)
                  (ReaderPriorityThreads.pool c)).
    pose proof (tally_nonneg ReaderPriorityThreads.parked
                  (ReaderPriorityThreads.pool c)).
    lia.
Qed.

(** A writer holds a [ReaderPriorityRWLock]; the first reader has counted
    itself and sleeps at the writer lock with the monitor in its hands. *)
Lemma C5_witness :
  let kss := [[Threads.Wr]; [Threads.Rd]] in
  let c :=
    {| ReaderPriorityThreads.lock :=
         {| ReaderPriorityRWLock._monitor := true;
            ReaderPriorityRWLock._reader_count := 1;
            ReaderPriorityRWLock._writer_lock := true |};
       ReaderPriorityThreads.pool :=
         [ {| ReaderPriorityThreads.th_pc := ReaderPriorityThreads.Running;
              ReaderPriorityThreads.th_todo := [Threads.Release Threads.Wr] |};
           {| ReaderPriorityThreads.th_pc :=
                ReaderPriorityThreads.AtWriterLock;
              ReaderPriorityThreads.th_todo :=
                [Threads.Release Threads.Rd] |} ] |} in
  ReaderPriorityThreads.reachable (map Threads.blocks kss) c /\
  0 <= ReaderPriorityRWLock._reader_count (ReaderPriorityThreads.lock c).
Proof.
  intros kss c.
  assert (ReaderPriorityThreads.reachable (map Threads.blocks kss) c) as Hc.
  { exists [0; 1]%nat. reflexivity. }
  split; [exact Hc|].
  exact (proj2 (proj2 C5_counters_nonnegative) kss c Hc).
Defined.

End Counters.

(* ================================================================= *)
(** * What the release methods wake *)

Module Releases.

Import Threads ThreadFacts.

Lemma existsb_lookup {T} (f : T -> bool) (p : list T) j th :
  existsb f p = false -> p !! j = Some th -> f th = false.
Proof.
  revert j. induction p as [|x p IH]; intros [|j]; simpl; try discriminate.
  - intros Hx [= <-]. now apply orb_false_elim in Hx.
  - intros Hx. apply orb_false_elim in Hx. apply IH, Hx.
Qed.

(** Who sleeps on which condition of a WriterPriorityRWLock. *)
Lemma wp_writer_sleeps th :
  waits_on WriterPriorityRWLock.monitor WriterPriorityRWLock._writers_ok th
  = true <-> th_pc th = Waiting Wr.
Proof.
  destruct th as [[|[]|[]] todo]; simpl; split; intros Hw;
    try discriminate; reflexivity.
Qed.

(** C6. [_write_release] of [WriterPriorityRWLock] (in [rw_lock/locks.py]
    and in [rw_lock/lock.py]) clears [_writer_active] and leaves the
    counters alone; with [_writer_waiting_count] above zero it calls
    [_writers_ok.notify()], which wakes one thread asleep in
    [_write_acquire] if there is any and nobody else; otherwise it calls
    [_readers_ok.notify_all()], which wakes every thread asleep in
    [_read_acquire] and no writer. *)
Theorem C6_write_release_wakes :
  (forall self,
     fst (WriterPriorityRWLock._write_release self) =
       {| WriterPriorityRWLock._reader_count :=
            WriterPriorityRWLock._reader_count self;
          WriterPriorityRWLock._writer_active := false;
          WriterPriorityRWLock._writer_waiting_count :=
            WriterPriorityRWLock._writer_waiting_count self |} /\
     snd (WriterPriorityRWLock._write_release self) =
       (if 0 <? WriterPriorityRWLock._writer_waiting_count self
        then Notify WriterPriorityRWLock._writers_ok
        else NotifyAll WriterPriorityRWLock._readers_ok)) /\
  (forall self,
     fst (lock_py.WriterPriorityRWLock._write_release self) =
       {| lock_py.WriterPriorityRWLock._reader_count :=
            lock_py.WriterPriorityRWLock._reader_count self;
          lock_py.WriterPriorityRWLock._writer_active := false;
          lock_py.WriterPriorityRWLock._writer_waiting_count :=
            lock_py.WriterPriorityRWLock._writer_waiting_count self |} /\
     snd (lock_py.WriterPriorityRWLock._write_release self) =
       (if 0 <? lock_py.WriterPriorityRWLock._writer_waiting_count self
        then Notify lock_py.WriterPriorityRWLock._writers_ok
        else NotifyAll lock_py.WriterPriorityRWLock._readers_ok)) /\
  (forall pick p q,
     deliver WriterPriorityRWLock.monitor
       (Notify WriterPriorityRWLock._writers_ok) pick p = Some q ->
     (q = p /\ forall j th, p !! j = Some th -> th_pc th <> Waiting Wr) \/
     (exists todo,
        p !! pick = Some {| th_pc := Waiting Wr; th_todo := todo |} /\
        q = <[pick := {| th_pc := Woken Wr; th_todo := todo |}]> p)) /\
  (forall pick p,
     deliver WriterPriorityRWLock.monitor
       (NotifyAll WriterPriorityRWLock._readers_ok) pick p =
     Some (map wake_readers p)).
Proof.
  split; [|split; [|split]].
  - intros self. unfold WriterPriorityRWLock._write_release. simpl.
    destruct (0 <? _); split; reflexivity.
  - intros self. unfold lock_py.WriterPriorityRWLock._write_release. simpl.
    destruct (0 <? _); split; reflexivity.
  - intros pick p q. simpl. unfold notify.
    destruct (existsb _ p) eqn:Hex.
    + destruct (p !! pick) as [th|] eqn:Hp; [|discriminate].
      destruct (waits_on _ _ th) eqn:Hw; [|discriminate].
      intros [= <-]. right. apply wp_writer_sleeps in Hw.
      destruct th as [pc0 todo]. simpl in Hw. subst. exists todo.
      split; reflexivity.
    + intros [= <-]. left. split; [reflexivity|]. intros j th Hj Hth.
      apply wp_writer_sleeps in Hth.
      rewrite (existsb_lookup _ _ _ _ Hex Hj) in Hth. discriminate.
  - intros pick p. simpl. f_equal. unfold notify_all.
    apply List.map_ext. intros [[|[]|[]] todo]; reflexivity.
Qed.

(** A writer leaves while another writer and a reader sleep: the writer
    is woken, the reader is not. *)
Lemma C6_witness :
  let p := [ {| th_pc := Running; th_todo := [] |};
             {| th_pc := Waiting Rd; th_todo := [Release Rd] |};
             {| th_pc := Waiting Wr; th_todo := [Release Wr] |} ] in
  let q := [ {| th_pc := Running; th_todo := [] |};
             {| th_pc := Waiting Rd; th_todo := [Release Rd] |};
             {| th_pc := Woken Wr; th_todo := [Release Wr] |} ] in
  deliver WriterPriorityRWLock.monitor
    (Notify WriterPriorityRWLock._writers_ok) 2 p = Some q /\
  ((q = p /\ forall j th, p !! j = Some th -> th_pc th <> Waiting Wr) \/
   (exists todo,
      p !! 2%nat = Some {| th_pc := Waiting Wr; th_todo := todo |} /\
      q = <[2%nat := {| th_pc := Woken Wr; th_todo := todo |}]> p)).
Proof.
  intros p q.
  assert (deliver WriterPriorityRWLock.monitor
            (Notify WriterPriorityRWLock._writers_ok) 2 p = Some q) as Hd
    by reflexivity.
  split; [exact Hd|].
  exact (proj1 (proj2 (proj2 C6_write_release_wakes)) 2%nat p q Hd).
Defined.

(** C8. The release methods of [FairRWLock]: [_read_release] takes one
    from [_readers_active] and calls [_queue.notify_all()] exactly when
    the counter has reached zero and [_waiting_count] is above zero;
    [_write_release] clears [_writer_active] and calls
    [_queue.notify_all()] exactly when [_waiting_count] is above zero.
    Neither ever calls [notify()], and [notify_all()] wakes every thread
    that sleeps in an acquire, reader or writer. *)
Theorem C8_fair_release_broadcasts :
  forall self,
    (fst (FairRWLock._read_release self) =
       {| FairRWLock._readers_active := FairRWLock._readers_active self - 1;
          FairRWLock._writer_active := FairRWLock._writer_active self;
          FairRWLock._waiting_count := FairRWLock._waiting_count self |} /\
     (snd (FairRWLock._read_release self) = NotifyAll FairRWLock._queue <->
      FairRWLock._readers_active self - 1 = 0 /\
      0 < FairRWLock._waiting_count self) /\
     (snd (FairRWLock._read_release self) = NoWake <->
      ~ (FairRWLock._readers_active self - 1 = 0 /\
         0 < FairRWLock._waiting_count self))) /\
    (fst (FairRWLock._write_release self) =
       {| FairRWLock._readers_active := FairRWLock._readers_active self;
          FairRWLock._writer_active := false;
          FairRWLock._waiting_count := FairRWLock._waiting_count self |} /\
     (snd (FairRWLock._write_release self) = NotifyAll FairRWLock._queue <->
      0 < FairRWLock._waiting_count self) /\
     (snd (FairRWLock._write_release self) = NoWake <->
      ~ 0 < FairRWLock._waiting_count self)) /\
    (forall pick p,
       deliver FairRWLock.monitor (NotifyAll FairRWLock._queue) pick p =
       Some (map wake_up p)).
Proof.
  intros self. split; [|split].
  - unfold FairRWLock._read_release. simpl.
    destruct (_ && _) eqn:Hb; simpl; tests;
      (split; [reflexivity|]); split; split; intros Hx;
      try discriminate; try reflexivity; lia.
  - unfold FairRWLock._write_release. simpl.
    destruct (0 <? _) eqn:Hb; simpl; tests;
      (split; [reflexivity|]); split; split; intros Hx;
      try discriminate; try reflexivity; lia.
  - intros pick p. simpl. f_equal. unfold notify_all.
    apply List.map_ext. intros [[|[]|[]] todo]; reflexivity.
Qed.

End Releases.

(* ================================================================= *)
(** * ReaderPriorityRWLock: the first reader in and the last reader out *)

Module ReaderGate.

Import ReaderPriorityRWLock ReaderPriorityFacts.

(** C7. With the monitor free, [_read_acquire] adds one to
    [_reader_count] and goes for the writer lock exactly when the counter
    was 0 before (it then returns with the lock taken, or sleeps at it
    inside the monitor when a writer has it); [_read_release] takes one
    from [_reader_count] and releases the writer lock exactly when the
    counter was 1 before; both wait as long as the monitor is taken.
    [_write_acquire] and [_write_release] acquire and release the writer
    lock and look at nothing else. *)
Theorem C7_reader_priority_gate :
  (forall self,
     _monitor self = false ->
     (_reader_count self <> 0 ->
      _read_acquire self =
        (Py.Returned tt, set_reader_count (_reader_count self + 1) self)) /\
     (_reader_count self = 0 -> _writer_lock self = false ->
      _read_acquire self =
        (Py.Returned tt,
         {| _monitor := false; _reader_count := 1; _writer_lock := true |})) /\
     (_reader_count self = 0 -> _writer_lock self = true ->
      _read_acquire self =
        (Py.Hangs,
         {| _monitor := true; _reader_count := 1; _writer_lock := true |})) /\
     (_reader_count self <> 1 ->
      _read_release self =
        (Py.Returned tt, set_reader_count (_reader_count self - 1) self)) /\
     (_reader_count self = 1 -> _writer_lock self = true ->
      _read_release self =
        (Py.Returned tt,
         {| _monitor := false; _reader_count := 0; _writer_lock := false |})) /\
     (_reader_count self = 1 -> _writer_lock self = false ->
      _read_release self =
        (Py.Raised Py.RuntimeError,
         {| _monitor := false; _reader_count := 0; _writer_lock := false |})))
  /\
  (forall self,
     _monitor self = true ->
     _read_acquire self = (Py.Hangs, self) /\
     _read_release self = (Py.Hangs, self)) /\
  (forall self,
     (_writer_lock self = false ->
      _write_acquire self = (Py.Returned tt, set_writer_lock true self)) /\
     (_writer_lock self = true -> _write_acquire self = (Py.Hangs, self)) /\
     (_writer_lock self = true ->
      _write_release self = (Py.Returned tt, set_writer_lock false self)) /\
     (_writer_lock self = false ->
      _write_release self = (Py.Raised Py.RuntimeError, self))).
Proof.
  split; [|split].
  - intros [m n g] Hm. simpl in Hm. subst m.
    rewrite _read_acquire_eq, _read_release_eq. simpl.
    repeat split; intros; subst; simpl;
      repeat match goal with
      | |- context [?a =? ?b] => destruct (Z.eqb_spec a b); try lia
      end; reflexivity.
  - intros [m n g] Hm. simpl in Hm. subst m.
    rewrite _read_acquire_eq, _read_release_eq. split; reflexivity.
  - intros [m n g]. rewrite _write_acquire_eq, _write_release_eq. simpl.
    repeat split; intros; subst; reflexivity.
Qed.

(** A fresh lock: the first reader takes the writer lock. *)
Lemma C7_witness :
  _monitor __init__ = false /\
  _reader_count __init__ = 0 /\
  _writer_lock __init__ = false /\
  _read_acquire __init__ =
    (Py.Returned tt,
     {| _monitor := false; _reader_count := 1; _writer_lock := true |}).
Proof.
  repeat (split; [reflexivity|]).
  exact (proj1 (proj2 (proj1 C7_reader_priority_gate __init__ eq_refl))
           eq_refl eq_refl).
Defined.

End ReaderGate.

(* ================================================================= *)
(** * The two WriterPriorityRWLock classes are the same lock *)

Module Equivalence.

Import Threads Correspondence.

Lemma of_to_locks self : of_locks (to_locks self) = self.
Proof. destruct self; reflexivity. Qed.

Lemma to_of_locks self : to_locks (of_locks self) = self.
Proof. destruct self; reflexivity. Qed.

Lemma same_read_acquire : same_loop A._read_acquire B._read_acquire.
Proof. repeat split. Qed.

Lemma same_write_acquire : same_loop A._write_acquire B._write_acquire.
Proof. repeat split. Qed.

Lemma same_read_release : same_release A._read_release B._read_release.
Proof.
  intros [n a w]. unfold A._read_release, B._read_release. simpl.
  destruct (_ && _); reflexivity.
Qed.

Lemma same_write_release : same_release A._write_release B._write_release.
Proof.
  intros [n a w]. unfold A._write_release, B._write_release. simpl.
  destruct (0 <? w); reflexivity.
Qed.

Lemma same_run_alone a b self :
  same_loop a b ->
  run_alone b (to_locks self) = to_locks_result (run_alone a self).
Proof.
  intros (Hb & Hw & _ & Ha). unfold run_alone, to_locks_result.
  rewrite Hb, Hw. destruct (waits a (before a self)); simpl; [reflexivity|].
  now rewrite Ha.
Qed.

Lemma same_with_context {R} a b ra rb (body : Py.M A.state R) self :
  same_loop a b -> same_release ra rb ->
  Py.with_context (run_alone b) (run_release rb) (to_locks_body body)
    (to_locks self) =
  to_locks_result
    (Py.with_context (run_alone a) (run_release ra) body self).
Proof.
  intros Hl Hr. unfold Py.with_context, Py.bind.
  rewrite (same_run_alone a b self Hl). unfold to_locks_result.
  destruct (run_alone a self) as [[[]|e|] s1]; simpl; try reflexivity.
  unfold Py.try_finally, to_locks_body. rewrite of_to_locks.
  destruct (body s1) as [[r|e|] s2]; simpl; try reflexivity;
    unfold run_release; now rewrite Hr.
Qed.

Lemma same_waits_on c th :
  waits_on B.monitor (to_locks_condition c) th = waits_on A.monitor c th.
Proof. destruct th as [[|[]|[]] todo], c; reflexivity. Qed.

Lemma same_deliver w pick p :
  deliver B.monitor (to_locks_wake w) pick p = deliver A.monitor w pick p.
Proof.
  destruct w as [|c|c]; simpl; [reflexivity| |].
  - unfold notify.
    replace (existsb (waits_on B.monitor (to_locks_condition c)) p)
      with (existsb (waits_on A.monitor c) p).
    + destruct (existsb _ p); [|reflexivity].
      destruct (p !! pick) as [th|]; [|reflexivity].
      now rewrite same_waits_on.
    + induction p as [|th p IH]; simpl; [reflexivity|].
      now rewrite same_waits_on, IH.
  - f_equal. unfold notify_all. apply List.map_ext.
    intros th. now rewrite same_waits_on.
Qed.

Lemma same_step i pick c :
  step B.monitor i pick (to_locks_config c) =
  option_map (fun r => (fst r, to_locks_config (snd r)))
    (step A.monitor i pick c).
Proof.
  unfold step, test_loop. simpl.
  destruct (pool c !! i) as [[[|k|k] todo]|]; simpl; try reflexivity.
  - destruct todo as [|[k|k] rest]; [reflexivity| |].
    + destruct k; simpl; destruct (lock c) as [n a w]; simpl;
        match goal with
        | |- context [if ?b then _ else _] => destruct b
        end; reflexivity.
    + destruct k; simpl.
      * rewrite same_read_release.
        destruct (A._read_release (lock c)) as [s w]. simpl.
        rewrite same_deliver. destruct (deliver _ _ _ _); reflexivity.
      * rewrite same_write_release.
        destruct (A._write_release (lock c)) as [s w]. simpl.
        rewrite same_deliver. destruct (deliver _ _ _ _); reflexivity.
  - destruct k; simpl; destruct (lock c) as [n a w]; simpl;
      match goal with
      | |- context [if ?b then _ else _] => destruct b
      end; reflexivity.
Qed.

Lemma same_run sched c :
  run B.monitor sched (to_locks_config c) =
  option_map to_locks_config (run A.monitor sched c).
Proof.
  revert c. induction sched as [|[i pick] sched IH]; intros c; simpl;
    [reflexivity|].
  rewrite same_step. destruct (step A.monitor i pick c) as [[ev c1]|]; simpl;
    [apply IH|reflexivity].
Qed.

(** C10. The class of [rw_lock/lock.py] and the class of the same name in
    [rw_lock/locks.py] do the same: equal fresh instances; for each of
    [_read_acquire], [_write_acquire] the same statements before the
    loop, the same loop test, the same condition to sleep on and the same
    statements after it; for each of [_read_release], [_write_release]
    the same new state and the same call of [notify] or [notify_all] on
    the same condition; the same outcome and state for [read()] and
    [write()] around any critical section; and, for any threads and any
    schedule, the same run. *)
Theorem C10_lock_py_is_locks_py :
  to_locks A.__init__ = B.__init__ /\
  same_loop A._read_acquire B._read_acquire /\
  same_release A._read_release B._read_release /\
  same_loop A._write_acquire B._write_acquire /\
  same_release A._write_release B._write_release /\
  (forall R (body : Py.M A.state R) self,
     B.read (to_locks_body body) (to_locks self) =
     to_locks_result (A.read body self)) /\
  (forall R (body : Py.M A.state R) self,
     B.write (to_locks_body body) (to_locks self) =
     to_locks_result (A.write body self)) /\
  (forall progs sched,
     run B.monitor sched (start B.monitor progs) =
     option_map to_locks_config (run A.monitor sched (start A.monitor progs))).
Proof.
  repeat match goal with |- _ /\ _ => split end.
  - reflexivity.
  - apply same_read_acquire.
  - apply same_read_release.
  - apply same_write_acquire.
  - apply same_write_release.
  - intros R body self.
    apply same_with_context; [apply same_read_acquire|apply same_read_release].
  - intros R body self.
    apply same_with_context;
      [apply same_write_acquire|apply same_write_release].
  - intros progs sched. apply (same_run sched (start A.monitor progs)).
Qed.

End Equivalence.

(* ================================================================= *)
(** * [read()] and [write()]: the release runs on every way out *)

Module Scoped.

(** What a [with] block on a context manager does once the body has come
    back, by return or by exception: the [finally] clause runs on the
    state the body left, and the body's outcome is kept when the clause
    returns. *)
Lemma with_context_exit {S R} (enter leave : Py.M S unit) (body : Py.M S R)
    self s1 r s2 :
  enter self = (Py.Returned tt, s1) ->
  body s1 = (r, s2) -> r <> Py.Hangs ->
  Py.with_context enter leave body self =
  match leave s2 with
  | (Py.Returned _, s3) => (r, s3)
  | (Py.Raised e, s3) => (Py.Raised e, s3)
  | (Py.Hangs, s3) => (Py.Hangs, s3)
  end.
Proof.
  intros He Hb Hr. unfold Py.with_context, Py.bind, Py.try_finally.
  rewrite He, Hb. destruct r; [reflexivity|reflexivity|congruence].
Qed.

(** C2. For each of the three classes, when [read()] or [write()] has
    acquired and the critical section comes back, by return or by an
    exception, the matching release is run on the state the section left
    and the outcome of the section, value or exception, is the outcome of
    the [with] block.  After [write()], [_writer_active] is false (for
    [ReaderPriorityRWLock] the writer lock is unlocked), and when no
    reader came or went meanwhile, a new [_write_acquire] returns at
    once.  For [ReaderPriorityRWLock] this needs the release itself not
    to fail: the writer lock must still be locked when the section ends,
    and it is: among threads that only use [with] blocks no call ever
    ends in an exception of the lock's own. *)
Theorem C2_release_on_every_exit :
  (forall R (body : Py.M WriterPriorityRWLock.state R) self s1 r s2,
     body s1 = (r, s2) -> r <> Py.Hangs ->
     (run_alone WriterPriorityRWLock._read_acquire self
        = (Py.Returned tt, s1) ->
      WriterPriorityRWLock.read body self =
        (r, fst (WriterPriorityRWLock._read_release s2))) /\
     (run_alone WriterPriorityRWLock._write_acquire self
        = (Py.Returned tt, s1) ->
      WriterPriorityRWLock.write body self =
        (r, fst (WriterPriorityRWLock._write_release s2)) /\
      WriterPriorityRWLock._writer_active
        (fst (WriterPriorityRWLock._write_release s2)) = false /\
      (WriterPriorityRWLock._reader_count s2 =
         WriterPriorityRWLock._reader_count s1 ->
       exists s3,
         run_alone WriterPriorityRWLock._write_acquire
           (fst (WriterPriorityRWLock._write_release s2))
         = (Py.Returned tt, s3)))) /\
  (forall R (body : Py.M FairRWLock.state R) self s1 r s2,
     body s1 = (r, s2) -> r <> Py.Hangs ->
     (run_alone FairRWLock._read_acquire self = (Py.Returned tt, s1) ->
      FairRWLock.read body self =
        (r, fst (FairRWLock._read_release s2))) /\
     (run_alone FairRWLock._write_acquire self = (Py.Returned tt, s1) ->
      FairRWLock.write body self =
        (r, fst (FairRWLock._write_release s2)) /\
      FairRWLock._writer_active (fst (FairRWLock._write_release s2))
        = false /\
      (FairRWLock._readers_active s2 = FairRWLock._readers_active s1 ->
       exists s3,
         run_alone FairRWLock._write_acquire
           (fst (FairRWLock._write_release s2))
         = (Py.Returned tt, s3)))) /\
  (forall R (body : Py.M ReaderPriorityRWLock.state R) self s1 r s2,
     body s1 = (r, s2) -> r <> Py.Hangs ->
     (forall s3,
        ReaderPriorityRWLock._read_acquire self = (Py.Returned tt, s1) ->
        ReaderPriorityRWLock._read_release s2 = (Py.Returned tt, s3) ->
        ReaderPriorityRWLock.read body self = (r, s3)) /\
     (ReaderPriorityRWLock._write_acquire self = (Py.Returned tt, s1) ->
      ReaderPriorityRWLock._writer_lock s2 = true ->
      ReaderPriorityRWLock.write body self =
        (r, ReaderPriorityRWLock.set_writer_lock false s2) /\
      exists s3,
        ReaderPriorityRWLock._write_acquire
          (ReaderPriorityRWLock.set_writer_lock false s2)
        = (Py.Returned tt, s3))) /\
  (forall kss c i ev c',
     ReaderPriorityThreads.reachable (map Threads.blocks kss) c ->
     ReaderPriorityThreads.step i c = Some (ev, c') ->
     forall e, ev <> ReaderPriorityThreads.Crashed e).
Proof.
  split; [|split; [|split]];
    [| | |intros kss c i ev c' [sched Hrun] Hs;
          exact (ReaderPriorityFacts.rp_run_never_raises _ _ _ _ _ _
                   (ReaderPriorityFacts.rp_counted_start kss) Hrun Hs)];
    intros R body self s1 r s2 Hb Hr.
  - split.
    + intros He. unfold WriterPriorityRWLock.read.
      now rewrite (with_context_exit _ _ _ _ _ _ _ He Hb Hr).
    + intros He. unfold WriterPriorityRWLock.write.
      rewrite (with_context_exit _ _ _ _ _ _ _ He Hb Hr).
      split; [reflexivity|]. split.
      * unfold WriterPriorityRWLock._write_release. simpl.
        destruct (0 <? _); reflexivity.
      * intros Hn. unfold run_alone in *. simpl in He.
        destruct (_ || _) eqn:Hw in He; [discriminate|].
        injection He as <-. simpl in *. tests.
        unfold WriterPriorityRWLock._write_release. simpl.
        destruct (0 <? WriterPriorityRWLock._writer_waiting_count s2);
          simpl; rewrite Hn;
          destruct (Z.ltb_spec 0 (WriterPriorityRWLock._reader_count self));
          try lia; simpl; eauto.
  - split.
    + intros He. unfold FairRWLock.read.
      now rewrite (with_context_exit _ _ _ _ _ _ _ He Hb Hr).
    + intros He. unfold FairRWLock.write.
      rewrite (with_context_exit _ _ _ _ _ _ _ He Hb Hr).
      split; [reflexivity|]. split.
      * unfold FairRWLock._write_release. simpl.
        destruct (0 <? _); reflexivity.
      * intros Hn. unfold run_alone in *. simpl in He.
        destruct (_ || _) eqn:Hw in He; [discriminate|].
        injection He as <-. simpl in *. tests.
        unfold FairRWLock._write_release. simpl.
        destruct (0 <? FairRWLock._waiting_count s2);
          simpl; rewrite Hn;
          destruct (Z.ltb_spec 0 (FairRWLock._readers_active self));
          try lia; simpl; eauto.
  - split.
    + intros s3 He Hl. unfold ReaderPriorityRWLock.read.
      now rewrite (with_context_exit _ _ _ _ _ _ _ He Hb Hr), Hl.
    + intros He Hg. unfold ReaderPriorityRWLock.write.
      rewrite (with_context_exit _ _ _ _ _ _ _ He Hb Hr).
      rewrite !ReaderPriorityFacts._write_release_eq, Hg.
      split; [reflexivity|].
      rewrite ReaderPriorityFacts._write_acquire_eq. simpl. eauto.
Qed.

(** A critical section that raises inside [write()] on a fresh
    [WriterPriorityRWLock]. *)
Lemma C2_witness :
  let body : Py.M WriterPriorityRWLock.state unit :=
    fun self => (Py.Raised (Py.CallerError 7), self) in
  let s1 := {| WriterPriorityRWLock._reader_count := 0;
               WriterPriorityRWLock._writer_active := true;
               WriterPriorityRWLock._writer_waiting_count := 0 |} in
  body s1 = (Py.Raised (Py.CallerError 7), s1) /\
  Py.Raised (Py.CallerError 7) <> @Py.Hangs unit /\
  run_alone WriterPriorityRWLock._write_acquire WriterPriorityRWLock.__init__
    = (Py.Returned tt, s1) /\
  WriterPriorityRWLock.write body WriterPriorityRWLock.__init__ =
    (Py.Raised (Py.CallerError 7),
     fst (WriterPriorityRWLock._write_release s1)) /\
  WriterPriorityRWLock._writer_active
    (fst (WriterPriorityRWLock._write_release s1)) = false.
Proof.
  intros body s1.
  assert (body s1 = (Py.Raised (Py.CallerError 7), s1)) as Hb by reflexivity.
  assert (Py.Raised (Py.CallerError 7) <> @Py.Hangs unit) as Hr
    by discriminate.
  assert (run_alone WriterPriorityRWLock._write_acquire
            WriterPriorityRWLock.__init__ = (Py.Returned tt, s1)) as He
    by reflexivity.
  repeat (split; [assumption|]).
  destruct (proj2 (proj1 C2_release_on_every_exit unit body
                     WriterPriorityRWLock.__init__ s1 _ s1 Hb Hr) He)
    as (Hw & Ha & _).
  split; assumption.
Defined.

End Scoped.

(* ================================================================= *)
(** * [release_read] without an [acquire_read] before it *)

Module Misuse.

Import Contract.

(** On a fresh instance of each class [_read_release] returns and leaves
    the reader counter at -1. *)
Lemma C3_counterexample :
  (run_release WriterPriorityRWLock._read_release
     WriterPriorityRWLock.__init__ =
   (Py.Returned tt,
    {| WriterPriorityRWLock._reader_count := -1;
       WriterPriorityRWLock._writer_active := false;
       WriterPriorityRWLock._writer_waiting_count := 0 |}) /\
   ~ fails_fast (run_release WriterPriorityRWLock._read_release)
       WriterPriorityRWLock._reader_count) /\
  (run_release FairRWLock._read_release FairRWLock.__init__ =
   (Py.Returned tt,
    {| FairRWLock._readers_active := -1;
       FairRWLock._writer_active := false;
       FairRWLock._waiting_count := 0 |}) /\
   ~ fails_fast (run_release FairRWLock._read_release)
       FairRWLock._readers_active) /\
  (ReaderPriorityRWLock._read_release ReaderPriorityRWLock.__init__ =
   (Py.Returned tt,
    {| ReaderPriorityRWLock._monitor := false;
       ReaderPriorityRWLock._reader_count := -1;
       ReaderPriorityRWLock._writer_lock := false |}) /\
   ~ fails_fast ReaderPriorityRWLock._read_release
       ReaderPriorityRWLock._reader_count).
Proof.
  repeat split; try reflexivity.
  - intros Hf.
    destruct (Hf WriterPriorityRWLock.__init__ eq_refl) as [[e He] _].
    discriminate He.
  - intros Hf. destruct (Hf FairRWLock.__init__ eq_refl) as [[e He] _].
    discriminate He.
  - intros Hf.
    destruct (Hf ReaderPriorityRWLock.__init__ eq_refl) as [[e He] _].
    discriminate He.
Qed.

(** C3, as the code has it.  No class checks for a release without an
    acquire: on an instance whose reader counter is 0, [_read_release]
    returns normally (for [ReaderPriorityRWLock], once it has the
    monitor), leaves the counter at -1 and every other attribute as it
    was, notifies nobody and does not touch the writer lock. *)
Theorem C3_release_read_unchecked :
  (forall self,
     WriterPriorityRWLock._reader_count self = 0 ->
     WriterPriorityRWLock._read_release self =
     ({| WriterPriorityRWLock._reader_count := -1;
         WriterPriorityRWLock._writer_active :=
           WriterPriorityRWLock._writer_active self;
         WriterPriorityRWLock._writer_waiting_count :=
           WriterPriorityRWLock._writer_waiting_count self |}, NoWake)) /\
  (forall self,
     FairRWLock._readers_active self = 0 ->
     FairRWLock._read_release self =
     ({| FairRWLock._readers_active := -1;
         FairRWLock._writer_active := FairRWLock._writer_active self;
         FairRWLock._waiting_count := FairRWLock._waiting_count self |},
      NoWake)) /\
  (forall self,
     ReaderPriorityRWLock._reader_count self = 0 ->
     ReaderPriorityRWLock._monitor self = false ->
     ReaderPriorityRWLock._read_release self =
     (Py.Returned tt,
      {| ReaderPriorityRWLock._monitor := false;
         ReaderPriorityRWLock._reader_count := -1;
         ReaderPriorityRWLock._writer_lock :=
           ReaderPriorityRWLock._writer_lock self |})).
Proof.
  split; [|split].
  - intros [n a w] Hn. simpl in Hn. subst n. reflexivity.
  - intros [n a w] Hn. simpl in Hn. subst n. reflexivity.
  - intros [m n g] Hn Hm. simpl in Hn, Hm. subst n m.
    rewrite ReaderPriorityFacts._read_release_eq. reflexivity.
Qed.

Lemma C3_witness :
  ReaderPriorityRWLock._reader_count ReaderPriorityRWLock.__init__ = 0 /\
  ReaderPriorityRWLock._monitor ReaderPriorityRWLock.__init__ = false /\
  ReaderPriorityRWLock._read_release ReaderPriorityRWLock.__init__ =
  (Py.Returned tt,
   {| ReaderPriorityRWLock._monitor := false;
      ReaderPriorityRWLock._reader_count := -1;
      ReaderPriorityRWLock._writer_lock := false |}).
Proof.
  repeat (split; [reflexivity|]).
  exact (proj2 (proj2 C3_release_read_unchecked)
           ReaderPriorityRWLock.__init__ eq_refl eq_refl).
Defined.

End Misuse.

(* ================================================================= *)
(** * The models at work *)

Module Scenarios.

Import Threads.

(** WriterPriorityRWLock: a reader holds the lock, a writer arrives, a
    second reader arrives; the reader leaves and wakes the writer, the
    writer enters and leaves and wakes the second reader, which enters
    and leaves.  Every attribute is back at its first value. *)
Example writer_before_late_reader :
  run WriterPriorityRWLock.monitor
    [(0, 0); (1, 0); (2, 0); (0, 1); (1, 0); (1, 0); (2, 0); (2, 0)]%nat
    (start WriterPriorityRWLock.monitor
       [blocks [Rd]; blocks [Wr]; blocks [Rd]]) =
  Some {| lock := WriterPriorityRWLock.__init__;
          pool := [ {| th_pc := Running; th_todo := [] |};
                    {| th_pc := Running; th_todo := [] |};
                    {| th_pc := Running; th_todo := [] |} ] |}.
Proof. reflexivity. Qed.

(** The reader that leaves must wake the writer: a [notify] that names
    the sleeping reader instead is no step. *)
Example notify_wakes_a_writer :
  run WriterPriorityRWLock.monitor [(0, 0); (1, 0); (2, 0); (0, 2)]%nat
    (start WriterPriorityRWLock.monitor
       [blocks [Rd]; blocks [Wr]; blocks [Rd]]) = None.
Proof. reflexivity. Qed.

(** FairRWLock: a writer holds the lock, a writer and a reader arrive;
    the release wakes both, the reader is faster, the writer sleeps
    again until the reader leaves. *)
Example fair_broadcast :
  run FairRWLock.monitor
    [(0, 0); (1, 0); (2, 0); (0, 0); (2, 0); (1, 0); (2, 0); (1, 0); (1, 0)]%nat
    (start FairRWLock.monitor [blocks [Wr]; blocks [Wr]; blocks [Rd]]) =
  Some {| lock := FairRWLock.__init__;
          pool := [ {| th_pc := Running; th_todo := [] |};
                    {| th_pc := Running; th_todo := [] |};
                    {| th_pc := Running; th_todo := [] |} ] |}.
Proof. reflexivity. Qed.

(** ReaderPriorityRWLock: while readers overlap the writer cannot
    enter; when the last reader has left it can. *)
Example writer_waits_for_last_reader :
  ReaderPriorityThreads.run [1; 2; 1; 0]%nat
    (ReaderPriorityThreads.start [blocks [Wr]; blocks [Rd]; blocks [Rd]])
  = None /\
  ReaderPriorityThreads.run [1; 2; 1; 2; 0; 0]%nat
    (ReaderPriorityThreads.start [blocks [Wr]; blocks [Rd]; blocks [Rd]])
  = Some {| ReaderPriorityThreads.lock := ReaderPriorityRWLock.__init__;
            ReaderPriorityThreads.pool :=
              [ {| ReaderPriorityThreads.th_pc :=
                     ReaderPriorityThreads.Running;
                   ReaderPriorityThreads.th_todo := [] |};
                {| ReaderPriorityThreads.th_pc :=
                     ReaderPriorityThreads.Running;
                   ReaderPriorityThreads.th_todo := [] |};
                {| ReaderPriorityThreads.th_pc :=
                     ReaderPriorityThreads.Running;
                   ReaderPriorityThreads.th_todo := [] |} ] |}.
Proof. split; reflexivity. Qed.

(** ReaderPriorityRWLock: the first reader that finds a writer inside
    sleeps with the monitor, so a second reader cannot even count
    itself; when the writer has left, both get in. *)
Example first_reader_keeps_the_monitor :
  ReaderPriorityThreads.run [0; 1; 2]%nat
    (ReaderPriorityThreads.start [blocks [Wr]; blocks [Rd]; blocks [Rd]])
  = None /\
  ReaderPriorityThreads.run [0; 1; 0; 1; 2; 1; 2]%nat
    (ReaderPriorityThreads.start [blocks [Wr]; blocks [Rd]; blocks [Rd]])
  = Some {| ReaderPriorityThreads.lock := ReaderPriorityRWLock.__init__;
            ReaderPriorityThreads.pool :=
              [ {| ReaderPriorityThreads.th_pc :=
                     ReaderPriorityThreads.Running;
                   ReaderPriorityThreads.th_todo := [] |};
                {| ReaderPriorityThreads.th_pc :=
                     ReaderPriorityThreads.Running;
                   ReaderPriorityThreads.th_todo := [] |};
                {| ReaderPriorityThreads.th_pc :=
                     ReaderPriorityThreads.Running;
                   ReaderPriorityThreads.th_todo := [] |} ] |}.
Proof. split; reflexivity. Qed.

End Scenarios.

(* ================================================================= *)
(** * Waking and sleeping, for any monitor based lock *)

Module WakeFacts.

Import Threads ThreadFacts FairFacts.

Section Facts.

Context {St Cv : Type} `{EqDecision Cv} (L : MonitorRWLock St Cv).

(** A notification puts nobody to sleep. *)
Lemma deliver_sleeper w pick p q j k todo :
  deliver L w pick p = Some q ->
  q !! j = Some {| th_pc := Waiting k; th_todo := todo |} ->
  p !! j = Some {| th_pc := Waiting k; th_todo := todo |}.
Proof.
  destruct w as [|c|c]; simpl.
  - now intros [= <-].
  - unfold notify. destruct (existsb _ p); [|now intros [= <-]].
    destruct (p !! pick) as [th|] eqn:Hp; [|discriminate].
    destruct (waits_on L c th) eqn:Hw; [|discriminate].
    intros [= <-] Hj.
    destruct (lookup_insert_cases _ _ _ _ _ _ Hp Hj) as [[_ Heq]|[_ Hj']];
      [|exact Hj'].
    destruct th as [[|k'|k'] todo']; simpl in Hw; discriminate.
  - intros [= <-]. unfold notify_all. rewrite lookup_map.
    destruct (p !! j) as [th|]; simpl; [|discriminate].
    destruct (waits_on L c th) eqn:Hw; [|now intros [= <-]].
    destruct th as [[|k'|k'] todo']; simpl in *; discriminate.
Qed.

(** Whoever sleeps on a condition is found by [notify]. *)
Lemma existsb_witness {T} (f : T -> bool) (p : list T) :
  existsb f p = true -> exists j th, p !! j = Some th /\ f th = true.
Proof.
  induction p as [|x p IH]; simpl; [discriminate|].
  destruct (f x) eqn:Hx; simpl.
  - intros _. exists 0%nat, x. auto.
  - intros Hp. destruct (IH Hp) as (j & th & Hj & Hth). exists (S j), th. auto.
Qed.

(** A release can always be carried out: [notify] finds somebody to
    wake whenever there is somebody. *)
Lemma deliver_enabled w p : exists pick q, deliver L w pick p = Some q.
Proof.
  destruct w as [|c|c]; simpl.
  - exists 0%nat, p. reflexivity.
  - unfold notify. destruct (existsb (waits_on L c) p) eqn:Hex.
    + destruct (existsb_witness _ _ Hex) as (j & th & Hj & Hth).
      exists j. rewrite Hj, Hth. eauto.
    + exists 0%nat, p. reflexivity.
  - exists 0%nat. eauto.
Qed.

Lemma release_step_enabled i c k rest :
  pool c !! i = Some {| th_pc := Running; th_todo := Release k :: rest |} ->
  exists pick ev c', step L i pick c = Some (ev, c').
Proof.
  intros Hi. unfold step. rewrite Hi. simpl.
  destruct (release_of L k (lock c)) as [s w].
  destruct (deliver_enabled w
              (<[i := {| th_pc := Running; th_todo := rest |}]> (pool c)))
    as (pick & q & Hq).
  exists pick. rewrite Hq. eauto.
Qed.

End Facts.

End WakeFacts.

(* ================================================================= *)
(** * WriterPriorityRWLock: what the attributes say about the threads *)

Module WriterPriorityExactFacts.

Import Threads ThreadFacts Brackets FairFacts WakeFacts.
Import WriterPriorityRWLock WriterPriorityExact.

Lemma wp_reader_sleeps th :
  waits_on monitor _readers_ok th = true <-> th_pc th = Waiting Rd.
Proof.
  destruct th as [[|[]|[]] todo]; simpl; split; intros Hw;
    try discriminate; reflexivity.
Qed.

(** After [_writers_ok.notify()] a writer that still sleeps knows of a
    writer that has been woken. *)
Lemma notify_hands_over pick p q j todo :
  notify monitor _writers_ok pick p = Some q ->
  q !! j = Some {| th_pc := Waiting Wr; th_todo := todo |} ->
  0 < tally (woken Wr) q.
Proof.
  unfold notify. destruct (existsb _ p) eqn:Hex.
  - destruct (p !! pick) as [th|] eqn:Hp; [|discriminate].
    destruct (waits_on monitor _writers_ok th) eqn:Hw; [|discriminate].
    intros [= <-] _. apply Releases.wp_writer_sleeps in Hw.
    destruct th as [pc0 todo0]. simpl in Hw. subst pc0.
    assert (<[pick := wake_up {| th_pc := Waiting Wr; th_todo := todo0 |}]> p
              !! pick
            = Some {| th_pc := Woken Wr; th_todo := todo0 |}) as Hq.
    { apply list_lookup_insert_eq. eapply lookup_lt_Some; eassumption. }
    pose proof (tally_member (woken Wr) _ _ _ Hq eq_refl). lia.
  - intros [= <-] Hj.
    pose proof (Releases.existsb_lookup _ _ _ _ Hex Hj) as Hno.
    discriminate Hno.
Qed.

(** After [_readers_ok.notify_all()] no reader sleeps. *)
Lemma notify_all_readers_awake p j todo :
  notify_all monitor _readers_ok p !! j <>
  Some {| th_pc := Waiting Rd; th_todo := todo |}.
Proof.
  unfold notify_all. rewrite lookup_map.
  destruct (p !! j) as [[[|[]|[]] todo']|]; simpl; discriminate.
Qed.

Lemma woken_running (p : list thread) i rest todo' :
  p !! i = Some {| th_pc := Running; th_todo := rest |} ->
  tally (woken Wr) (<[i := {| th_pc := Running; th_todo := todo' |}]> p) =
  tally (woken Wr) p.
Proof. intros Hi. rewrite (tally_insert _ _ _ _ _ Hi). simpl. lia. Qed.

Lemma wp_counts_step i pick c ev c' :
  exact c -> transition monitor i pick c ev c' ->
  _reader_count (lock c') = tally (holds Rd) (pool c') /\
  flag (_writer_active (lock c')) = tally (holds Wr) (pool c') /\
  _writer_waiting_count (lock c') = tally (pending Wr) (pool c').
Proof.
  intros [Hb Hr Hw Hn _ _] Ht.
  pose proof (tally_nonneg (holds Wr) (pool c')) as Hpos.
  revert Hpos.
  destruct Ht as [k rest Hi Hg|k rest Hi Hg|k rest Hi Hg|k rest Hi Hg
                 |k rest s w p Hi Hrel Hd];
    pose proof (Forall_lookup_1 _ _ _ _ Hb Hi) as Hth; shape Hth;
    destruct k; simpl in *;
    cbv [_read_release _write_release] in *; simpl in *;
    try branches Hrel; simpl; recount Hi; rewrite ?holds_blocks;
    tests; unfold flag in *;
    repeat match goal with
    | H : _writer_active _ = _ |- _ => rewrite H in *
    end;
    try destruct (_writer_active (lock c)); lia.
Qed.

Lemma wp_sleeping_readers_step i pick c ev c' :
  exact c -> transition monitor i pick c ev c' ->
  forall j todo,
    pool c' !! j = Some {| th_pc := Waiting Rd; th_todo := todo |} ->
    _writer_active (lock c') = true \/ 0 < _writer_waiting_count (lock c').
Proof.
  intros [Hb Hr Hw Hn Hsr Hsw] Ht j todo Hj.
  pose proof (tally_nonneg (pending Wr) (pool c)) as Hpos.
  destruct Ht as [k rest Hi Hg|k rest Hi Hg|k rest Hi Hg|k rest Hi Hg
                 |k rest s w p Hi Hrel Hd]; simpl in *.
  - destruct (lookup_insert_cases _ _ _ _ _ _ Hi Hj) as [[_ [=]]|[_ Hj']].
    specialize (Hsr _ _ Hj'). destruct k; simpl in *; tests;
      [destruct Hsr; [congruence|lia]|now left].
  - destruct (lookup_insert_cases _ _ _ _ _ _ Hi Hj) as [[_ [= <- _]]|[_ Hj']].
    + simpl in Hg. tests. destruct Hg; tests; auto.
    + specialize (Hsr _ _ Hj'). destruct k; simpl; [exact Hsr|].
      destruct Hsr; [now left|right; lia].
  - destruct (lookup_insert_cases _ _ _ _ _ _ Hi Hj) as [[_ [=]]|[_ Hj']].
    specialize (Hsr _ _ Hj'). destruct k; simpl in *; tests;
      [destruct Hsr; [congruence|lia]|now left].
  - destruct (lookup_insert_cases _ _ _ _ _ _ Hi Hj) as [[_ [= <- _]]|[_ Hj']].
    + simpl in Hg. tests. destruct Hg; tests; auto.
    + exact (Hsr _ _ Hj').
  - pose proof (deliver_sleeper _ _ _ _ _ _ _ _ Hd Hj) as Hj0.
    destruct (lookup_insert_cases _ _ _ _ _ _ Hi Hj0) as [[_ [=]]|[_ Hj']].
    destruct k; simpl in *; cbv [_read_release _write_release] in *;
      simpl in *; branches Hrel; simpl in *.
    + exact (Hsr _ _ Hj').
    + exact (Hsr _ _ Hj').
    + tests. now right.
    + injection Hd as <-. exfalso.
      exact (notify_all_readers_awake _ _ _ Hj).
Qed.

Lemma wp_sleeping_writers_step i pick c ev c' :
  exact c -> transition monitor i pick c ev c' ->
  forall j todo,
    pool c' !! j = Some {| th_pc := Waiting Wr; th_todo := todo |} ->
    0 < _reader_count (lock c') \/ _writer_active (lock c') = true \/
    0 < tally (woken Wr) (pool c').
Proof.
  intros [Hb Hr Hw Hn Hsr Hsw] Ht j todo Hj.
  pose proof (tally_nonneg (holds Rd) (pool c)) as Hpos.
  destruct Ht as [k rest Hi Hg|k rest Hi Hg|k rest Hi Hg|k rest Hi Hg
                 |k rest s w p Hi Hrel Hd]; simpl in *.
  - destruct k; simpl in *; [left; lia|right; now left].
  - destruct (lookup_insert_cases _ _ _ _ _ _ Hi Hj) as [[_ [= <- _]]|[_ Hj']].
    + simpl in Hg. tests. destruct Hg; tests; auto.
    + rewrite (tally_insert _ _ _ _ _ Hi). simpl.
      destruct (Hsw _ _ Hj') as [?|[?|?]]; destruct k; simpl; auto;
        right; right; lia.
  - destruct k; simpl in *; [left; lia|right; now left].
  - destruct (lookup_insert_cases _ _ _ _ _ _ Hi Hj) as [[_ [= <- _]]|[_ Hj']].
    + simpl in Hg. tests. destruct Hg; tests; auto.
    + destruct k; simpl in *.
      * rewrite (tally_insert _ _ _ _ _ Hi). simpl.
        destruct (Hsw _ _ Hj') as [?|[?|?]]; auto. right; right; lia.
      * tests. destruct Hg; tests; auto.
  - pose proof (deliver_sleeper _ _ _ _ _ _ _ _ Hd Hj) as Hj0.
    destruct (lookup_insert_cases _ _ _ _ _ _ Hi Hj0) as [[_ [=]]|[_ Hj']].
    pose proof (tally_member (pending Wr) _ _ _ Hj' eq_refl) as Hone.
    destruct k; simpl in *; cbv [_read_release _write_release] in *;
      simpl in *; branches Hrel; simpl in *.
    + right; right. exact (notify_hands_over _ _ _ _ _ Hd Hj).
    + injection Hd as <-. rewrite (woken_running _ _ _ _ Hi).
      destruct (Hsw _ _ Hj') as [?|[?|?]]; auto.
      left. tests. destruct Hb0; tests; lia.
    + right; right. exact (notify_hands_over _ _ _ _ _ Hd Hj).
    + tests. lia.
Qed.

Lemma exact_step i pick c ev c' :
  exact c -> transition monitor i pick c ev c' -> exact c'.
Proof.
  intros Hc Ht.
  destruct (wp_counts_step _ _ _ _ _ Hc Ht) as (Hr & Hw & Hn).
  constructor; try assumption.
  - eapply bracketed_step; [apply Hc|exact Ht].
  - eapply wp_sleeping_readers_step; eassumption.
  - eapply wp_sleeping_writers_step; eassumption.
Qed.

Lemma exact_reachable kss c :
  reachable monitor (map blocks kss) c -> exact c.
Proof.
  revert c. apply reachable_invariant; [|apply exact_step].
  constructor.
  - apply bracketed_start.
  - simpl. now rewrite no_thread_holds.
  - simpl. now rewrite no_thread_holds.
  - simpl. now rewrite no_thread_pending.
  - intros j todo. simpl. rewrite lookup_map.
    destruct (map blocks kss !! j); discriminate.
  - intros j todo. simpl. rewrite lookup_map.
    destruct (map blocks kss !! j); discriminate.
Qed.

End WriterPriorityExactFacts.

(* ================================================================= *)
(** * WriterPriorityRWLock: exclusion and progress among threads *)

Module WriterPriorityRuns.

Import Threads ThreadFacts Brackets FairFacts WakeFacts Potential.
Import WriterPriorityExact WriterPriorityExactFacts.
Import Correspondence.

(** At most one thread passes a test that at most one thread passes. *)
Lemma tally_unique {T} (f : T -> bool) (p : list T) i j x y :
  tally f p <= 1 ->
  p !! i = Some x -> f x = true -> p !! j = Some y -> f y = true -> i = j.
Proof.
  revert i j. induction p as [|z p IH]; intros [|i] [|j] Hle Hi Hx Hj Hy;
    simpl in *; try discriminate; try reflexivity.
  - injection Hi as ->. rewrite Hx in Hle.
    pose proof (tally_member f _ _ _ Hj Hy). lia.
  - injection Hj as ->. rewrite Hy in Hle.
    pose proof (tally_member f _ _ _ Hi Hx). lia.
  - f_equal. apply (IH i j); try assumption. destruct (f z); lia.
Qed.

(** What is reached with the class of [lock.py] is reached with the
    class of [locks.py], attribute by attribute. *)
Lemma py_reachable progs c :
  reachable A.monitor progs c ->
  reachable B.monitor progs (Correspondence.to_locks_config c).
Proof.
  intros [sched Hrun]. exists sched.
  change (start B.monitor progs)
    with (Correspondence.to_locks_config (start A.monitor progs)).
  now rewrite Equivalence.same_run, Hrun.
Qed.

Lemma py_step_enabled i pick c :
  Threads.step B.monitor i pick (Correspondence.to_locks_config c) <> None ->
  exists i pick ev c', Threads.step A.monitor i pick c = Some (ev, c').
Proof.
  rewrite Equivalence.same_step.
  destruct (Threads.step A.monitor i pick c) as [[ev c']|] eqn:Hs;
    [|intros Hn; now contradiction Hn].
  intros _. exists i, pick, ev, c'. exact Hs.
Qed.

Lemma wp_safe_reachable progs c :
  reachable B.monitor progs c -> Exclusive.wp_safe c.
Proof.
  revert c. apply reachable_invariant; [|apply Exclusion.wp_safe_step].
  intros Ha. discriminate Ha.
Qed.

(** Among threads that use the lock through [with] blocks, a thread
    inside a write section is alone: no other thread is inside a write
    section and none is inside a read section. *)
Lemma wp_alone kss c i j thi thj :
  reachable B.monitor (map blocks kss) c ->
  pool c !! i = Some thi -> holds Wr thi = true ->
  pool c !! j = Some thj ->
  (holds Wr thj = true -> i = j) /\ holds Rd thj = false.
Proof.
  intros Hc Hi Hwi Hj.
  pose proof (exact_reachable _ _ Hc) as He.
  pose proof (wp_safe_reachable _ _ Hc) as Hs.
  pose proof (tally_member (holds Wr) _ _ _ Hi Hwi) as Hone.
  pose proof (exact_writer _ He) as Hw. pose proof (exact_readers _ He) as Hr.
  unfold flag in Hw. destruct (B._writer_active (lock c)) eqn:Ha; [|lia].
  specialize (Hs Ha). split.
  - intros Hwj. eapply (tally_unique (holds Wr)); try eassumption. lia.
  - apply (tally_zero_none (holds Rd) (pool c) j); [lia|assumption].
Qed.

(** X1. Threads that use a [WriterPriorityRWLock] (of [locks.py] or of
    [lock.py]) through [with] blocks: in every configuration they can
    reach, a thread inside a write section is alone.  No other thread is
    inside a write section and no thread is inside a read section. *)
Theorem X1_writer_priority_exclusion :
  (forall kss c i j thi thj,
     reachable B.monitor (map blocks kss) c ->
     pool c !! i = Some thi -> holds Wr thi = true ->
     pool c !! j = Some thj ->
     (holds Wr thj = true -> i = j) /\ holds Rd thj = false) /\
  (forall kss c i j thi thj,
     reachable A.monitor (map blocks kss) c ->
     pool c !! i = Some thi -> holds Wr thi = true ->
     pool c !! j = Some thj ->
     (holds Wr thj = true -> i = j) /\ holds Rd thj = false).
Proof.
  split; intros kss c i j thi thj Hc Hi Hwi Hj.
  - exact (wp_alone kss c i j thi thj Hc Hi Hwi Hj).
  - exact (wp_alone kss _ i j thi thj (py_reachable _ _ Hc) Hi Hwi Hj).
Qed.

(** A writer inside its section and a reader asleep in front of it. *)
Lemma X1_witness :
  let kss := [[Wr]; [Rd]] in
  let writer := {| th_pc := Running; th_todo := [Release Wr] |} in
  let reader := {| th_pc := Waiting Rd; th_todo := [Release Rd] |} in
  let c :=
    {| lock := {| B._reader_count := 0;
                  B._writer_active := true;
                  B._writer_waiting_count := 0 |};
       pool := [writer; reader] |} in
  reachable B.monitor (map blocks kss) c /\
  pool c !! 0%nat = Some writer /\
  holds Wr writer = true /\
  pool c !! 1%nat = Some reader /\
  (holds Wr reader = true -> 0%nat = 1%nat) /\
  holds Rd reader = false.
Proof.
  intros kss writer reader c.
  assert (reachable B.monitor (map blocks kss) c) as Hc.
  { exists [(0, 0); (1, 0)]%nat. reflexivity. }
  repeat (split; [first [exact Hc | reflexivity]|]).
  exact (proj1 X1_writer_priority_exclusion kss c 0%nat 1%nat writer reader
           Hc eq_refl eq_refl eq_refl).
Defined.

Lemma wp_enabled i pick c :
  step B.monitor i pick c <> None ->
  exists i pick ev c', step B.monitor i pick c = Some (ev, c').
Proof.
  destruct (step B.monitor i pick c) as [[ev c']|] eqn:Hs; [|congruence].
  intros _. exists i, pick, ev, c'. exact Hs.
Qed.

(** Somebody inside a section can leave it. *)
Lemma wp_holder_can_leave k c :
  0 < tally (holds k) (pool c) ->
  exists i pick ev c', step B.monitor i pick c = Some (ev, c').
Proof.
  intros Hk. apply tally_pos_witness in Hk.
  destruct Hk as (i & th & Hi & Hth).
  apply FairLiveness.holder_shape in Hth. destruct Hth as [rest ->].
  destruct (release_step_enabled B.monitor _ _ _ _ Hi) as (pick & ev & c' & Hs).
  exists i, pick, ev, c'. exact Hs.
Qed.

Lemma woken_shape k th :
  woken k th = true -> exists todo,
    th = {| th_pc := Woken k; th_todo := todo |}.
Proof.
  destruct th as [[|k'|k'] todo]; simpl; try discriminate.
  intros Hk. apply bool_decide_eq_true in Hk. subst. eauto.
Qed.

Lemma wp_woken_can_test j k todo c :
  pool c !! j = Some {| th_pc := Woken k; th_todo := todo |} ->
  exists i pick ev c', step B.monitor i pick c = Some (ev, c').
Proof.
  intros Hj. apply (wp_enabled j 0%nat). unfold step. rewrite Hj.
  discriminate.
Qed.

(** A sleeping writer is never the last hope: somebody is inside or a
    notified writer is on its way. *)
Lemma wp_sleeping_writer_progress c j todo :
  exact c ->
  pool c !! j = Some {| th_pc := Waiting Wr; th_todo := todo |} ->
  exists i pick ev c', step B.monitor i pick c = Some (ev, c').
Proof.
  intros He Hj.
  destruct (exact_sleeping_writers _ He _ _ Hj) as [Hr|[Ha|Hk]].
  - apply (wp_holder_can_leave Rd). now rewrite <- (exact_readers _ He).
  - apply (wp_holder_can_leave Wr). rewrite <- (exact_writer _ He), Ha.
    reflexivity.
  - apply tally_pos_witness in Hk. destruct Hk as (i & th & Hi & Hth).
    apply woken_shape in Hth. destruct Hth as [todo' ->].
    eapply wp_woken_can_test, Hi.
Qed.

Lemma pending_shape k th :
  pending k th = true ->
  (exists todo, th = {| th_pc := Waiting k; th_todo := todo |}) \/
  (exists todo, th = {| th_pc := Woken k; th_todo := todo |}).
Proof.
  destruct th as [[|k'|k'] todo]; simpl; try discriminate;
    intros Hk; apply bool_decide_eq_true in Hk; subst; eauto.
Qed.

(** As long as a thread is not through its program, some thread can
    step. *)
Lemma wp_progress c :
  exact c ->
  forall j th,
    pool c !! j = Some th -> finished th = false ->
    exists i pick ev c', step B.monitor i pick c = Some (ev, c').
Proof.
  intros He j [[|k|k] todo] Hj Hth.
  - destruct todo as [|[k|k] rest]; [discriminate| |].
    + apply (wp_enabled j 0%nat). unfold step. rewrite Hj. discriminate.
    + destruct (release_step_enabled B.monitor _ _ _ _ Hj)
        as (pick & ev & c' & Hs).
      exists j, pick, ev, c'. exact Hs.
  - destruct k; [|eapply wp_sleeping_writer_progress; eassumption].
    destruct (exact_sleeping_readers _ He _ _ Hj) as [Ha|Hn].
    + apply (wp_holder_can_leave Wr). rewrite <- (exact_writer _ He), Ha.
      reflexivity.
    + rewrite (exact_waiting _ He) in Hn. apply tally_pos_witness in Hn.
      destruct Hn as (i & th & Hi & Hp).
      apply pending_shape in Hp. destruct Hp as [[todo' ->]|[todo' ->]].
      * eapply wp_sleeping_writer_progress; eassumption.
      * eapply wp_woken_can_test, Hi.
  - eapply wp_woken_can_test, Hj.
Qed.

(** With [with] blocks only, a schedule is no longer than the programs
    allow. *)
Lemma blocks_run_bound {St Cv : Type} `{EqDecision Cv}
    (L : MonitorRWLock St Cv) kss sched c :
  run L sched (start L (map blocks kss)) = Some c ->
  (length sched <= (length kss + 3) * length (concat kss))%nat.
Proof.
  intros Hrun. pose proof (run_potential _ _ _ _ Hrun) as Hp.
  unfold potential in Hp at 2. simpl in Hp.
  rewrite pool_weight_blocks, !List.length_map in Hp. lia.
Qed.

(** X6. Threads that use a [WriterPriorityRWLock] (of [locks.py] or of
    [lock.py]) through a bounded number of [with] blocks never come to a
    halt before each of them is through its program: as long as a thread
    is not finished some thread can take a step, so waking one writer
    with [notify()] instead of all of them loses no wake-up.  Every
    schedule has at most (threads + 3) * blocks steps. *)
Theorem X6_writer_priority_no_deadlock :
  (forall kss sched c,
     run B.monitor sched (start B.monitor (map blocks kss)) = Some c ->
     (length sched <= (length kss + 3) * length (concat kss))%nat /\
     (forall j th,
        pool c !! j = Some th -> finished th = false ->
        exists i pick ev c', step B.monitor i pick c = Some (ev, c'))) /\
  (forall kss sched c,
     run A.monitor sched (start A.monitor (map blocks kss)) = Some c ->
     (length sched <= (length kss + 3) * length (concat kss))%nat /\
     (forall j th,
        pool c !! j = Some th -> finished th = false ->
        exists i pick ev c', step A.monitor i pick c = Some (ev, c'))).
Proof.
  split; intros kss sched c Hrun.
  - split; [exact (blocks_run_bound _ _ _ _ Hrun)|].
    apply wp_progress. apply (exact_reachable kss). now exists sched.
  - split; [exact (blocks_run_bound _ _ _ _ Hrun)|].
    intros j th Hj Hth.
    assert (exact (Correspondence.to_locks_config c)) as He.
    { apply (exact_reachable kss), py_reachable. now exists sched. }
    destruct (wp_progress _ He j th Hj Hth) as (i & pick & ev & c' & Hs).
    apply (py_step_enabled i pick). rewrite Hs. discriminate.
Qed.

(** A writer inside, a writer and a reader asleep. *)
Lemma X6_witness :
  let kss := [[Wr]; [Wr]; [Rd]] in
  let sched := [(0, 0); (1, 0); (2, 0)]%nat in
  let c :=
    {| lock := {| B._reader_count := 0;
                  B._writer_active := true;
                  B._writer_waiting_count := 1 |};
       pool := [ {| th_pc := Running; th_todo := [Release Wr] |};
                 {| th_pc := Waiting Wr; th_todo := [Release Wr] |};
                 {| th_pc := Waiting Rd; th_todo := [Release Rd] |} ] |} in
  run B.monitor sched (start B.monitor (map blocks kss)) = Some c /\
  (length sched <= (length kss + 3) * length (concat kss))%nat /\
  (forall j th,
     pool c !! j = Some th -> finished th = false ->
     exists i pick ev c', step B.monitor i pick c = Some (ev, c')).
Proof.
  intros kss sched c.
  assert (run B.monitor sched (start B.monitor (map blocks kss)) = Some c)
    as Hrun by reflexivity.
  split; [exact Hrun|].
  exact (proj1 X6_writer_priority_no_deadlock kss sched c Hrun).
Defined.

End WriterPriorityRuns.

(* ================================================================= *)
(** * FairRWLock and ReaderPriorityRWLock: exclusion among threads *)

Module ExclusionAmongThreads.

Import ThreadFacts.

Lemma fair_safe_reachable progs c :
  Threads.reachable FairRWLock.monitor progs c -> Exclusive.fair_safe c.
Proof.
  revert c. apply reachable_invariant; [|apply Exclusion.fair_safe_step].
  intros Ha. discriminate Ha.
Qed.

(** X2. Threads that use a [FairRWLock] through [with] blocks: in every
    configuration they can reach, a thread inside a write section is
    alone.  No other thread is inside a write section and no thread is
    inside a read section. *)
Theorem X2_fair_exclusion :
  forall kss c i j thi thj,
    Threads.reachable FairRWLock.monitor (map Threads.blocks kss) c ->
    Threads.pool c !! i = Some thi ->
    Threads.holds Threads.Wr thi = true ->
    Threads.pool c !! j = Some thj ->
    (Threads.holds Threads.Wr thj = true -> i = j) /\
    Threads.holds Threads.Rd thj = false.
Proof.
  intros kss c i j thi thj Hc Hi Hwi Hj.
  pose proof (FairLiveness.counted_reachable _ _ Hc) as He.
  pose proof (fair_safe_reachable _ _ Hc) as Hs.
  pose proof (tally_member (Threads.holds Threads.Wr) _ _ _ Hi Hwi) as Hone.
  pose proof (FairInvariant.counted_writer _ He) as Hw.
  pose proof (FairInvariant.counted_readers _ He) as Hr.
  unfold Threads.flag in Hw.
  destruct (FairRWLock._writer_active (Threads.lock c)) eqn:Ha; [|lia].
  specialize (Hs Ha). split.
  - intros Hwj.
    eapply (WriterPriorityRuns.tally_unique (Threads.holds Threads.Wr));
      try eassumption. lia.
  - apply (tally_zero_none (Threads.holds Threads.Rd) (Threads.pool c) j);
      [lia|assumption].
Qed.

Lemma X2_witness :
  let kss := [[Threads.Wr]; [Threads.Rd]] in
  let writer :=
    {| Threads.th_pc := Threads.Running;
       Threads.th_todo := [Threads.Release Threads.Wr] |} in
  let reader :=
    {| Threads.th_pc := Threads.Waiting Threads.Rd;
       Threads.th_todo := [Threads.Release Threads.Rd] |} in
  let c :=
    {| Threads.lock := {| FairRWLock._readers_active := 0;
                          FairRWLock._writer_active := true;
                          FairRWLock._waiting_count := 1 |};
       Threads.pool := [writer; reader] |} in
  Threads.reachable FairRWLock.monitor (map Threads.blocks kss) c /\
  Threads.pool c !! 0%nat = Some writer /\
  Threads.holds Threads.Wr writer = true /\
  Threads.pool c !! 1%nat = Some reader /\
  (Threads.holds Threads.Wr reader = true -> 0%nat = 1%nat) /\
  Threads.holds Threads.Rd reader = false.
Proof.
  intros kss writer reader c.
  assert (Threads.reachable FairRWLock.monitor (map Threads.blocks kss) c)
    as Hc.
  { exists [(0, 0); (1, 0)]%nat. reflexivity. }
  repeat (split; [first [exact Hc | reflexivity]|]).
  exact (X2_fair_exclusion kss c 0%nat 1%nat writer reader
           Hc eq_refl eq_refl eq_refl).
Defined.

(** X3. Threads that use a [ReaderPriorityRWLock] through [with]
    blocks: in every configuration they can reach, a thread inside a
    write section is alone.  No other thread is inside a write section
    and no thread is inside a read section. *)
Theorem X3_reader_priority_exclusion :
  forall kss c i j thi thj,
    ReaderPriorityThreads.reachable (map Threads.blocks kss) c ->
    ReaderPriorityThreads.pool c !! i = Some thi ->
    ReaderPriorityThreads.holds Threads.Wr thi = true ->
    ReaderPriorityThreads.pool c !! j = Some thj ->
    (ReaderPriorityThreads.holds Threads.Wr thj = true -> i = j) /\
    ReaderPriorityThreads.holds Threads.Rd thj = false.
Proof.
  intros kss c i j thi thj Hc Hi Hwi Hj.
  pose proof (ReaderPriorityFacts.rp_counted_reachable _ _ Hc) as He.
  pose proof (tally_member (ReaderPriorityThreads.holds Threads.Wr)
                _ _ _ Hi Hwi) as Hone.
  pose proof (tally_nonneg (ReaderPriorityThreads.holds Threads.Rd)
                (ReaderPriorityThreads.pool c)) as Hpos.
  pose proof (ReaderPriorityInvariant.counted_gate _ He) as Hg.
  unfold Threads.flag in Hg.
  destruct (Z.ltb_spec 0
              (Threads.tally (ReaderPriorityThreads.holds Threads.Rd)
                 (ReaderPriorityThreads.pool c)));
    destruct (ReaderPriorityRWLock._writer_lock
                (ReaderPriorityThreads.lock c)); try lia.
  split.
  - intros Hwj.
    eapply (WriterPriorityRuns.tally_unique
              (ReaderPriorityThreads.holds Threads.Wr));
      try eassumption. lia.
  - apply (tally_zero_none (ReaderPriorityThreads.holds Threads.Rd)
             (ReaderPriorityThreads.pool c) j); [lia|assumption].
Qed.

Lemma X3_witness :
  let kss := [[Threads.Wr]; [Threads.Rd]] in
  let writer :=
    {| ReaderPriorityThreads.th_pc := ReaderPriorityThreads.Running;
       ReaderPriorityThreads.th_todo := [Threads.Release Threads.Wr] |} in
  let reader :=
    {| ReaderPriorityThreads.th_pc := ReaderPriorityThreads.AtWriterLock;
       ReaderPriorityThreads.th_todo := [Threads.Release Threads.Rd] |} in
  let c :=
    {| ReaderPriorityThreads.lock :=
         {| ReaderPriorityRWLock._monitor := true;
            ReaderPriorityRWLock._reader_count := 1;
            ReaderPriorityRWLock._writer_lock := true |};
       ReaderPriorityThreads.pool := [writer; reader] |} in
  ReaderPriorityThreads.reachable (map Threads.blocks kss) c /\
  ReaderPriorityThreads.pool c !! 0%nat = Some writer /\
  ReaderPriorityThreads.holds Threads.Wr writer = true /\
  ReaderPriorityThreads.pool c !! 1%nat = Some reader /\
  (ReaderPriorityThreads.holds Threads.Wr reader = true -> 0%nat = 1%nat) /\
  ReaderPriorityThreads.holds Threads.Rd reader = false.
Proof.
  intros kss writer reader c.
  assert (ReaderPriorityThreads.reachable (map Threads.blocks kss) c) as Hc.
  { exists [0; 1]%nat. reflexivity. }
  repeat (split; [first [exact Hc | reflexivity]|]).
  exact (X3_reader_priority_exclusion kss c 0%nat 1%nat writer reader
           Hc eq_refl eq_refl eq_refl).
Defined.

End ExclusionAmongThreads.

(* ================================================================= *)
(** * When every thread is through, the lock is as new *)

Module Quiescence.

Import ThreadFacts.

Lemma tally_none {T} (f : T -> bool) (p : list T) :
  (forall j th, p !! j = Some th -> f th = false) -> Threads.tally f p = 0.
Proof.
  induction p as [|x p IH]; intros Hf; simpl; [reflexivity|].
  rewrite (Hf 0%nat x eq_refl), IH; [reflexivity|].
  intros j th Hj. exact (Hf (S j) th Hj).
Qed.

Lemma finished_outside p (f : Threads.thread -> bool) :
  (forall th, Threads.finished th = true -> f th = false) ->
  (forall j th, p !! j = Some th -> Threads.finished th = true) ->
  Threads.tally f p = 0.
Proof.
  intros Hf Hp. apply tally_none. intros j th Hj. apply Hf, (Hp j), Hj.
Qed.

Lemma finished_holds k th :
  Threads.finished th = true -> Threads.holds k th = false.
Proof.
  destruct th as [[|k'|k'] [|o todo]]; cbn; intros Hf;
    first [discriminate Hf | reflexivity].
Qed.

Lemma finished_pending k th :
  Threads.finished th = true -> Threads.pending k th = false.
Proof.
  destruct th as [[|k'|k'] [|o todo]]; cbn; intros Hf;
    first [discriminate Hf | reflexivity].
Qed.

Lemma rp_finished_holds k th :
  ReaderPriorityHistories.finished th = true ->
  ReaderPriorityThreads.holds k th = false.
Proof.
  destruct th as [[|] [|o todo]]; cbn; intros Hf;
    first [discriminate Hf | reflexivity].
Qed.

Lemma rp_finished_parked th :
  ReaderPriorityHistories.finished th = true ->
  ReaderPriorityThreads.parked th = false.
Proof.
  destruct th as [[|] [|o todo]]; cbn; intros Hf;
    first [discriminate Hf | reflexivity].
Qed.

Lemma wp_quiet kss c :
  Threads.reachable WriterPriorityRWLock.monitor (map Threads.blocks kss) c ->
  (forall j th, Threads.pool c !! j = Some th ->
                Threads.finished th = true) ->
  Threads.lock c = WriterPriorityRWLock.__init__.
Proof.
  intros Hc Hdone.
  pose proof (WriterPriorityExactFacts.exact_reachable _ _ Hc) as He.
  pose proof (WriterPriorityExact.exact_readers _ He) as Hr.
  pose proof (WriterPriorityExact.exact_writer _ He) as Hw.
  pose proof (WriterPriorityExact.exact_waiting _ He) as Hn.
  rewrite (finished_outside _ _ (finished_holds _) Hdone) in Hr.
  rewrite (finished_outside _ _ (finished_holds _) Hdone) in Hw.
  rewrite (finished_outside _ _ (finished_pending _) Hdone) in Hn.
  destruct (Threads.lock c) as [n [] w]; simpl in *;
    unfold Threads.flag in Hw; try discriminate.
  subst. reflexivity.
Qed.

(** X4. When every thread has left its last [with] block, each of the
    four lock classes is in the state [__init__] gave it: counters at
    zero, no writer active, monitor and writer lock unlocked.  Nothing a
    thread did to the lock outlives its blocks. *)
Theorem X4_quiet_lock_is_new :
  (forall kss c,
     Threads.reachable WriterPriorityRWLock.monitor
       (map Threads.blocks kss) c ->
     (forall j th, Threads.pool c !! j = Some th ->
                   Threads.finished th = true) ->
     Threads.lock c = WriterPriorityRWLock.__init__) /\
  (forall kss c,
     Threads.reachable lock_py.WriterPriorityRWLock.monitor
       (map Threads.blocks kss) c ->
     (forall j th, Threads.pool c !! j = Some th ->
                   Threads.finished th = true) ->
     Threads.lock c = lock_py.WriterPriorityRWLock.__init__) /\
  (forall kss c,
     Threads.reachable FairRWLock.monitor (map Threads.blocks kss) c ->
     (forall j th, Threads.pool c !! j = Some th ->
                   Threads.finished th = true) ->
     Threads.lock c = FairRWLock.__init__) /\
  (forall kss c,
     ReaderPriorityThreads.reachable (map Threads.blocks kss) c ->
     (forall j th, ReaderPriorityThreads.pool c !! j = Some th ->
                   ReaderPriorityHistories.finished th = true) ->
     ReaderPriorityThreads.lock c = ReaderPriorityRWLock.__init__).
Proof.
  split; [|split; [|split]]; intros kss c Hc Hdone.
  - now apply (wp_quiet kss).
  - pose proof (wp_quiet kss _ (WriterPriorityRuns.py_reachable _ _ Hc) Hdone)
      as Hq.
    simpl in Hq. destruct (Threads.lock c) as [n a w].
    injection Hq as -> -> ->. reflexivity.
  - pose proof (FairLiveness.counted_reachable _ _ Hc) as He.
    pose proof (FairInvariant.counted_readers _ He) as Hr.
    pose proof (FairInvariant.counted_writer _ He) as Hw.
    pose proof (FairInvariant.counted_waiting _ He) as Hn.
    rewrite (finished_outside _ _ (finished_holds _) Hdone) in Hr.
    rewrite (finished_outside _ _ (finished_holds _) Hdone) in Hw.
    rewrite (finished_outside _ _ (finished_pending Threads.Rd) Hdone) in Hn.
    rewrite (finished_outside _ _ (finished_pending Threads.Wr) Hdone) in Hn.
    destruct (Threads.lock c) as [n [] w]; simpl in *;
      unfold Threads.flag in Hw; try discriminate.
    subst. reflexivity.
  - pose proof (ReaderPriorityFacts.rp_counted_reachable _ _ Hc) as He.
    pose proof (ReaderPriorityInvariant.counted_readers _ He) as Hr.
    pose proof (ReaderPriorityInvariant.counted_monitor _ He) as Hm.
    pose proof (ReaderPriorityInvariant.counted_gate _ He) as Hg.
    assert (forall k,
              Threads.tally (ReaderPriorityThreads.holds k)
                (ReaderPriorityThreads.pool c) = 0) as Hk.
    { intros k. apply tally_none. intros j th Hj.
      apply rp_finished_holds, (Hdone j), Hj. }
    assert (Threads.tally ReaderPriorityThreads.parked
              (ReaderPriorityThreads.pool c) = 0) as Hp.
    { apply tally_none. intros j th Hj.
      apply rp_finished_parked, (Hdone j), Hj. }
    rewrite !Hk, ?Hp in *. simpl in Hg.
    destruct (ReaderPriorityThreads.lock c) as [[] n []]; simpl in *;
      unfold Threads.flag in *; try discriminate.
    subst. reflexivity.
Qed.

(** A reader and a writer, one after the other. *)
Lemma X4_witness :
  let kss := [[Threads.Rd]; [Threads.Wr]] in
  let c :=
    {| Threads.lock := FairRWLock.__init__;
       Threads.pool :=
         [ {| Threads.th_pc := Threads.Running; Threads.th_todo := [] |};
           {| Threads.th_pc := Threads.Running; Threads.th_todo := [] |} ] |} in
  Threads.reachable FairRWLock.monitor (map Threads.blocks kss) c /\
  (forall j th, Threads.pool c !! j = Some th ->
                Threads.finished th = true) /\
  Threads.lock c = FairRWLock.__init__.
Proof.
  intros kss c.
  assert (Threads.reachable FairRWLock.monitor (map Threads.blocks kss) c)
    as Hc.
  { exists [(0, 0); (0, 0); (1, 0); (1, 0)]%nat. reflexivity. }
  assert (forall j th, Threads.pool c !! j = Some th ->
                       Threads.finished th = true) as Hdone.
  { intros [|[|j]] th; simpl; intros [= <-]; reflexivity. }
  repeat (split; [assumption|]).
  exact (proj1 (proj2 (proj2 X4_quiet_lock_is_new)) kss c Hc Hdone).
Defined.

End Quiescence.

(* ================================================================= *)
(** * A [with] block gives the lock back as it found it *)

Module RoundTrip.

Lemma wp_read_back self s1 :
  run_alone WriterPriorityRWLock._read_acquire self = (Py.Returned tt, s1) ->
  fst (WriterPriorityRWLock._read_release s1) = self.
Proof.
  destruct self as [n a w]. unfold run_alone. simpl.
  destruct (a || (0 <? w)); [discriminate|]. intros [= <-].
  unfold WriterPriorityRWLock._read_release. simpl.
  destruct (_ && _); simpl; f_equal; lia.
Qed.

Lemma wp_write_back self s1 :
  run_alone WriterPriorityRWLock._write_acquire self = (Py.Returned tt, s1) ->
  fst (WriterPriorityRWLock._write_release s1) = self.
Proof.
  destruct self as [n a w]. unfold run_alone. simpl.
  destruct ((0 <? n) || a) eqn:Hg; [discriminate|]. intros [= <-].
  tests. simpl in *. subst a.
  unfold WriterPriorityRWLock._write_release. simpl.
  destruct (0 <? _); simpl; f_equal; lia.
Qed.

Lemma py_read_back self s1 :
  run_alone lock_py.WriterPriorityRWLock._read_acquire self
    = (Py.Returned tt, s1) ->
  fst (lock_py.WriterPriorityRWLock._read_release s1) = self.
Proof.
  destruct self as [n a w]. unfold run_alone. simpl.
  destruct (a || (0 <? w)); [discriminate|]. intros [= <-].
  unfold lock_py.WriterPriorityRWLock._read_release. simpl.
  destruct (_ && _); simpl; f_equal; lia.
Qed.

Lemma py_write_back self s1 :
  run_alone lock_py.WriterPriorityRWLock._write_acquire self
    = (Py.Returned tt, s1) ->
  fst (lock_py.WriterPriorityRWLock._write_release s1) = self.
Proof.
  destruct self as [n a w]. unfold run_alone. simpl.
  destruct ((0 <? n) || a) eqn:Hg; [discriminate|]. intros [= <-].
  tests. simpl in *. subst a.
  unfold lock_py.WriterPriorityRWLock._write_release. simpl.
  destruct (0 <? _); simpl; f_equal; lia.
Qed.

Lemma fair_read_back self s1 :
  run_alone FairRWLock._read_acquire self = (Py.Returned tt, s1) ->
  fst (FairRWLock._read_release s1) = self.
Proof.
  destruct self as [n a w]. unfold run_alone. simpl.
  destruct a; [discriminate|]. intros [= <-].
  unfold FairRWLock._read_release. simpl.
  destruct (_ && _); simpl; f_equal; lia.
Qed.

Lemma fair_write_back self s1 :
  run_alone FairRWLock._write_acquire self = (Py.Returned tt, s1) ->
  fst (FairRWLock._write_release s1) = self.
Proof.
  destruct self as [n a w]. unfold run_alone. simpl.
  destruct ((0 <? n) || a) eqn:Hg; [discriminate|]. intros [= <-].
  tests. simpl in *. subst a.
  unfold FairRWLock._write_release. simpl.
  destruct (0 <? _); simpl; f_equal; lia.
Qed.

Lemma rp_read_back self s1 :
  ReaderPriorityRWLock._read_acquire self = (Py.Returned tt, s1) ->
  ReaderPriorityRWLock._read_release s1 = (Py.Returned tt, self).
Proof.
  rewrite ReaderPriorityFacts._read_acquire_eq,
    ReaderPriorityFacts._read_release_eq.
  destruct self as [[] n g]; simpl; [discriminate|].
  destruct (Z.eqb_spec (n + 1) 1) as [H1|H1].
  - destruct g; [discriminate|]. intros [= <-]. simpl.
    destruct (Z.eqb_spec (n + 1 - 1) 0); [|lia]. repeat f_equal. lia.
  - intros [= <-]. simpl.
    destruct (Z.eqb_spec (n + 1 - 1) 0); [lia|]. repeat f_equal. lia.
Qed.

Lemma rp_write_back self s1 :
  ReaderPriorityRWLock._write_acquire self = (Py.Returned tt, s1) ->
  ReaderPriorityRWLock._write_release s1 = (Py.Returned tt, self).
Proof.
  rewrite ReaderPriorityFacts._write_acquire_eq,
    ReaderPriorityFacts._write_release_eq.
  destruct self as [m n []]; simpl; [discriminate|].
  intros [= <-]. reflexivity.
Qed.

Lemma monitor_block_back {St Cv R} (a : wait_loop St Cv)
    (rel : St -> St * wake Cv) (body : Py.M St R) self s1 r :
  (forall s, run_alone a self = (Py.Returned tt, s) -> fst (rel s) = self) ->
  run_alone a self = (Py.Returned tt, s1) ->
  body s1 = (r, s1) -> r <> Py.Hangs ->
  Py.with_context (run_alone a) (run_release rel) body self = (r, self).
Proof.
  intros Hback He Hb Hr.
  rewrite (Scoped.with_context_exit _ _ _ _ _ _ _ He Hb Hr).
  unfold run_release. now rewrite (Hback _ He).
Qed.

Lemma rp_block_back {R} (enter leave : Py.M ReaderPriorityRWLock.state unit)
    (body : Py.M ReaderPriorityRWLock.state R) self s1 r :
  (forall s, enter self = (Py.Returned tt, s) ->
             leave s = (Py.Returned tt, self)) ->
  enter self = (Py.Returned tt, s1) ->
  body s1 = (r, s1) -> r <> Py.Hangs ->
  Py.with_context enter leave body self = (r, self).
Proof.
  intros Hback He Hb Hr.
  rewrite (Scoped.with_context_exit _ _ _ _ _ _ _ He Hb Hr).
  now rewrite (Hback _ He).
Qed.

(** X5. For each of the four classes, [read()] and [write()] give the
    lock back as they found it: when the acquire returns at once and the
    critical section returns or raises without touching the lock, the
    block ends with the section's outcome and every attribute of the
    lock has the value it had before the block, whatever that state
    was. *)
Theorem X5_blocks_give_back :
  Blocks.gives_back (@WriterPriorityRWLock.read)
    (run_alone WriterPriorityRWLock._read_acquire) /\
  Blocks.gives_back (@WriterPriorityRWLock.write)
    (run_alone WriterPriorityRWLock._write_acquire) /\
  Blocks.gives_back (@lock_py.WriterPriorityRWLock.read)
    (run_alone lock_py.WriterPriorityRWLock._read_acquire) /\
  Blocks.gives_back (@lock_py.WriterPriorityRWLock.write)
    (run_alone lock_py.WriterPriorityRWLock._write_acquire) /\
  Blocks.gives_back (@FairRWLock.read) (run_alone FairRWLock._read_acquire) /\
  Blocks.gives_back (@FairRWLock.write)
    (run_alone FairRWLock._write_acquire) /\
  Blocks.gives_back (@ReaderPriorityRWLock.read)
    ReaderPriorityRWLock._read_acquire /\
  Blocks.gives_back (@ReaderPriorityRWLock.write)
    ReaderPriorityRWLock._write_acquire.
Proof.
  repeat match goal with |- _ /\ _ => split end;
    intros R body self s1 r He Hb Hr.
  - apply (monitor_block_back _ _ _ _ s1); auto using wp_read_back.
  - apply (monitor_block_back _ _ _ _ s1); auto using wp_write_back.
  - apply (monitor_block_back _ _ _ _ s1); auto using py_read_back.
  - apply (monitor_block_back _ _ _ _ s1); auto using py_write_back.
  - apply (monitor_block_back _ _ _ _ s1); auto using fair_read_back.
  - apply (monitor_block_back _ _ _ _ s1); auto using fair_write_back.
  - apply (rp_block_back _ _ _ _ s1); auto using rp_read_back.
  - apply (rp_block_back _ _ _ _ s1); auto using rp_write_back.
Qed.

(** A third reader comes and goes while two are inside, and its section
    raises. *)
Lemma X5_witness :
  let self := {| ReaderPriorityRWLock._monitor := false;
                 ReaderPriorityRWLock._reader_count := 2;
                 ReaderPriorityRWLock._writer_lock := true |} in
  let s1 := {| ReaderPriorityRWLock._monitor := false;
               ReaderPriorityRWLock._reader_count := 3;
               ReaderPriorityRWLock._writer_lock := true |} in
  let body : Py.M ReaderPriorityRWLock.state unit :=
    fun s => (Py.Raised (Py.CallerError 1), s) in
  ReaderPriorityRWLock._read_acquire self = (Py.Returned tt, s1) /\
  body s1 = (Py.Raised (Py.CallerError 1), s1) /\
  Py.Raised (Py.CallerError 1) <> @Py.Hangs unit /\
  ReaderPriorityRWLock.read body self = (Py.Raised (Py.CallerError 1), self).
Proof.
  intros self s1 body.
  assert (ReaderPriorityRWLock._read_acquire self = (Py.Returned tt, s1))
    as He by reflexivity.
  assert (body s1 = (Py.Raised (Py.CallerError 1), s1)) as Hb by reflexivity.
  assert (Py.Raised (Py.CallerError 1) <> @Py.Hangs unit) as Hr
    by discriminate.
  repeat (split; [assumption|]).
  exact (proj1 (proj2 (proj2 (proj2 (proj2 (proj2 (proj2
           X5_blocks_give_back))))))
           unit body self s1 _ He Hb Hr).
Defined.

End RoundTrip.

(* ================================================================= *)
(** * ReaderPriorityRWLock: progress among threads *)

Module ReaderPriorityRuns.

Import ThreadFacts.
Import ReaderPriorityRWLock ReaderPriorityThreads ReaderPriorityInvariant.
Import ReaderPriorityFacts ReaderPriorityHistories ReaderPriorityExact.

Local Open Scope Z_scope.

Lemma rp_exact_step i c ev c' :
  exact c -> step i c = Some (ev, c') -> exact c'.
Proof.
  intros [Hc Hx] Hs.
  destruct (rp_counted_step _ _ _ _ Hc Hs) as [Hc' Hnot].
  split; [exact Hc'|]. clear Hc'.
  destruct Hc as [Hb Hn Hm Hg]. revert Hs. unfold step.
  destruct (pool c !! i) as [[p todo]|] eqn:Hi; [|discriminate].
  pose proof (Forall_lookup_1 _ _ _ _ Hb Hi) as Hth.
  pose proof (tally_nonneg parked (pool c)).
  pose proof (tally_nonneg (holds Threads.Rd) (pool c)).
  simpl. destruct p.
  - destruct todo as [|[[|]|[|]] rest]; [discriminate|..]; simpl;
      rewrite ?_read_acquire_eq, ?_read_release_eq, ?_write_acquire_eq,
        ?_write_release_eq;
      [apply rp_bracketed_acquire in Hth|apply rp_bracketed_acquire in Hth
      |apply rp_bracketed_release in Hth|apply rp_bracketed_release in Hth];
      destruct Hth as [ks ->];
      destruct (lock c) as [[] n []]; simpl in *;
      repeat match goal with
      | |- context [if ?b then _ else _] => destruct b eqn:?; simpl
      end;
      try discriminate; intros [= <- <-];
      try (exfalso; exact (Hnot _ eq_refl));
      simpl; rewrite !(tally_insert _ _ _ _ _ Hi); simpl;
      rewrite ?rp_holds_blocks; counters.
  - rewrite _read_acquire_resume_eq.
    pose proof (tally_member parked _ _ _ Hi eq_refl).
    destruct (lock c) as [[] n []]; simpl in *; try discriminate;
      intros [= <- <-]; try (exfalso; exact (Hnot _ eq_refl));
      simpl; rewrite !(tally_insert _ _ _ _ _ Hi); simpl; counters.
Qed.

Lemma rp_exact_run sched c c' :
  exact c -> run sched c = Some c' -> exact c'.
Proof.
  revert c. induction sched as [|i sched IH]; simpl; intros c Hc.
  - now intros [= <-].
  - destruct (step i c) as [[ev c1]|] eqn:Hs; [|discriminate].
    apply IH. eapply rp_exact_step; eassumption.
Qed.

Lemma rp_exact_start kss : exact (start (map Threads.blocks kss)).
Proof.
  split; [apply rp_counted_start|]. simpl.
  rewrite rp_nobody_inside; [lia|reflexivity].
Qed.

Lemma rp_weight_insert (p : list thread) i th th' :
  p !! i = Some th ->
  (pool_weight (<[i := th']> p) + thread_weight th =
   pool_weight p + thread_weight th')%nat.
Proof.
  revert i. induction p as [|x p IH]; intros [|i] Hi; simpl in *;
    try discriminate.
  - injection Hi as ->. lia.
  - specialize (IH _ Hi). lia.
Qed.

(** Every step uses up weight. *)
Lemma rp_step_weight i c ev c' :
  step i c = Some (ev, c') ->
  (S (pool_weight (pool c')) <= pool_weight (pool c))%nat.
Proof.
  unfold step.
  destruct (pool c !! i) as [[p todo]|] eqn:Hi; [|discriminate].
  simpl. destruct p.
  - destruct todo as [|o rest]; [discriminate|].
    destruct (method o (lock c)) as [[[]|e|] s];
      [| |destruct (_ && _); [|discriminate]];
      intros [= <- <-]; simpl;
      match goal with
      | |- context [<[_ := ?th']> _] =>
          pose proof (rp_weight_insert _ _ _ th' Hi) as Hins
      end; unfold thread_weight in Hins; simpl in Hins; lia.
  - destruct (_read_acquire_resume (lock c)) as [[[]|e|] s];
      [| |discriminate];
      intros [= <- <-]; simpl;
      match goal with
      | |- context [<[_ := ?th']> _] =>
          pose proof (rp_weight_insert _ _ _ th' Hi) as Hins
      end; unfold thread_weight in Hins; simpl in Hins; lia.
Qed.

Lemma rp_run_weight sched c c' :
  run sched c = Some c' ->
  (length sched + pool_weight (pool c') <= pool_weight (pool c))%nat.
Proof.
  revert c. induction sched as [|i sched IH]; simpl; intros c.
  - intros [= <-]. lia.
  - destruct (step i c) as [[ev c1]|] eqn:Hs; [|discriminate].
    intros Hrun. specialize (IH _ Hrun). apply rp_step_weight in Hs. lia.
Qed.

Lemma rp_weight_start kss :
  pool_weight (pool (start (map Threads.blocks kss))) =
  (4 * length (concat kss))%nat.
Proof.
  simpl. induction kss as [|ks kss IH]; simpl; [reflexivity|].
  rewrite IH, length_app. unfold thread_weight. simpl.
  assert (length (Threads.blocks ks) = (2 * length ks)%nat) as ->.
  { induction ks as [|k ks IHks]; simpl; [reflexivity|]. rewrite IHks. lia. }
  lia.
Qed.

Lemma rp_enabled i c :
  step i c <> None -> exists i ev c', step i c = Some (ev, c').
Proof.
  destruct (step i c) as [[ev c']|] eqn:Hs; [|congruence].
  intros _. exists i, ev, c'. exact Hs.
Qed.

Lemma rp_holder_shape k th :
  holds k th = true -> exists rest,
    th = {| th_pc := Running; th_todo := Threads.Release k :: rest |}.
Proof.
  destruct th as [[|] [|[k'|k'] rest]]; simpl; try discriminate.
  intros Hk. apply bool_decide_eq_true in Hk. subst. eauto.
Qed.

(** A writer inside can always leave. *)
Lemma rp_writer_can_leave c :
  0 < Threads.tally (holds Threads.Wr) (pool c) ->
  exists i ev c', step i c = Some (ev, c').
Proof.
  intros Hk. apply tally_pos_witness in Hk.
  destruct Hk as (i & th & Hi & Hth).
  apply rp_holder_shape in Hth. destruct Hth as [rest ->].
  apply (rp_enabled i). unfold step. rewrite Hi. simpl.
  rewrite _write_release_eq. destruct (_writer_lock (lock c)); discriminate.
Qed.

(** A reader inside can leave once the monitor is free. *)
Lemma rp_reader_can_leave c :
  _monitor (lock c) = false ->
  0 < Threads.tally (holds Threads.Rd) (pool c) ->
  exists i ev c', step i c = Some (ev, c').
Proof.
  intros Hm Hk. apply tally_pos_witness in Hk.
  destruct Hk as (i & th & Hi & Hth).
  apply rp_holder_shape in Hth. destruct Hth as [rest ->].
  apply (rp_enabled i). unfold step. rewrite Hi. simpl.
  rewrite _read_release_eq, Hm.
  destruct (_ =? _); [destruct (_writer_lock (lock c))|]; discriminate.
Qed.

Lemma rp_parked_shape th :
  parked th = true -> exists rest,
    th = {| th_pc := AtWriterLock; th_todo := rest |}.
Proof. destruct th as [[|] rest]; simpl; try discriminate. eauto. Qed.

(** As long as a thread is not through its program, some thread can
    step. *)
Lemma rp_progress c :
  exact c ->
  forall j th,
    pool c !! j = Some th -> finished th = false ->
    exists i ev c', step i c = Some (ev, c').
Proof.
  intros [[Hb Hn Hm Hg] Hx] j th Hj Hth.
  pose proof (tally_nonneg parked (pool c)) as Hp0.
  pose proof (tally_nonneg (holds Threads.Rd) (pool c)) as Hr0.
  pose proof (tally_nonneg (holds Threads.Wr) (pool c)) as Hw0.
  destruct (_monitor (lock c)) eqn:Em.
  - (* a reader sleeps at the writer lock *)
    assert (0 < Threads.tally parked (pool c)) as Hp
      by (unfold Threads.flag in Hm; lia).
    specialize (Hx Hp). rewrite Hx in Hg. simpl in Hg.
    destruct (_writer_lock (lock c)) eqn:Eg.
    + apply rp_writer_can_leave. unfold Threads.flag in Hg. lia.
    + apply tally_pos_witness in Hp. destruct Hp as (i & th' & Hi & Hth').
      apply rp_parked_shape in Hth'. destruct Hth' as [rest ->].
      apply (rp_enabled i). unfold step. rewrite Hi. simpl.
      rewrite _read_acquire_resume_eq, Eg, Em. discriminate.
  - assert (Threads.tally parked (pool c) = 0) as Hp
      by (unfold Threads.flag in Hm; lia).
    destruct th as [[|] todo].
    + destruct todo as [|[[|]|[|]] rest]; [discriminate|..].
      * apply (rp_enabled j). unfold step. rewrite Hj. simpl.
        rewrite _read_acquire_eq, Em.
        destruct (_ =? _); [destruct (_writer_lock (lock c))|];
          simpl; discriminate.
      * destruct (_writer_lock (lock c)) eqn:Eg.
        -- unfold Threads.flag in Hg.
           destruct (Z.ltb_spec 0 (Threads.tally (holds Threads.Rd) (pool c))).
           ++ now apply rp_reader_can_leave.
           ++ apply rp_writer_can_leave. lia.
        -- apply (rp_enabled j). unfold step. rewrite Hj. simpl.
           rewrite _write_acquire_eq, Eg. discriminate.
      * apply rp_reader_can_leave; [exact Em|].
        pose proof (tally_member (holds Threads.Rd) _ _ _ Hj eq_refl). lia.
      * apply rp_writer_can_leave.
        pose proof (tally_member (holds Threads.Wr) _ _ _ Hj eq_refl). lia.
    + pose proof (tally_member parked _ _ _ Hj eq_refl). lia.
Qed.

(** X7. Threads that use a [ReaderPriorityRWLock] through a bounded
    number of [with] blocks never come to a halt before each of them is
    through its program: as long as a thread is not finished some thread
    can take a step, also while the first reader sleeps at the writer
    lock with the monitor in its hands.  Every schedule has at most four
    steps for each block. *)
Theorem X7_reader_priority_no_deadlock :
  forall kss sched c,
    run sched (start (map Threads.blocks kss)) = Some c ->
    (length sched <= 4 * length (concat kss))%nat /\
    (forall j th,
       pool c !! j = Some th -> finished th = false ->
       exists i ev c', step i c = Some (ev, c')).
Proof.
  intros kss sched c Hrun. split.
  - pose proof (rp_run_weight _ _ _ Hrun) as Hw.
    rewrite rp_weight_start in Hw. lia.
  - apply rp_progress. eapply rp_exact_run; [apply rp_exact_start|exact Hrun].
Qed.

(** A writer inside, the first reader asleep at the writer lock, a
    second reader in front of the monitor. *)
Lemma X7_witness :
  let kss := [[Threads.Wr]; [Threads.Rd]; [Threads.Rd]] in
  let sched := [0; 1]%nat in
  let c :=
    {| lock := {| _monitor := true; _reader_count := 1;
                  _writer_lock := true |};
       pool := [ {| th_pc := Running;
                    th_todo := [Threads.Release Threads.Wr] |};
                 {| th_pc := AtWriterLock;
                    th_todo := [Threads.Release Threads.Rd] |};
                 {| th_pc := Running;
                    th_todo := Threads.blocks [Threads.Rd] |} ] |} in
  run sched (start (map Threads.blocks kss)) = Some c /\
  (length sched <= 4 * length (concat kss))%nat /\
  (forall j th,
     pool c !! j = Some th -> finished th = false ->
     exists i ev c', step i c = Some (ev, c')).
Proof.
  intros kss sched c.
  assert (run sched (start (map Threads.blocks kss)) = Some c) as Hrun
    by reflexivity.
  split; [exact Hrun|].
  exact (X7_reader_priority_no_deadlock kss sched c Hrun).
Defined.

End ReaderPriorityRuns.

(* ================================================================= *)
(** * Streams of readers and of writers *)

Module StreamFacts.

Import Threads Histories Streams.

Lemma occurrences_app ev evs1 evs2 :
  occurrences ev (evs1 ++ evs2) =
  (occurrences ev evs1 + occurrences ev evs2)%nat.
Proof.
  induction evs1 as [|[i ev'] evs1 IH]; simpl; [reflexivity|].
  rewrite IH. lia.
Qed.

Section Facts.

Context {St Cv : Type} `{EqDecision Cv} (L : MonitorRWLock St Cv).

Lemma run_app s1 s2 c :
  run L (s1 ++ s2) c =
  match run L s1 c with
  | Some c' => run L s2 c'
  | None => None
  end.
Proof.
  revert c. induction s1 as [|[i pick] s1 IH]; intros c; simpl;
    [reflexivity|].
  destruct (step L i pick c) as [[ev c1]|]; [apply IH|reflexivity].
Qed.

Lemma trail_app s1 s2 c c' :
  run L s1 c = Some c' ->
  trail L (s1 ++ s2) c = trail L s1 c ++ trail L s2 c'.
Proof.
  revert c. induction s1 as [|[i pick] s1 IH]; intros c; simpl.
  - now intros [= <-].
  - destruct (step L i pick c) as [[ev c1]|]; [|discriminate].
    intros Hrun. simpl. f_equal. now apply IH.
Qed.

Lemma events_app s1 s2 c c' :
  run L s1 c = Some c' ->
  events L (s1 ++ s2) c = events L s1 c ++ events L s2 c'.
Proof.
  revert c. induction s1 as [|[i pick] s1 IH]; intros c; simpl.
  - now intros [= <-].
  - destruct (step L i pick c) as [[ev c1]|]; [|discriminate].
    intros Hrun. simpl. f_equal. now apply IH.
Qed.

(** A round that leads from each configuration of a family to the next,
    keeps a property and lets a thing happen [k] times, does so [n]
    times over. *)
Lemma rounds_history (K : nat -> config) (P : config -> Prop) round ev k :
  (forall m, run L round (K (S m)) = Some (K m)) ->
  (forall m, Forall P (trail L round (K (S m)))) ->
  (forall m, occurrences ev (events L round (K (S m))) = k) ->
  forall n,
    run L (rounds n round) (K n) = Some (K 0%nat) /\
    Forall P (trail L (rounds n round) (K n)) /\
    occurrences ev (events L (rounds n round) (K n)) = (n * k)%nat.
Proof.
  intros Hrun HP Hev. induction n as [|n (IHr & IHp & IHe)]; simpl.
  - split; [reflexivity|]. split; [constructor|reflexivity].
  - rewrite run_app, (trail_app _ _ _ _ (Hrun n)),
      (events_app _ _ _ _ (Hrun n)), Hrun, occurrences_app, Hev, IHe.
    split; [assumption|]. split; [|lia].
    apply Forall_app. split; [apply HP|exact IHp].
Qed.

End Facts.


(** X9. [WriterPriorityRWLock] (of [locks.py] and of [lock.py]) can keep
    a reader out for as long as writers keep coming.  For every [n]: a
    writer is inside, a reader arrives and goes to sleep, and then two
    writers take turns, each arriving before the other has left and
    woken by it.  All [6 * n] steps are taken, [2 * n] write sections are
    completed, and at every one of these steps the reader is still
    asleep: no release finds [_writer_waiting_count] at zero, so
    [_readers_ok.notify_all()] is never called. *)
Theorem X9_writers_starve_reader :
  forall n,
    (run WriterPriorityRWLock.monitor [(1, 0); (0, 0)]%nat
       (start WriterPriorityRWLock.monitor (writers_stream n))
     = Some (wp_reader_asleep n) /\
     run WriterPriorityRWLock.monitor (rounds n handover)
       (wp_reader_asleep n)
     = Some (wp_reader_asleep 0) /\
     Forall reader_sleeps
       (trail WriterPriorityRWLock.monitor (rounds n handover)
          (wp_reader_asleep n)) /\
     occurrences (Released Wr)
       (events WriterPriorityRWLock.monitor (rounds n handover)
          (wp_reader_asleep n))
     = (n * 2)%nat) /\
    (run lock_py.WriterPriorityRWLock.monitor [(1, 0); (0, 0)]%nat
       (start lock_py.WriterPriorityRWLock.monitor (writers_stream n))
     = Some (py_reader_asleep n) /\
     run lock_py.WriterPriorityRWLock.monitor (rounds n handover)
       (py_reader_asleep n)
     = Some (py_reader_asleep 0) /\
     Forall reader_sleeps
       (trail lock_py.WriterPriorityRWLock.monitor (rounds n handover)
          (py_reader_asleep n)) /\
     occurrences (Released Wr)
       (events lock_py.WriterPriorityRWLock.monitor (rounds n handover)
          (py_reader_asleep n))
     = (n * 2)%nat).
Proof.
  intros n. split; (split; [reflexivity|]).
  - apply (rounds_history WriterPriorityRWLock.monitor wp_reader_asleep).
    + intros m. reflexivity.
    + intros m. repeat constructor.
    + intros m. reflexivity.
  - apply (rounds_history lock_py.WriterPriorityRWLock.monitor
             py_reader_asleep).
    + intros m. reflexivity.
    + intros m. repeat constructor.
    + intros m. reflexivity.
Qed.

Lemma rp_run_app s1 s2 c :
  ReaderPriorityThreads.run (s1 ++ s2) c =
  match ReaderPriorityThreads.run s1 c with
  | Some c' => ReaderPriorityThreads.run s2 c'
  | None => None
  end.
Proof.
  revert c. induction s1 as [|i s1 IH]; intros c; simpl; [reflexivity|].
  destruct (ReaderPriorityThreads.step i c) as [[ev c1]|];
    [apply IH|reflexivity].
Qed.

Lemma rp_trail_app s1 s2 c c' :
  ReaderPriorityThreads.run s1 c = Some c' ->
  ReaderPriorityHistories.trail (s1 ++ s2) c =
  ReaderPriorityHistories.trail s1 c ++ ReaderPriorityHistories.trail s2 c'.
Proof.
  revert c. induction s1 as [|i s1 IH]; intros c; simpl.
  - now intros [= <-].
  - destruct (ReaderPriorityThreads.step i c) as [[ev c1]|]; [|discriminate].
    intros Hrun. simpl. f_equal. now apply IH.
Qed.

Lemma rp_events_app s1 s2 c c' :
  ReaderPriorityThreads.run s1 c = Some c' ->
  ReaderPriorityHistories.events (s1 ++ s2) c =
  ReaderPriorityHistories.events s1 c ++ ReaderPriorityHistories.events s2 c'.
Proof.
  revert c. induction s1 as [|i s1 IH]; intros c; simpl.
  - now intros [= <-].
  - destruct (ReaderPriorityThreads.step i c) as [[ev c1]|]; [|discriminate].
    intros Hrun. simpl. f_equal. now apply IH.
Qed.

Lemma releases_app k evs1 evs2 :
  ReaderPriorityHistories.releases k (evs1 ++ evs2) =
  (ReaderPriorityHistories.releases k evs1 +
   ReaderPriorityHistories.releases k evs2)%nat.
Proof.
  induction evs1 as [|[i ev'] evs1 IH]; simpl; [reflexivity|].
  rewrite IH. lia.
Qed.

Lemma rp_rounds_history (K : nat -> ReaderPriorityThreads.config)
    (P : ReaderPriorityThreads.config -> Prop) round k j :
  (forall m, ReaderPriorityThreads.run round (K (S m)) = Some (K m)) ->
  (forall m, Forall P (ReaderPriorityHistories.trail round (K (S m)))) ->
  (forall m,
     ReaderPriorityHistories.releases k
       (ReaderPriorityHistories.events round (K (S m))) = j) ->
  forall n,
    ReaderPriorityThreads.run (rounds n round) (K n) = Some (K 0%nat) /\
    Forall P (ReaderPriorityHistories.trail (rounds n round) (K n)) /\
    ReaderPriorityHistories.releases k
      (ReaderPriorityHistories.events (rounds n round) (K n)) = (n * j)%nat.
Proof.
  intros Hrun HP Hev. induction n as [|n (IHr & IHp & IHe)]; simpl.
  - split; [reflexivity|]. split; [constructor|reflexivity].
  - rewrite rp_run_app, (rp_trail_app _ _ _ _ (Hrun n)),
      (rp_events_app _ _ _ _ (Hrun n)), Hrun, releases_app, Hev, IHe.
    split; [assumption|]. split; [|lia].
    apply Forall_app. split; [apply HP|exact IHp].
Qed.

(** X8. [ReaderPriorityRWLock] can keep a writer out for as long as
    readers keep coming.  For every [n]: a reader is inside, and then
    two readers take turns, each entering before the other has left.
    All [4 * n] steps are taken, [2 * n] read sections are completed,
    and at every one of these steps the writer has still made no call
    and cannot make one: its [_write_acquire] finds the writer lock
    locked. *)
Theorem X8_readers_starve_writer :
  forall n,
    ReaderPriorityThreads.run [1%nat]
      (ReaderPriorityThreads.start (readers_stream n))
    = Some (rp_writer_outside n) /\
    writer_shut_out (rp_writer_outside n) /\
    ReaderPriorityThreads.run (rounds n rp_overlap) (rp_writer_outside n)
    = Some (rp_writer_outside 0) /\
    Forall writer_shut_out
      (ReaderPriorityHistories.trail (rounds n rp_overlap)
         (rp_writer_outside n)) /\
    ReaderPriorityHistories.releases Rd
      (ReaderPriorityHistories.events (rounds n rp_overlap)
         (rp_writer_outside n))
    = (n * 2)%nat.
Proof.
  intros n. split; [reflexivity|]. split; [split; reflexivity|].
  apply (rp_rounds_history rp_writer_outside).
  - intros m. reflexivity.
  - intros m. repeat constructor.
  - intros m. reflexivity.
Qed.

End StreamFacts.

(* ================================================================= *)
(** * Readers share the lock *)

Module Sharing.

Import Threads Streams.

Lemma lookup_after_repeat {T} (x y : T) k l :
  (List.repeat x k ++ y :: l) !! k = Some y.
Proof. induction k as [|k IH]; simpl; [reflexivity|exact IH]. Qed.

Lemma insert_after_repeat {T} (x y z : T) k l :
  <[k := z]> (List.repeat x k ++ y :: l) = List.repeat x k ++ z :: l.
Proof. induction k as [|k IH]; simpl; [reflexivity|]. now rewrite IH. Qed.

Lemma repeat_snoc {T} (x : T) k l :
  List.repeat x k ++ x :: l = List.repeat x (S k) ++ l.
Proof. induction k as [|k IH]; simpl; [reflexivity|]. now rewrite IH. Qed.

(** One more reader enters: the step of thread [k] when [k] readers are
    inside. *)
Ltac enter_one :=
  unfold step; simpl; rewrite lookup_after_repeat; simpl;
  rewrite insert_after_repeat.

Lemma wp_crowd m : forall k,
  run WriterPriorityRWLock.monitor (one_by_one k m)
    {| lock := {| WriterPriorityRWLock._reader_count := Z.of_nat k;
                  WriterPriorityRWLock._writer_active := false;
                  WriterPriorityRWLock._writer_waiting_count := 0 |};
       pool := List.repeat inside_read k ++ List.repeat waiting_to_read m |}
  = Some
    {| lock := {| WriterPriorityRWLock._reader_count := Z.of_nat (k + m);
                  WriterPriorityRWLock._writer_active := false;
                  WriterPriorityRWLock._writer_waiting_count := 0 |};
       pool := List.repeat inside_read (k + m) |}.
Proof.
  induction m as [|m IH]; intros k; simpl.
  - now rewrite Nat.add_0_r, app_nil_r.
  - enter_one. fold inside_read.
    rewrite repeat_snoc.
    replace (Z.of_nat k + 1) with (Z.of_nat (S k)) by (clear; lia).
    fold (one_by_one (S k) m). rewrite IH.
    now replace (S k + m)%nat with (k + S m)%nat by (clear; lia).
Qed.

Lemma py_crowd m : forall k,
  run lock_py.WriterPriorityRWLock.monitor (one_by_one k m)
    {| lock := {| lock_py.WriterPriorityRWLock._reader_count := Z.of_nat k;
                  lock_py.WriterPriorityRWLock._writer_active := false;
                  lock_py.WriterPriorityRWLock._writer_waiting_count := 0 |};
       pool := List.repeat inside_read k ++ List.repeat waiting_to_read m |}
  = Some
    {| lock := {| lock_py.WriterPriorityRWLock._reader_count :=
                    Z.of_nat (k + m);
                  lock_py.WriterPriorityRWLock._writer_active := false;
                  lock_py.WriterPriorityRWLock._writer_waiting_count := 0 |};
       pool := List.repeat inside_read (k + m) |}.
Proof.
  induction m as [|m IH]; intros k; simpl.
  - now rewrite Nat.add_0_r, app_nil_r.
  - enter_one. fold inside_read.
    rewrite repeat_snoc.
    replace (Z.of_nat k + 1) with (Z.of_nat (S k)) by (clear; lia).
    fold (one_by_one (S k) m). rewrite IH.
    now replace (S k + m)%nat with (k + S m)%nat by (clear; lia).
Qed.

Lemma fair_crowd m : forall k,
  run FairRWLock.monitor (one_by_one k m)
    {| lock := {| FairRWLock._readers_active := Z.of_nat k;
                  FairRWLock._writer_active := false;
                  FairRWLock._waiting_count := 0 |};
       pool := List.repeat inside_read k ++ List.repeat waiting_to_read m |}
  = Some
    {| lock := {| FairRWLock._readers_active := Z.of_nat (k + m);
                  FairRWLock._writer_active := false;
                  FairRWLock._waiting_count := 0 |};
       pool := List.repeat inside_read (k + m) |}.
Proof.
  induction m as [|m IH]; intros k; simpl.
  - now rewrite Nat.add_0_r, app_nil_r.
  - enter_one. fold inside_read.
    rewrite repeat_snoc.
    replace (Z.of_nat k + 1) with (Z.of_nat (S k)) by (clear; lia).
    fold (one_by_one (S k) m). rewrite IH.
    now replace (S k + m)%nat with (k + S m)%nat by (clear; lia).
Qed.

(** With a reader inside, one more enters and leaves the writer lock
    alone. *)
Lemma rp_crowd m : forall k,
  ReaderPriorityThreads.run (seq (S k) m)
    {| ReaderPriorityThreads.lock :=
         {| ReaderPriorityRWLock._monitor := false;
            ReaderPriorityRWLock._reader_count := Z.of_nat (S k);
            ReaderPriorityRWLock._writer_lock := true |};
       ReaderPriorityThreads.pool :=
         List.repeat rp_inside_read (S k) ++
         List.repeat rp_waiting_to_read m |}
  = Some
    {| ReaderPriorityThreads.lock :=
         {| ReaderPriorityRWLock._monitor := false;
            ReaderPriorityRWLock._reader_count := Z.of_nat (S k + m);
            ReaderPriorityRWLock._writer_lock := true |};
       ReaderPriorityThreads.pool := List.repeat rp_inside_read (S k + m) |}.
Proof.
  induction m as [|m IH]; intros k.
  - simpl. now rewrite Nat.add_0_r, app_nil_r.
  - cbn [seq ReaderPriorityThreads.run List.repeat].
    unfold ReaderPriorityThreads.step.
    cbn [ReaderPriorityThreads.pool ReaderPriorityThreads.lock].
    rewrite (lookup_after_repeat rp_inside_read rp_waiting_to_read (S k)).
    cbn [ReaderPriorityThreads.th_pc ReaderPriorityThreads.th_todo
         rp_waiting_to_read blocks ReaderPriorityThreads.method].
    rewrite ReaderPriorityFacts._read_acquire_eq.
    cbn [ReaderPriorityRWLock._monitor ReaderPriorityRWLock._reader_count
         ReaderPriorityRWLock._writer_lock].
    destruct (Z.eqb_spec (Z.of_nat (S k) + 1) 1) as [Hk|_];
      [exfalso; clear - Hk; lia|].
    cbn [ReaderPriorityThreads.returned].
    rewrite (insert_after_repeat rp_inside_read rp_waiting_to_read).
    fold rp_inside_read. rewrite repeat_snoc.
    replace (Z.of_nat (S k) + 1) with (Z.of_nat (S (S k))) by (clear; lia).
    rewrite (IH (S k)).
    now replace (S (S k) + m)%nat with (S k + S m)%nat by (clear; lia).
Qed.

(** X11. Readers do not keep readers out.  For every [n], when [n]
    threads each enter [with lock.read():] on a fresh lock of any of
    the four classes, one after the other and none leaving, each acquire
    returns at once: all [n] are inside their sections together and the
    reader counter is [n]. *)
Theorem X11_readers_share :
  forall n,
    run WriterPriorityRWLock.monitor (one_by_one 0 n)
      (start WriterPriorityRWLock.monitor (reader_crowd n))
    = Some
      {| lock := {| WriterPriorityRWLock._reader_count := Z.of_nat n;
                    WriterPriorityRWLock._writer_active := false;
                    WriterPriorityRWLock._writer_waiting_count := 0 |};
         pool := List.repeat inside_read n |} /\
    run lock_py.WriterPriorityRWLock.monitor (one_by_one 0 n)
      (start lock_py.WriterPriorityRWLock.monitor (reader_crowd n))
    = Some
      {| lock := {| lock_py.WriterPriorityRWLock._reader_count := Z.of_nat n;
                    lock_py.WriterPriorityRWLock._writer_active := false;
                    lock_py.WriterPriorityRWLock._writer_waiting_count := 0 |};
         pool := List.repeat inside_read n |} /\
    run FairRWLock.monitor (one_by_one 0 n)
      (start FairRWLock.monitor (reader_crowd n))
    = Some
      {| lock := {| FairRWLock._readers_active := Z.of_nat n;
                    FairRWLock._writer_active := false;
                    FairRWLock._waiting_count := 0 |};
         pool := List.repeat inside_read n |} /\
    ReaderPriorityThreads.run (seq 0 n)
      (ReaderPriorityThreads.start (reader_crowd n))
    = Some
      {| ReaderPriorityThreads.lock :=
           {| ReaderPriorityRWLock._monitor := false;
              ReaderPriorityRWLock._reader_count := Z.of_nat n;
              ReaderPriorityRWLock._writer_lock := (0 <? Z.of_nat n) |};
         ReaderPriorityThreads.pool := List.repeat rp_inside_read n |}.
Proof.
  intros n.
  assert (map (fun todo => {| th_pc := Running; th_todo := todo |})
            (reader_crowd n) = List.repeat waiting_to_read n) as Hstart.
  { unfold reader_crowd. induction n as [|n IH]; simpl in *; [reflexivity|].
    f_equal. exact IH. }
  unfold start. rewrite Hstart.
  split; [exact (wp_crowd n 0%nat)|].
  split; [exact (py_crowd n 0%nat)|].
  split; [exact (fair_crowd n 0%nat)|].
  destruct n as [|n]; [reflexivity|].
  pose proof (rp_crowd n 0%nat) as Hrest.
  replace (0 <? Z.of_nat (S n)) with true
    by (symmetry; apply Z.ltb_lt; clear; lia).
  simpl in Hrest |- *.
  assert (map (fun todo =>
                 {| ReaderPriorityThreads.th_pc :=
                      ReaderPriorityThreads.Running;
                    ReaderPriorityThreads.th_todo := todo |})
            (List.repeat [Acquire Rd; Release Rd] n)
          = List.repeat rp_waiting_to_read n) as ->.
  { clear. induction n as [|n IH]; simpl; [reflexivity|]. now rewrite IH. }
  exact Hrest.
Qed.

End Sharing.

(* ================================================================= *)
(** * ReaderPriorityRWLock: a release that finds the writer lock unlocked *)

Module ReleaseErrors.

Import ReaderPriorityRWLock.

(** X12. [ReaderPriorityRWLock]: when the critical section of
    [write()] comes back with the writer lock unlocked, or that of the
    last reader's [read()] does, the [finally] clause fails: the block
    ends in the [RuntimeError] of [threading.Lock.release], whatever the
    section returned or raised, so an exception of the section is
    replaced.  After [read()] the reader counter is at 0 and the monitor
    is free again. *)
Theorem X12_release_of_unlocked_writer_lock :
  (forall R (body : Py.M state R) self s1 r s2,
     _write_acquire self = (Py.Returned tt, s1) ->
     body s1 = (r, s2) -> r <> Py.Hangs ->
     _writer_lock s2 = false ->
     write body self = (Py.Raised Py.RuntimeError, s2)) /\
  (forall R (body : Py.M state R) self s1 r s2,
     _read_acquire self = (Py.Returned tt, s1) ->
     body s1 = (r, s2) -> r <> Py.Hangs ->
     _monitor s2 = false -> _reader_count s2 = 1 ->
     _writer_lock s2 = false ->
     read body self =
     (Py.Raised Py.RuntimeError,
      {| _monitor := false; _reader_count := 0; _writer_lock := false |})).
Proof.
  split; intros R body self s1 r s2 He Hb Hr.
  - intros Hg. unfold write.
    rewrite (Scoped.with_context_exit _ _ _ _ _ _ _ He Hb Hr).
    now rewrite ReaderPriorityFacts._write_release_eq, Hg.
  - intros Hm Hn Hg. unfold read.
    rewrite (Scoped.with_context_exit _ _ _ _ _ _ _ He Hb Hr).
    rewrite ReaderPriorityFacts._read_release_eq, Hm, Hn, Hg. reflexivity.
Qed.

(** A critical section that releases the lock itself, on a fresh lock. *)
Lemma X12_witness :
  let s1 := {| _monitor := false; _reader_count := 0; _writer_lock := true |} in
  _write_acquire __init__ = (Py.Returned tt, s1) /\
  _write_release s1 = (Py.Returned tt, __init__) /\
  Py.Returned tt <> @Py.Hangs unit /\
  _writer_lock __init__ = false /\
  write _write_release __init__ = (Py.Raised Py.RuntimeError, __init__).
Proof.
  intros s1.
  assert (_write_acquire __init__ = (Py.Returned tt, s1)) as He
    by reflexivity.
  assert (_write_release s1 = (Py.Returned tt, __init__)) as Hb
    by reflexivity.
  assert (Py.Returned tt <> @Py.Hangs unit) as Hr by discriminate.
  repeat (split; [first [assumption | reflexivity]|]).
  exact (proj1 X12_release_of_unlocked_writer_lock unit _write_release
           __init__ s1 _ __init__ He Hb Hr eq_refl).
Defined.

End ReleaseErrors.

(* ================================================================= *)
(** * What the attributes count *)

Module Attributes.

Import ThreadFacts.

(** X13. Among threads that use the lock through [with] blocks, the
    attributes say exactly what the threads are doing.  For the two
    WriterPriorityRWLock classes and FairRWLock the reader counter is
    the number of threads inside a read section, [_writer_active] is set
    exactly when a thread is inside a write section, and the waiting
    counter is the number of threads inside [_write_acquire] (for
    FairRWLock: inside either acquire).  For ReaderPriorityRWLock the
    reader counter counts the readers inside plus the one asleep at the
    writer lock, the monitor is locked exactly while that one sleeps,
    and the writer lock is locked exactly while a writer or at least one
    reader is inside. *)
Theorem X13_attributes_count_threads :
  (forall kss c,
     Threads.reachable WriterPriorityRWLock.monitor
       (map Threads.blocks kss) c ->
     WriterPriorityRWLock._reader_count (Threads.lock c) =
       Threads.tally (Threads.holds Threads.Rd) (Threads.pool c) /\
     Threads.flag (WriterPriorityRWLock._writer_active (Threads.lock c)) =
       Threads.tally (Threads.holds Threads.Wr) (Threads.pool c) /\
     WriterPriorityRWLock._writer_waiting_count (Threads.lock c) =
       Threads.tally (Threads.pending Threads.Wr) (Threads.pool c)) /\
  (forall kss c,
     Threads.reachable lock_py.WriterPriorityRWLock.monitor
       (map Threads.blocks kss) c ->
     lock_py.WriterPriorityRWLock._reader_count (Threads.lock c) =
       Threads.tally (Threads.holds Threads.Rd) (Threads.pool c) /\
     Threads.flag
       (lock_py.WriterPriorityRWLock._writer_active (Threads.lock c)) =
       Threads.tally (Threads.holds Threads.Wr) (Threads.pool c) /\
     lock_py.WriterPriorityRWLock._writer_waiting_count (Threads.lock c) =
       Threads.tally (Threads.pending Threads.Wr) (Threads.pool c)) /\
  (forall kss c,
     Threads.reachable FairRWLock.monitor (map Threads.blocks kss) c ->
     FairRWLock._readers_active (Threads.lock c) =
       Threads.tally (Threads.holds Threads.Rd) (Threads.pool c) /\
     Threads.flag (FairRWLock._writer_active (Threads.lock c)) =
       Threads.tally (Threads.holds Threads.Wr) (Threads.pool c) /\
     FairRWLock._waiting_count (Threads.lock c) =
       Threads.tally (Threads.pending Threads.Rd) (Threads.pool c) +
       Threads.tally (Threads.pending Threads.Wr) (Threads.pool c)) /\
  (forall kss c,
     ReaderPriorityThreads.reachable (map Threads.blocks kss) c ->
     ReaderPriorityRWLock._reader_count (ReaderPriorityThreads.lock c) =
       Threads.tally (ReaderPriorityThreads.holds Threads.Rd)
         (ReaderPriorityThreads.pool c) +
       Threads.tally ReaderPriorityThreads.parked
         (ReaderPriorityThreads.pool c) /\
     Threads.flag
       (ReaderPriorityRWLock._monitor (ReaderPriorityThreads.lock c)) =
       Threads.tally ReaderPriorityThreads.parked
         (ReaderPriorityThreads.pool c) /\
     Threads.flag
       (ReaderPriorityRWLock._writer_lock (ReaderPriorityThreads.lock c)) =
       Threads.tally (ReaderPriorityThreads.holds Threads.Wr)
         (ReaderPriorityThreads.pool c) +
       (if 0 <? Threads.tally (ReaderPriorityThreads.holds Threads.Rd)
                  (ReaderPriorityThreads.pool c)
        then 1 else 0)).
Proof.
  split; [|split; [|split]]; intros kss c Hc.
  - pose proof (WriterPriorityExactFacts.exact_reachable _ _ Hc) as He.
    repeat split; apply He.
  - pose proof (WriterPriorityExactFacts.exact_reachable _ _
                  (WriterPriorityRuns.py_reachable _ _ Hc)) as He.
    destruct He as [_ Hr Hw Hn _ _]. simpl in *.
    repeat split; assumption.
  - pose proof (FairLiveness.counted_reachable _ _ Hc) as He.
    repeat split; apply He.
  - pose proof (ReaderPriorityFacts.rp_counted_reachable _ _ Hc) as He.
    repeat split; apply He.
Qed.

(** Two readers inside a [FairRWLock], a writer asleep. *)
Lemma X13_witness :
  let kss := [[Threads.Rd]; [Threads.Rd]; [Threads.Wr]] in
  let c :=
    {| Threads.lock := {| FairRWLock._readers_active := 2;
                          FairRWLock._writer_active := false;
                          FairRWLock._waiting_count := 1 |};
       Threads.pool :=
         [ {| Threads.th_pc := Threads.Running;
              Threads.th_todo := [Threads.Release Threads.Rd] |};
           {| Threads.th_pc := Threads.Running;
              Threads.th_todo := [Threads.Release Threads.Rd] |};
           {| Threads.th_pc := Threads.Waiting Threads.Wr;
              Threads.th_todo := [Threads.Release Threads.Wr] |} ] |} in
  Threads.reachable FairRWLock.monitor (map Threads.blocks kss) c /\
  FairRWLock._readers_active (Threads.lock c) =
    Threads.tally (Threads.holds Threads.Rd) (Threads.pool c) /\
  Threads.flag (FairRWLock._writer_active (Threads.lock c)) =
    Threads.tally (Threads.holds Threads.Wr) (Threads.pool c) /\
  FairRWLock._waiting_count (Threads.lock c) =
    Threads.tally (Threads.pending Threads.Rd) (Threads.pool c) +
    Threads.tally (Threads.pending Threads.Wr) (Threads.pool c).
Proof.
  intros kss c.
  assert (Threads.reachable FairRWLock.monitor (map Threads.blocks kss) c)
    as Hc.
  { exists [(0, 0); (1, 0); (2, 0)]%nat. reflexivity. }
  split; [exact Hc|].
  exact (proj1 (proj2 (proj2 X13_attributes_count_threads)) kss c Hc).
Defined.

End Attributes.
